(** * Shared-memory graph database: shards, handles and the commit protocol

    A shallow embedding of
      - graphlab/database/sharedmem_database/graph_vertex_sharedmem.hpp
        (class graph_vertex_sharedmem and class graph_database_sharedmem),
      - graphlab/database/graph_edge_sharedmem.hpp
        (class graph_edge_sharedmem),
    with explicit state passing: a method of the database is a function from
    the database value to the new database value and the result.  An access
    that is undefined in C++ (an array read or write out of range, a
    remainder by zero) makes the model return [None].

    Pointers into shard storage (the graph_row* held by vertex_store and by
    the handles) are modelled as a pair (shard id, slot) that is looked up in
    the shard array of the database.

    The row store, the shard, the two indices and the assertion macro are
    used by these files but are not among them; their models follow the
    specification and say so.  get_adj_list, get_shard_copy, adjacent_shards
    and the free_* methods are not modelled. *)

From stdpp Require Import gmap list option strings.

Open Scope N_scope.
Open Scope nat_scope.

(** ** Basic types (basic_types.hpp is not part of the sources)

    Vertex ids are unsigned 64-bit keys; only equality and hashing are used on
    them.  Shard ids and positions index arrays and are natural numbers; the
    width of graph_shard_id_t is taken to be enough for every id below the
    number of shards. *)
Abbreviation graph_vid_t := N (only parsing).
Abbreviation graph_shard_id_t := nat (only parsing).

(** [size_t] arithmetic: the edge counter wraps at 2^64. *)
Definition SIZE_MOD : N := (2 ^ 64)%N.

(** ** The row store collaborator *)

(** Modelled from the spec: graph_value and graph_field (graph_value.hpp,
    graph_field.hpp are not part of the sources).  The core only requires that
    a value carries a modified flag and a delta-commit flag, supports a
    structural copy, and has a post-commit step that clears the modified flag
    and takes the current value as the new baseline. *)
Class RowStore := {
  graph_field : Type;
  graph_value : Type;
  get_modified : graph_value → bool;
  get_use_delta_commit : graph_value → bool;
  post_commit_state : graph_value → graph_value;
  value_deepcopy : graph_value → graph_value;
  null_value : graph_field → graph_value;
  post_commit_state_modified :
    ∀ v, get_modified (post_commit_state v) = false
}.

(** ** Loops

    [for (size_t i = 0; i < n; i++) body] as a left fold over 0, ..., n-1;
    [for_loopM] is the same loop for a body that can fail. *)
Definition for_loop {S : Type} (n : nat) (body : nat → S → S) (s : S) : S :=
  foldl (λ acc i, body i acc) s (seq 0 n).

Definition for_loopM {S : Type} (n : nat) (body : nat → S → option S) (s : S)
    : option S :=
  foldl (λ acc i, acc ≫= body i) (Some s) (seq 0 n).

Global Arguments for_loop : simpl never.
Global Arguments for_loopM : simpl never.

(** [m[k]] of boost::unordered_map: the value stored under [k], default
    constructed and inserted when there is none. *)
Definition subscript {V : Type} `{Inhabited V}
    (m : gmap graph_vid_t V) (k : graph_vid_t) : V * gmap graph_vid_t V :=
  match m !! k with
  | Some v => (v, m)
  | None => (inhabitant, <[k := inhabitant]> m)
  end.

Abbreviation row_ptr := (nat * nat)%type (only parsing).

Section Storage.
Context `{RS : RowStore}.

(** ** Rows *)

(** Modelled from the spec: graph_row (graph_row.hpp is not part of the
    sources): an ordered sequence of typed values, with the [_is_vertex] flag
    that add_vertex and add_edge set. *)
Record graph_row := mk_graph_row {
  _is_vertex : bool;
  _data : list graph_value
}.

Definition num_fields (r : graph_row) : nat := length (_data r).

Definition get_field (r : graph_row) (i : nat) : option graph_value :=
  _data r !! i.

(** Assignment through the pointer returned by [get_field(i)]. *)
Definition set_field (r : graph_row) (i : nat) (v : graph_value) : graph_row :=
  mk_graph_row (_is_vertex r) (<[i := v]> (_data r)).

Definition set_is_vertex (b : bool) (r : graph_row) : graph_row :=
  mk_graph_row b (_data r).

(** [new graph_row(db, fields)]: a row of null values, one per field. *)
Definition new_graph_row (fields : list graph_field) : graph_row :=
  mk_graph_row false (null_value <$> fields).

(** [graph_row::deepcopy]: the structural copy of a row. *)
Definition row_deepcopy (r : graph_row) : graph_row :=
  mk_graph_row (_is_vertex r) (value_deepcopy <$> _data r).

(** ** Shards *)

(** Modelled from the spec: graph_shard_impl (graph_shard_impl.hpp is not part
    of the sources): the vertex entries (vid and row) of the vertices whose
    master is this shard, the edge entries (source, target, row), and for a
    derived shard the parallel [edgeid] sequence of origin positions. *)
Record graph_shard_impl := mk_graph_shard_impl {
  shard_id : graph_shard_id_t;
  vertex : list graph_vid_t;
  vertex_data : list graph_row;
  edge : list (graph_vid_t * graph_vid_t);
  edge_data : list graph_row;
  edgeid : list nat
}.

(** [new graph_shard()]: an empty shard. *)
Definition empty_shard_impl (i : graph_shard_id_t) : graph_shard_impl :=
  mk_graph_shard_impl i [] [] [] [] [].

(** Modelled from the spec: [graph_shard_impl::add_vertex] stores a structural
    copy of the row at the end of the vertex entries and returns its
    position (the caller deletes its own row afterwards). *)
Definition impl_add_vertex (s : graph_shard_impl) (v : graph_vid_t)
    (row : graph_row) : nat * graph_shard_impl :=
  (length (vertex s),
   mk_graph_shard_impl (shard_id s)
     (vertex s ++ [v]) (vertex_data s ++ [row_deepcopy row])
     (edge s) (edge_data s) (edgeid s)).

(** Modelled from the spec: [graph_shard_impl::add_edge] stores a structural
    copy of the row at the end of the edge entries and returns its position. *)
Definition impl_add_edge (s : graph_shard_impl) (src tgt : graph_vid_t)
    (row : graph_row) : nat * graph_shard_impl :=
  (length (edge s),
   mk_graph_shard_impl (shard_id s)
     (vertex s) (vertex_data s)
     (edge s ++ [(src, tgt)]) (edge_data s ++ [row_deepcopy row])
     (edgeid s)).

Definition impl_push_edgeid (s : graph_shard_impl) (p : nat)
    : graph_shard_impl :=
  mk_graph_shard_impl (shard_id s) (vertex s) (vertex_data s)
    (edge s) (edge_data s) (edgeid s ++ [p]).

Definition impl_set_shard_id (s : graph_shard_impl) (i : graph_shard_id_t)
    : graph_shard_impl :=
  mk_graph_shard_impl i (vertex s) (vertex_data s)
    (edge s) (edge_data s) (edgeid s).

Definition impl_set_vertex_data (s : graph_shard_impl) (l : list graph_row)
    : graph_shard_impl :=
  mk_graph_shard_impl (shard_id s) (vertex s) l
    (edge s) (edge_data s) (edgeid s).

Definition impl_set_edge_data (s : graph_shard_impl) (l : list graph_row)
    : graph_shard_impl :=
  mk_graph_shard_impl (shard_id s) (vertex s) (vertex_data s)
    (edge s) l (edgeid s).

(** Modelled from the spec: graph_shard (graph_shard.hpp is not part of the
    sources), the public face of a shard around its [shard_impl]. *)
Record graph_shard := mk_graph_shard { shard_impl : graph_shard_impl }.

Definition graph_shard_id (s : graph_shard) : graph_shard_id_t :=
  shard_id (shard_impl s).
Definition shard_num_vertices (s : graph_shard) : nat :=
  length (vertex (shard_impl s)).
Definition shard_num_edges (s : graph_shard) : nat :=
  length (edge (shard_impl s)).
Definition shard_vertex_data (s : graph_shard) (i : nat) : option graph_row :=
  vertex_data (shard_impl s) !! i.
Definition shard_edge (s : graph_shard) (i : nat)
    : option (graph_vid_t * graph_vid_t) :=
  edge (shard_impl s) !! i.
Definition shard_edge_data (s : graph_shard) (i : nat) : option graph_row :=
  edge_data (shard_impl s) !! i.


(** ** Pointers into shard storage

    A [graph_row*] that points into the vertex rows or the edge rows of a
    live shard is a [row_ptr]: the shard and the slot.  Memory is the shard
    array. *)

Definition load_vertex_row (mem : list graph_shard) (p : row_ptr)
    : option graph_row :=
  s ← mem !! p.1; shard_vertex_data s p.2.

Definition store_vertex_row (mem : list graph_shard) (p : row_ptr)
    (r : graph_row) : list graph_shard :=
  alter (λ s, mk_graph_shard
    (impl_set_vertex_data (shard_impl s)
       (<[p.2 := r]> (vertex_data (shard_impl s))))) p.1 mem.

Definition load_edge_row (mem : list graph_shard) (p : row_ptr)
    : option graph_row :=
  s ← mem !! p.1; shard_edge_data s p.2.

Definition store_edge_row (mem : list graph_shard) (p : row_ptr)
    (r : graph_row) : list graph_shard :=
  alter (λ s, mk_graph_shard
    (impl_set_edge_data (shard_impl s)
       (<[p.2 := r]> (edge_data (shard_impl s))))) p.1 mem.

(** Two shard arrays that differ in the contents of rows only. *)
Definition same_skeleton (sh sh' : list graph_shard) : Prop :=
  length sh' = length sh ∧
  ∀ k s, sh !! k = Some s →
    ∃ s', sh' !! k = Some s' ∧
      vertex (shard_impl s') = vertex (shard_impl s) ∧
      edge (shard_impl s') = edge (shard_impl s) ∧
      length (vertex_data (shard_impl s')) =
        length (vertex_data (shard_impl s)) ∧
      length (edge_data (shard_impl s')) =
        length (edge_data (shard_impl s)).

(** [slice_of origin ret]: the shard [ret] holds no vertices, its three edge
    sequences have the same length, and its edge [i] is the edge of [origin]
    at position [edgeid[i]] with a deep copy of the row (the copy that
    get_shard_contents_adj_to makes, copied once more by the add_edge of the
    new shard). *)
Definition slice_of (origin ret : graph_shard_impl) : Prop :=
  vertex ret = [] ∧ vertex_data ret = [] ∧
  length (edge ret) = length (edgeid ret) ∧
  length (edge_data ret) = length (edgeid ret) ∧
  ∀ i p, edgeid ret !! i = Some p →
    ∃ e row,
      edge origin !! p = Some e ∧ edge_data origin !! p = Some row ∧
      edge ret !! i = Some e ∧
      edge_data ret !! i = Some (row_deepcopy (row_deepcopy row)).

(** [same_shape d d']: the shard [d'] is the shard [d] after a client has
    set values in its edge rows; the id, the vertices, the edges and the
    edge positions are the same, and every edge row has as many fields as
    before. *)
Definition same_shape (d d' : graph_shard_impl) : Prop :=
  shard_id d' = shard_id d ∧
  vertex d' = vertex d ∧
  vertex_data d' = vertex_data d ∧
  edge d' = edge d ∧
  edgeid d' = edgeid d ∧
  Forall2 (λ r r', num_fields r' = num_fields r) (edge_data d) (edge_data d').

(** The body shared by every commit loop over the fields of a row:
<<
      graph_value* val = row->get_field(i);
      if (val->get_modified()) { val->post_commit_state(); }
>> *)
Definition commit_field (i : nat) (r : graph_row) : graph_row :=
  match get_field r i with
  | Some val =>
      if get_modified val then set_field r i (post_commit_state val) else r
  | None => r
  end.

(** ** Further models: shard copies and the layout of the shards *)

(** Modelled from the spec: [graph_shard_impl::deepcopy] (graph_shard_impl.hpp
    is not part of the sources), the deep, independently owned duplicate of a
    shard, rows included. *)
Definition impl_deepcopy (s : graph_shard_impl) : graph_shard_impl :=
  mk_graph_shard_impl (shard_id s)
    (vertex s) (row_deepcopy <$> vertex_data s)
    (edge s) (row_deepcopy <$> edge_data s)
    (edgeid s).

(** [shard_grows s s']: the shard [s'] is the shard [s] later on; it has the
    same id and edgeid, and the vertex and edge entries of [s] come first, at
    their positions. *)
Definition shard_grows (s s' : graph_shard_impl) : Prop :=
  shard_id s' = shard_id s ∧
  edgeid s' = edgeid s ∧
  vertex s `prefix_of` vertex s' ∧
  edge s `prefix_of` edge s'.

Definition layout_grows (mem mem' : list graph_shard) : Prop :=
  length mem' = length mem ∧
  ∀ k s, mem !! k = Some s →
    ∃ s', mem' !! k = Some s' ∧ shard_grows (shard_impl s) (shard_impl s').

(** A field after the commit step of the loops: committed when it was
    modified, as it was otherwise. *)
Definition commit_value (x : graph_value) : graph_value :=
  if get_modified x then post_commit_state x else x.


(** A row after a commit loop over its fields. *)
Definition commit_row (r : graph_row) : graph_row :=
  mk_graph_row (_is_vertex r) (commit_value <$> _data r).

(** The row [origin] of the database after commit_shard has committed the
    row [local] into it: where field [j] of [local] was modified, field [j]
    of [origin] is the deep copy of the committed value. *)
Definition commit_into (local origin : graph_row) : graph_row :=
  mk_graph_row (_is_vertex origin)
    (imap (λ j o, match get_field local j with
                  | Some x => if get_modified x
                              then value_deepcopy (post_commit_state x)
                              else o
                  | None => o
                  end) (_data origin)).

(** [edge_rows_only id mem mem']: the shard array [mem'] is [mem] with other
    contents in edge rows of shard [id]; nothing else differs. *)
Definition edge_rows_only (id : graph_shard_id_t)
    (mem mem' : list graph_shard) : Prop :=
  length mem' = length mem ∧
  ∀ k s, mem !! k = Some s →
    ∃ s', mem' !! k = Some s' ∧
      shard_id (shard_impl s') = shard_id (shard_impl s) ∧
      vertex (shard_impl s') = vertex (shard_impl s) ∧
      vertex_data (shard_impl s') = vertex_data (shard_impl s) ∧
      edge (shard_impl s') = edge (shard_impl s) ∧
      edgeid (shard_impl s') = edgeid (shard_impl s) ∧
      length (edge_data (shard_impl s')) = length (edge_data (shard_impl s)) ∧
      (k ≠ id → s' = s).

(** [edited d d']: the shard [d'] is the shard [d] after a client has set
    values in its vertex rows and edge rows; the id, the vertices, the edges
    and the edge positions are the same, and every row has as many fields as
    before. *)
Definition edited (d d' : graph_shard_impl) : Prop :=
  shard_id d' = shard_id d ∧
  vertex d' = vertex d ∧
  edge d' = edge d ∧
  edgeid d' = edgeid d ∧
  Forall2 (λ r r', num_fields r' = num_fields r)
    (vertex_data d) (vertex_data d') ∧
  Forall2 (λ r r', num_fields r' = num_fields r)
    (edge_data d) (edge_data d').

End Storage.

(** ** The vertex index *)
Module graph_vertex_index.
Section Index.
Context `{RS : RowStore}.

(** Modelled from the spec: graph_vertex_index (graph_vertex_index.hpp is not
    part of the sources): a mapping from vid to a dense storage slot, one
    entry added per successful vertex insertion, never removed.  The slot
    reported for a vid without an entry is the parameter [npos]. *)
Record t := mk { index_map : gmap graph_vid_t nat }.

Definition empty : t := mk ∅.

Definition has_vertex (vi : t) (v : graph_vid_t) : bool :=
  bool_decide (is_Some (index_map vi !! v)).

Definition get_index (npos : N) (vi : t) (v : graph_vid_t) : N :=
  match index_map vi !! v with
  | Some i => N.of_nat i
  | None => npos
  end.

Definition add_vertex (vi : t) (v : graph_vid_t) (row : graph_row) (pos : nat)
    : t :=
  mk (<[v := pos]> (index_map vi)).

End Index.
End graph_vertex_index.

(** ** The edge index of one shard *)
Module graph_edge_index.

(** Modelled from the spec: graph_edge_index (graph_edge_index.hpp is not part
    of the sources): a mapping from vid to two position lists, the incoming
    and the outgoing edge positions within the shard's edge sequence; entries
    are appended on edge insertion and never removed. *)
Record t := mk { index_map : gmap graph_vid_t (list nat * list nat) }.

Definition empty : t := mk ∅.

Definition get_edge_index (ei : t) (getIn getOut : bool) (v : graph_vid_t)
    : list nat * list nat :=
  let entry := default ([], []) (index_map ei !! v) in
  (if getIn then entry.1 else [], if getOut then entry.2 else []).

Definition add_out (m : gmap graph_vid_t (list nat * list nat))
    (v : graph_vid_t) (pos : nat) : gmap graph_vid_t (list nat * list nat) :=
  let entry := default ([], []) (m !! v) in
  <[v := (entry.1, entry.2 ++ [pos])]> m.

Definition add_in (m : gmap graph_vid_t (list nat * list nat))
    (v : graph_vid_t) (pos : nat) : gmap graph_vid_t (list nat * list nat) :=
  let entry := default ([], []) (m !! v) in
  <[v := (entry.1 ++ [pos], entry.2)]> m.

Definition add_edge (ei : t) (source target : graph_vid_t) (pos : nat) : t :=
  mk (add_in (add_out (index_map ei) source pos) target pos).

End graph_edge_index.

(** ** graph_vertex_sharedmem: the vertex handle *)
Module graph_vertex_sharedmem.
Section Vertex.
Context `{RS : RowStore}.

(** The [database] pointer is the state that the methods take and return. *)
Record t := mk {
  vid : graph_vid_t;
  vdata : row_ptr;
  master : graph_shard_id_t;
  mirrors : gset graph_shard_id_t
}.

Definition get_id (h : t) : graph_vid_t := vid h.

Definition data (h : t) : row_ptr := vdata h.

Definition write_changes (h : t) (mem : list graph_shard)
    : option (list graph_shard) :=
  row ← load_vertex_row mem (vdata h);
  Some (store_vertex_row mem (vdata h)
          (for_loop (num_fields row) commit_field row)).

Definition write_changes_async (h : t) (mem : list graph_shard)
    : option (list graph_shard) :=
  write_changes h mem.

Definition refresh (h : t) (mem : list graph_shard)
    : option (list graph_shard) :=
  Some mem.

Definition write_and_refresh (h : t) (mem : list graph_shard)
    : option (list graph_shard) :=
  write_changes h mem.

Definition master_shard (h : t) : graph_shard_id_t := master h.

Definition get_num_shards (h : t) : nat := size (mirrors h) + 1.

Definition get_shard_list (h : t) : list graph_shard_id_t :=
  elements (mirrors h).

End Vertex.
End graph_vertex_sharedmem.

(** ** graph_edge_sharedmem: the edge handle *)
Module graph_edge_sharedmem.
Section Edge.
Context `{RS : RowStore}.

Record t := mk {
  sourceid : graph_vid_t;
  targetid : graph_vid_t;
  cache : row_ptr;
  master : graph_shard_id_t
}.

Definition get_src (e : t) : graph_vid_t := sourceid e.
Definition get_dest (e : t) : graph_vid_t := targetid e.
Definition data (e : t) : row_ptr := cache e.

(** The four synchronisation methods have empty bodies: whatever the state
    [St] of the program is (the database, its shards, the rows), the call
    returns it as it was. *)
Definition write_changes {St : Type} (e : t) (st : St) : St := st.
Definition write_changes_async {St : Type} (e : t) (st : St) : St := st.
Definition refresh {St : Type} (e : t) (st : St) : St := st.
Definition write_and_refresh {St : Type} (e : t) (st : St) : St := st.

Definition master_shard (e : t) : graph_shard_id_t := master e.

End Edge.
End graph_edge_sharedmem.

(** ** graph_database_sharedmem *)
Module graph_database_sharedmem.
Section Database.
Context `{RS : RowStore}.

(** [boost::hash<graph_vid_t>] and
    [boost::hash<std::pair<graph_vid_t, graph_vid_t> >]. *)
Context (vid_hash : graph_vid_t → nat).
Context (edge_hash : graph_vid_t * graph_vid_t → nat).

(** The slot that [graph_vertex_index::get_index] reports for a vid that has
    no entry. *)
Context (npos : N).

(** The fields of the class; [sharding_graph] only serves adjacent_shards
    and is left out. *)
Record t := mk {
  vertex_fields : list graph_field;
  edge_fields : list graph_field;
  shards : list graph_shard;
  vertex_store : list row_ptr;
  vertex_index : graph_vertex_index.t;
  edge_index : list graph_edge_index.t;
  vid2master : gmap graph_vid_t graph_shard_id_t;
  vid2mirrors : gmap graph_vid_t (gset graph_shard_id_t);
  _num_edges : N;
  _num_shards : nat
}.

Definition set_shards (db : t) (x : list graph_shard) : t :=
  mk (vertex_fields db) (edge_fields db) x (vertex_store db)
     (vertex_index db) (edge_index db) (vid2master db) (vid2mirrors db)
     (_num_edges db) (_num_shards db).

Definition set_vertex_store (db : t) (x : list row_ptr) : t :=
  mk (vertex_fields db) (edge_fields db) (shards db) x
     (vertex_index db) (edge_index db) (vid2master db) (vid2mirrors db)
     (_num_edges db) (_num_shards db).

Definition set_vertex_index (db : t) (x : graph_vertex_index.t) : t :=
  mk (vertex_fields db) (edge_fields db) (shards db) (vertex_store db)
     x (edge_index db) (vid2master db) (vid2mirrors db)
     (_num_edges db) (_num_shards db).

Definition set_edge_index (db : t) (x : list graph_edge_index.t) : t :=
  mk (vertex_fields db) (edge_fields db) (shards db) (vertex_store db)
     (vertex_index db) x (vid2master db) (vid2mirrors db)
     (_num_edges db) (_num_shards db).

Definition set_vid2master (db : t) (x : gmap graph_vid_t graph_shard_id_t)
    : t :=
  mk (vertex_fields db) (edge_fields db) (shards db) (vertex_store db)
     (vertex_index db) (edge_index db) x (vid2mirrors db)
     (_num_edges db) (_num_shards db).

Definition set_vid2mirrors (db : t)
    (x : gmap graph_vid_t (gset graph_shard_id_t)) : t :=
  mk (vertex_fields db) (edge_fields db) (shards db) (vertex_store db)
     (vertex_index db) (edge_index db) (vid2master db) x
     (_num_edges db) (_num_shards db).

Definition set_num_edges (db : t) (x : N) : t :=
  mk (vertex_fields db) (edge_fields db) (shards db) (vertex_store db)
     (vertex_index db) (edge_index db) (vid2master db) (vid2mirrors db)
     x (_num_shards db).

(** The constructor: [new graph_shard[numshards]], then the loop that sets
    the shard ids, then [edge_index.resize(numshards)]. *)
Definition create (vertex_fields edge_fields : list graph_field)
    (numshards : nat) : t :=
  mk vertex_fields edge_fields
     (for_loop numshards
        (λ i sh, alter (λ s,
           mk_graph_shard (impl_set_shard_id (shard_impl s) i)) i sh)
        (replicate numshards (mk_graph_shard (empty_shard_impl 0))))
     [] graph_vertex_index.empty
     (replicate numshards graph_edge_index.empty)
     ∅ ∅ 0%N numshards.

Definition num_vertices (db : t) : N := N.of_nat (length (vertex_store db)).

Definition num_edges (db : t) : N := _num_edges db.

Definition get_vertex_fields (db : t) : list graph_field := vertex_fields db.

Definition get_edge_fields (db : t) : list graph_field := edge_fields db.

Definition num_shards (db : t) : nat := _num_shards db.

(** *** Fine grained API *)

Definition get_master (db : t) (v : graph_vid_t) : graph_shard_id_t * t :=
  let '(m, vid2master') := subscript (vid2master db) v in
  (m, set_vid2master db vid2master').

(** The result is NULL ([None]) or the new handle; the two subscripts can
    add default entries to the maps. *)
Definition get_vertex (db : t) (v : graph_vid_t)
    : option (option graph_vertex_sharedmem.t * t) :=
  let idx := graph_vertex_index.get_index npos (vertex_index db) v in
  if (N.of_nat (length (vertex_store db)) <=? idx)%N then Some (None, db)
  else
    row ← vertex_store db !! N.to_nat idx;
    let '(m, vid2master') := subscript (vid2master db) v in
    let '(ms, vid2mirrors') := subscript (vid2mirrors db) v in
    Some (Some (graph_vertex_sharedmem.mk v row m ms),
          set_vid2mirrors (set_vid2master db vid2master') vid2mirrors').

(** How a call of find_vertex ends. *)
Inductive outcome (A : Type) : Type :=
  | Returns (a : A)
  | Assertion_failure.
Global Arguments Returns {A} a.
Global Arguments Assertion_failure {A}.

(** Modelled from the spec: ASSERT_TRUE (the assertion macros are not part of
    the sources): a failed check is fatal and ends the call. *)
Definition ASSERT_TRUE {A : Type} (cond : bool) (k : outcome A) : outcome A :=
  if cond then k else Assertion_failure.

(** The result pairs the returned flag with the contents of [out_vids]. *)
Definition find_vertex_int (db : t) (fieldpos : nat) (value : Z)
    (out_vids : list graph_vid_t) : outcome (bool * list graph_vid_t) :=
  ASSERT_TRUE false (Returns (false, out_vids)).

Definition find_vertex_string (db : t) (fieldpos : nat) (value : string)
    (out_vids : list graph_vid_t) : outcome (bool * list graph_vid_t) :=
  ASSERT_TRUE false (Returns (false, out_vids)).

(** *** Coarse grained API *)

Definition get_shard (db : t) (shard_id : graph_shard_id_t)
    : option graph_shard :=
  shards db !! shard_id.

(** The loop body that copies one edge of shard [adjacent_to] into the new
    shard [ret], for the position [index[j]]. *)
Definition copy_edge (db : t) (adjacent_to : graph_shard_id_t)
    (index : list nat) (j : nat) (ret : graph_shard_impl)
    : option graph_shard_impl :=
  pos ← index !! j;
  adj ← shards db !! adjacent_to;
  e ← shard_edge adj pos;
  data ← shard_edge_data adj pos;
  let data_copy := row_deepcopy data in
  Some (impl_push_edgeid (impl_add_edge ret e.1 e.2 data_copy).2 pos).

(** The body of the loop over the vertices of [shard_id].  Both subscripts
    [vid2mirrors[vids[i]]] of the test name the same entry; the first one
    creates it when it is missing. *)
Definition copy_adjacent (shard_id adjacent_to : graph_shard_id_t)
    (vids : list graph_vid_t) (i : nat) (st : graph_shard_impl * t)
    : option (graph_shard_impl * t) :=
  let '(ret, db) := st in
  v ← vids !! i;
  let '(pass, db) :=
    if bool_decide (shard_id = adjacent_to) then (true, db)
    else
      let '(ms, vid2mirrors') := subscript (vid2mirrors db) v in
      (bool_decide (adjacent_to ∈ ms), set_vid2mirrors db vid2mirrors') in
  if pass then
    ei ← edge_index db !! adjacent_to;
    let '(index_in, index_out) :=
      graph_edge_index.get_edge_index ei true true v in
    ret ← for_loopM (length index_in)
            (copy_edge db adjacent_to index_in) ret;
    ret ← for_loopM (length index_out)
            (copy_edge db adjacent_to index_out) ret;
    Some (ret, db)
  else Some (ret, db).

Definition get_shard_contents_adj_to (db : t)
    (shard_id adjacent_to : graph_shard_id_t) : option (graph_shard * t) :=
  let ret := impl_set_shard_id (empty_shard_impl 0) adjacent_to in
  src ← shards db !! shard_id;
  let vids := vertex (shard_impl src) in
  '(ret, db) ← for_loopM (length vids)
                 (copy_adjacent shard_id adjacent_to vids) (ret, db);
  Some (mk_graph_shard ret, db).

(** The commit of one vertex row [i] of the shard, in place. *)
Definition commit_vertex_row (i : nat) (shard : graph_shard)
    : option graph_shard :=
  row ← shard_vertex_data shard i;
  Some (mk_graph_shard
    (impl_set_vertex_data (shard_impl shard)
       (<[i := for_loop (num_fields row) commit_field row]>
          (vertex_data (shard_impl shard))))).

(** The body of the loop over the fields of a local edge row:
<<
      graph_value* val = local->get_field(j);
      if (val->get_modified()) {
        val->post_commit_state();
        origin->get_field(j)->free_data();
        val->deepcopy( *origin->get_field(j) );
      }
>> *)
Definition commit_edge_field (j : nat) (st : graph_row * graph_row)
    : option (graph_row * graph_row) :=
  let '(local, origin) := st in
  val ← get_field local j;
  if get_modified val then
    let val := post_commit_state val in
    _ ← get_field origin j;
    Some (set_field local j val, set_field origin j (value_deepcopy val))
  else Some (local, origin).

(** The commit of one edge row [i] of the shard into its origin row of the
    live shard [id]; a missing origin row fails ASSERT_TRUE(origin != NULL). *)
Definition commit_edge_row (id : graph_shard_id_t) (derivedshard : bool)
    (i : nat) (st : t * graph_shard) : option (t * graph_shard) :=
  let '(db, shard) := st in
  local ← shard_edge_data shard i;
  pos ← (if derivedshard then edgeid (shard_impl shard) !! i else Some i);
  origin ← load_edge_row (shards db) (id, pos);
  '(local, origin) ← for_loopM (num_fields local) commit_edge_field
                       (local, origin);
  Some (set_shards db (store_edge_row (shards db) (id, pos) origin),
        mk_graph_shard
          (impl_set_edge_data (shard_impl shard)
             (<[i := local]> (edge_data (shard_impl shard))))).

(** [commit_shard] for a shard that the caller owns (a derived shard or a
    copy): the shard and the database are distinct objects, and both are
    changed. *)
Definition commit_shard (db : t) (shard : graph_shard)
    : option (t * graph_shard) :=
  let id := graph_shard_id shard in
  shard ← for_loopM (shard_num_vertices shard) commit_vertex_row shard;
  let derivedshard := bool_decide (0 < length (edgeid (shard_impl shard))) in
  for_loopM (shard_num_edges shard) (commit_edge_row id derivedshard)
    (db, shard).

(** *** Modification API *)

Definition add_vertex (db : t) (v : graph_vid_t) (data : option graph_row)
    : option (bool * t) :=
  if graph_vertex_index.has_vertex (vertex_index db) v then Some (false, db)
  else
    let row := default (new_graph_row (vertex_fields db)) data in
    let row := set_is_vertex true row in
    if bool_decide (num_shards db = 0) then None
    else
      let master := vid_hash v mod num_shards db in
      s ← shards db !! master;
      let '(ptr, impl) := impl_add_vertex (shard_impl s) v row in
      let db := set_shards db (<[master := mk_graph_shard impl]> (shards db)) in
      let db := set_vid2master db (<[v := master]> (vid2master db)) in
      let db := set_vertex_store db (vertex_store db ++ [(master, ptr)]) in
      let db := set_vertex_index db
                  (graph_vertex_index.add_vertex (vertex_index db) v row
                     (length (vertex_store db) - 1)) in
      Some (true, db).

(** "Add vertices to mirror shards", for one endpoint [v]:
<<
    if ((vid2master[v] != shardid) &&
        (vid2mirrors[v].find(shardid) == vid2mirrors[v].end())) {
      vid2mirrors[v].insert(shardid);
    }
>> *)
Definition add_mirror (db : t) (v : graph_vid_t) (shardid : graph_shard_id_t)
    : t :=
  let '(m, vid2master') := subscript (vid2master db) v in
  let db := set_vid2master db vid2master' in
  if bool_decide (m ≠ shardid) then
    let '(ms, vid2mirrors') := subscript (vid2mirrors db) v in
    if bool_decide (shardid ∉ ms)
    then set_vid2mirrors db (<[v := ms ∪ {[shardid]}]> vid2mirrors')
    else set_vid2mirrors db vid2mirrors'
  else db.

(** The first part of add_edge: the row goes into shard [shardid], the edge
    counter is incremented and the edge index of the shard is updated. *)
Definition store_edge (db : t) (shardid : graph_shard_id_t)
    (source target : graph_vid_t) (row : graph_row) : option t :=
  s ← shards db !! shardid;
  let '(pos, impl) := impl_add_edge (shard_impl s) source target row in
  let db := set_shards db (<[shardid := mk_graph_shard impl]> (shards db)) in
  let db := set_num_edges db ((_num_edges db + 1) mod SIZE_MOD)%N in
  ei ← edge_index db !! shardid;
  Some (set_edge_index db
          (<[shardid := graph_edge_index.add_edge ei source target pos]>
             (edge_index db))).

(** "Add vertices to master shards", for one endpoint [v]:
<<
    if (!vertex_index.has_vertex(v)) { add_vertex(v); }
>> *)
Definition ensure_vertex (db : t) (v : graph_vid_t) : option t :=
  if graph_vertex_index.has_vertex (vertex_index db) v then Some db
  else snd <$> add_vertex db v None.

Definition add_edge (db : t) (source target : graph_vid_t)
    (data : option graph_row) : option t :=
  if bool_decide (num_shards db = 0) then None
  else
    let shardid := edge_hash (source, target) mod num_shards db in
    let row := default (new_graph_row (edge_fields db)) data in
    let row := set_is_vertex false row in
    db ← store_edge db shardid source target row;
    db ← ensure_vertex db source;
    db ← ensure_vertex db target;
    let db := add_mirror db source shardid in
    let db := add_mirror db target shardid in
    Some db.

(** *** Sequences of operations

    The calls that change the state of a database: the methods above, the
    commits through a vertex handle, and the writes of a client through the
    row pointer of a handle ([data()]). *)
Inductive op : Type :=
  | Add_vertex (v : graph_vid_t) (data : option graph_row)
  | Add_edge (source target : graph_vid_t) (data : option graph_row)
  | Get_master (v : graph_vid_t)
  | Get_vertex (v : graph_vid_t)
  | Get_shard_contents_adj_to (shard_id adjacent_to : graph_shard_id_t)
  | Commit_shard (shard : graph_shard)
  | Write_changes (h : graph_vertex_sharedmem.t)
  | Write_vertex_data (p : row_ptr) (r : graph_row)
  | Write_edge_data (p : row_ptr) (r : graph_row).

Definition step (o : op) (db : t) : option t :=
  match o with
  | Add_vertex v data => snd <$> add_vertex db v data
  | Add_edge source target data => add_edge db source target data
  | Get_master v => Some (get_master db v).2
  | Get_vertex v => snd <$> get_vertex db v
  | Get_shard_contents_adj_to a b => snd <$> get_shard_contents_adj_to db a b
  | Commit_shard shard => fst <$> commit_shard db shard
  | Write_changes h =>
      set_shards db <$> graph_vertex_sharedmem.write_changes h (shards db)
  | Write_vertex_data p r =>
      _ ← load_vertex_row (shards db) p;
      Some (set_shards db (store_vertex_row (shards db) p r))
  | Write_edge_data p r =>
      _ ← load_edge_row (shards db) p;
      Some (set_shards db (store_edge_row (shards db) p r))
  end.

Definition run (ops : list op) (db : t) : option t :=
  foldl (λ acc o, acc ≫= step o) (Some db) ops.

(** The states that a database with at least one shard can reach. *)
Definition reachable (db : t) : Prop :=
  ∃ vertex_fields edge_fields numshards ops,
    0 < numshards ∧
    run ops (create vertex_fields edge_fields numshards) = Some db.

(** The operation adds [v] to the database: an add_vertex of [v], or an
    add_edge with [v] as an endpoint. *)
Definition adds (v : graph_vid_t) (o : op) : Prop :=
  match o with
  | Add_vertex v' _ => v' = v
  | Add_edge source target _ => source = v ∨ target = v
  | _ => False
  end.

(** The mirror set of a vid: the entry of [vid2mirrors], empty when there is
    none. *)
Definition mirrors_of (db : t) (v : graph_vid_t) : gset graph_shard_id_t :=
  default ∅ (vid2mirrors db !! v).

(** The master shard of a vid, as get_master reports it: the entry of
    [vid2master], 0 when there is none. *)
Definition master_of (db : t) (v : graph_vid_t) : graph_shard_id_t :=
  default 0 (vid2master db !! v).

Definition is_vertex (db : t) (v : graph_vid_t) : Prop :=
  graph_vertex_index.has_vertex (vertex_index db) v = true.

#[global] Instance is_vertex_dec (db : t) (v : graph_vid_t)
    : Decision (is_vertex db v) :=
  decide (graph_vertex_index.has_vertex (vertex_index db) v = true).

(** [quiet db db']: the two states hold the same graph.  They can differ in
    the contents of rows and in default entries of the two vid maps. *)
Record quiet (db db' : t) : Prop := mk_quiet {
  quiet_shards : same_skeleton (shards db) (shards db');
  quiet_vertex_store : vertex_store db' = vertex_store db;
  quiet_vertex_index : vertex_index db' = vertex_index db;
  quiet_edge_index : edge_index db' = edge_index db;
  quiet_num_edges : _num_edges db' = _num_edges db;
  quiet_num_shards : _num_shards db' = _num_shards db;
  quiet_master_Some : ∀ v m,
    vid2master db !! v = Some m → vid2master db' !! v = Some m;
  quiet_master_of : ∀ v, master_of db' v = master_of db v;
  quiet_mirrors_of : ∀ v, mirrors_of db' v = mirrors_of db v
}.

(** [grows db db']: no mirror set has lost an element, and every vertex of
    [db] is a vertex of [db'] with the same master shard. *)
Definition grows (db db' : t) : Prop :=
  ∀ v, mirrors_of db v ⊆ mirrors_of db' v ∧
       (is_vertex db v →
        is_vertex db' v ∧ master_of db' v = master_of db v).

(** The positions of the edges that get_shard_contents_adj_to copies, in the
    words of the specification: for every vertex stored in shard [shard_id]
    that passes the filter, its incoming and then its outgoing positions in
    the Edge Index of [adjacent_to]. *)
Definition passes_filter (db : t) (shard_id adjacent_to : graph_shard_id_t)
    (v : graph_vid_t) : bool :=
  bool_decide (shard_id = adjacent_to) ||
  bool_decide (adjacent_to ∈ mirrors_of db v).

Definition adjacency (ei : graph_edge_index.t) (v : graph_vid_t) : list nat :=
  (graph_edge_index.get_edge_index ei true true v).1 ++
  (graph_edge_index.get_edge_index ei true true v).2.

Definition adjacent_positions (db : t)
    (shard_id adjacent_to : graph_shard_id_t) : list nat :=
  match shards db !! shard_id, edge_index db !! adjacent_to with
  | Some src, Some ei =>
      mbind (M := list) (λ v, if passes_filter db shard_id adjacent_to v
                  then adjacency ei v else [])
        (vertex (shard_impl src))
  | _, _ => []
  end.

(** *** The invariant of the reachable states *)
Record wf (db : t) : Prop := mk_wf {
  wf_num_shards : 0 < _num_shards db;
  wf_shards : length (shards db) = _num_shards db;
  wf_edge_index : length (edge_index db) = _num_shards db;
  wf_shape : ∀ k s, shards db !! k = Some s →
    length (vertex_data (shard_impl s)) = length (vertex (shard_impl s)) ∧
    length (edge_data (shard_impl s)) = length (edge (shard_impl s));
  wf_master : ∀ v, is_vertex db v →
    vid2master db !! v = Some (vid_hash v mod _num_shards db);
  wf_store : ∀ v i, graph_vertex_index.index_map (vertex_index db) !! v = Some i →
    ∃ p s, vertex_store db !! i = Some (vid_hash v mod _num_shards db, p) ∧
           shards db !! (vid_hash v mod _num_shards db) = Some s ∧
           vertex (shard_impl s) !! p = Some v;
  wf_mirrors : ∀ v k, k ∈ mirrors_of db v →
    is_vertex db v ∧ k ≠ vid_hash v mod _num_shards db;
  wf_positions : ∀ k ei s v p,
    edge_index db !! k = Some ei → shards db !! k = Some s →
    p ∈ adjacency ei v → p < length (edge (shard_impl s))
}.

(** *** Further methods and the invariants of the stored graph *)

Definition get_shard_copy (db : t) (shard_id : graph_shard_id_t)
    : option graph_shard :=
  s ← shards db !! shard_id;
  Some (mk_graph_shard (impl_deepcopy (shard_impl s))).

(** The shards of the database are primary: shard [k] has the id [k] and an
    empty [edgeid]. *)
Definition primary_shards (db : t) : Prop :=
  ∀ k s, shards db !! k = Some s →
    graph_shard_id s = k ∧ edgeid (shard_impl s) = [].

(** Every vid in the vertex entries of a shard is an indexed vertex whose
    master is this shard, and no shard lists a vid twice. *)
Definition vertices_placed (db : t) : Prop :=
  ∀ k s, shards db !! k = Some s →
    NoDup (vertex (shard_impl s)) ∧
    ∀ v, v ∈ vertex (shard_impl s) →
      is_vertex db v ∧ k = vid_hash v mod _num_shards db.

(** The edge index of every shard is exact: the incoming positions of [v] are
    the positions of the edges with target [v], the outgoing ones those of
    the edges with source [v], each listed once. *)
Definition edge_index_exact (db : t) : Prop :=
  ∀ k s ei, shards db !! k = Some s → edge_index db !! k = Some ei →
    ∀ v,
      NoDup (graph_edge_index.get_edge_index ei true true v).1 ∧
      NoDup (graph_edge_index.get_edge_index ei true true v).2 ∧
      ∀ p,
        (p ∈ (graph_edge_index.get_edge_index ei true true v).1 ↔
         ∃ u, edge (shard_impl s) !! p = Some (u, v)) ∧
        (p ∈ (graph_edge_index.get_edge_index ei true true v).2 ↔
         ∃ w, edge (shard_impl s) !! p = Some (v, w)).

(** Shard [k] stores an edge that touches [v]. *)
Definition touches (db : t) (k : graph_shard_id_t) (v : graph_vid_t) : Prop :=
  ∃ s p e, shards db !! k = Some s ∧ edge (shard_impl s) !! p = Some e ∧
           (e.1 = v ∨ e.2 = v).

(** The endpoints of the stored edges are vertices, and the mirror set of a
    vid holds exactly the shards, other than its master, that store an edge
    touching it. *)
Definition mirrors_exact (db : t) : Prop :=
  (∀ k v, touches db k v → is_vertex db v) ∧
  (∀ k v, k ∈ mirrors_of db v ↔ k ≠ master_of db v ∧ touches db k v).

(** The number of edge rows that the shards store. *)
Definition total_edges (db : t) : nat :=
  sum_list (shard_num_edges <$> shards db).

(** The number of vertex entries that the shards store. *)
Definition total_vertices (db : t) : nat :=
  sum_list (shard_num_vertices <$> shards db).

(** The position in shard [id(shard)] of the database that commit_shard takes
    for the edge row [i] of [shard]:
<<
      derivedshard ? shards[id].edge_data(shard->shard_impl.edgeid[i])
                   : shards[id].edge_data(i)
>> *)
Definition origin_position (shard : graph_shard) (i : nat) : option nat :=
  if bool_decide (0 < length (edgeid (shard_impl shard)))
  then edgeid (shard_impl shard) !! i else Some i.

(** The edge row [i] of [shard] has the modified value [x] in field [j], and
    commit_shard writes it to the position [p]. *)
Definition writes (shard : graph_shard) (i p j : nat) (x : graph_value)
    : Prop :=
  i < shard_num_edges shard ∧
  origin_position shard i = Some p ∧
  shard_edge_data shard i ≫= (λ r, get_field r j) = Some x ∧
  get_modified x = true.

(** A shard that commit_shard can take for the database [db]: it has a row
    for each of its vertices and edges, every edge row has its position in
    shard [id(shard)] of the database, and the row there has the fields that
    are modified in the edge row. *)
Definition committable (db : t) (shard : graph_shard) : Prop :=
  length (vertex_data (shard_impl shard)) = shard_num_vertices shard ∧
  length (edge_data (shard_impl shard)) = shard_num_edges shard ∧
  ∀ i local, shard_edge_data shard i = Some local →
    ∃ pos origin,
      origin_position shard i = Some pos ∧
      load_edge_row (shards db) (graph_shard_id shard, pos) = Some origin ∧
      ∀ j x, get_field local j = Some x → get_modified x = true →
             j < num_fields origin.

(** The counters agree with the contents of the shards and of the index. *)
Definition counters_agree (db : t) : Prop :=
  length (vertex_store db) = total_vertices db ∧
  size (graph_vertex_index.index_map (vertex_index db)) =
    length (vertex_store db) ∧
  _num_edges db = (N.of_nat (total_edges db) mod SIZE_MOD)%N.

End Database.
End graph_database_sharedmem.

(** ** A concrete row store and concrete hash functions

    Used to run the model on explicit databases. *)
Module Example.

(** Modelled from the spec: a value with its data, the baseline of the last
    commit, the modified flag and the delta-commit flag; post-commit clears
    the flags and takes the data as the new baseline; the structural copy is
    the same value. *)
Record value := mk_value {
  v_data : Z;
  v_old : Z;
  v_modified : bool;
  v_delta : bool
}.

Definition set_val (x : Z) (v : value) : value :=
  mk_value x (v_old v) true (v_delta v).

Definition row_store : RowStore := {|
  graph_field := string;
  graph_value := value;
  get_modified := v_modified;
  get_use_delta_commit := v_delta;
  post_commit_state := λ v, mk_value (v_data v) (v_data v) false false;
  value_deepcopy := λ v, v;
  null_value := λ _, mk_value 0 0 false false;
  post_commit_state_modified := λ _, eq_refl
|}.

Definition vid_hash (v : graph_vid_t) : nat := N.to_nat v.

Definition edge_hash (e : graph_vid_t * graph_vid_t) : nat :=
  N.to_nat (e.1 * 31 + e.2).

Definition npos : N := (2 ^ 64 - 1)%N.

Abbreviation database := (@graph_database_sharedmem.t row_store).

Definition run (ops : list (@graph_database_sharedmem.op row_store))
    (db : database) : option database :=
  graph_database_sharedmem.run vid_hash edge_hash npos ops db.

(** Four shards, one field per vertex and per edge. *)
Definition vertex_schema : list (@graph_field row_store) := ["rank"%string].
Definition edge_schema : list (@graph_field row_store) := ["weight"%string].

Definition db0 : database :=
  graph_database_sharedmem.create vertex_schema edge_schema 4.

(** The edges (1,2), (2,3), (3,1), which land in shards 1, 1 and 2. *)
Definition triangle : list (@graph_database_sharedmem.op row_store) :=
  [graph_database_sharedmem.Add_edge 1%N 2%N None;
   graph_database_sharedmem.Add_edge 2%N 3%N None;
   graph_database_sharedmem.Add_edge 3%N 1%N None].

(** The database after the three insertions. *)
Definition db3 : database := default db0 (run triangle db0).

(** The slice of shard 2 that is adjacent to shard 1, and the database after
    the call. *)
Definition slice12 : graph_shard * database :=
  default (mk_graph_shard (empty_shard_impl 0), db3)
    (graph_database_sharedmem.get_shard_contents_adj_to db3 1 2).

(** What a client does to a row through [data()]: field [j] gets the value
    [x] and is marked modified. *)
Definition set_row_val (j : nat) (x : Z) (r : @graph_row row_store)
    : @graph_row row_store :=
  match get_field r j with
  | Some v => set_field r j (set_val x v)
  | None => r
  end.

(** The weight 5, set and not yet committed. *)
Definition five : @graph_value row_store := mk_value 5 0 true false.

(** The slice after the client has set the weight of its edge 0 to 5. *)
Definition slice12' : graph_shard :=
  mk_graph_shard
    (impl_set_edge_data (shard_impl slice12.1)
       (set_row_val 0 5 <$> edge_data (shard_impl slice12.1))).

(** The handle of vertex 3 (master shard 3, mirrors 1 and 2), and the shards
    after a client has set its rank to 7. *)
Definition vertex3 : @graph_vertex_sharedmem.t :=
  graph_vertex_sharedmem.mk 3%N (3, 0) 3 {[1; 2]}.

Definition mem3 : list (@graph_shard row_store) :=
  store_vertex_row (graph_database_sharedmem.shards db3) (3, 0)
    (set_row_val 0 7
       (default (new_graph_row [])
          (load_vertex_row (graph_database_sharedmem.shards db3) (3, 0)))).

(** The database after the first insertion, and the rest of the run. *)
Definition db1 : database :=
  default db0
    (graph_database_sharedmem.add_edge vid_hash edge_hash db0 1%N 2%N None).

Definition rest : list (@graph_database_sharedmem.op row_store) :=
  [graph_database_sharedmem.Add_edge 2%N 3%N None;
   graph_database_sharedmem.Add_edge 3%N 1%N None].

(** The database after get_vertex(3). *)
Definition db3' : database :=
  default db3
    (snd <$> graph_database_sharedmem.get_vertex npos db3 3%N).

(** The handle of the edge (3,1), row 0 of shard 2. *)
Definition edge31 : @graph_edge_sharedmem.t :=
  graph_edge_sharedmem.mk 3%N 1%N (2, 0) 2.

(** The copy of shard 1 (get_shard_copy), and the copy after the client has
    set the rank of its vertices to 9 and the weight of its edges to 5. *)
Definition copy1 : graph_shard :=
  default (mk_graph_shard (empty_shard_impl 0))
    (graph_database_sharedmem.get_shard_copy db3 1).

Definition copy1' : graph_shard :=
  mk_graph_shard
    (impl_set_vertex_data
       (impl_set_edge_data (shard_impl copy1)
          (set_row_val 0 5 <$> edge_data (shard_impl copy1)))
       (set_row_val 0 9 <$> vertex_data (shard_impl copy1))).

End Example.

(** * Properties *)

(** ** Loops *)
Section Loops.
Context {S : Type}.
Implicit Types (s : S) (n i : nat).

Lemma for_loop_S n (body : nat → S → S) s :
  for_loop (Datatypes.S n) body s = body n (for_loop n body s).
Proof.
  unfold for_loop. rewrite seq_S, foldl_app. reflexivity.
Qed.

Lemma for_loopM_0 (body : nat → S → option S) s :
  for_loopM 0 body s = Some s.
Proof. reflexivity. Qed.

Lemma for_loopM_S n (body : nat → S → option S) s :
  for_loopM (Datatypes.S n) body s = for_loopM n body s ≫= body n.
Proof.
  unfold for_loopM. rewrite seq_S, foldl_app. reflexivity.
Qed.

(** The invariant rule of a loop that cannot fail. *)
Lemma for_loop_inv (P : nat → S → Prop) n (body : nat → S → S) s :
  P 0 s →
  (∀ i x, i < n → P i x → P (Datatypes.S i) (body i x)) →
  P n (for_loop n body s).
Proof.
  intros H0 Hstep. induction n as [|n IH]; [exact H0|].
  rewrite for_loop_S. apply Hstep; [lia|]. apply IH.
  intros i x Hi. apply Hstep. lia.
Qed.

(** The invariant rule of a loop whose body can fail: when every iteration
    succeeds from a state that satisfies the invariant, so does the loop. *)
Lemma for_loopM_inv (P : nat → S → Prop) n (body : nat → S → option S) s :
  P 0 s →
  (∀ i x, i < n → P i x → ∃ y, body i x = Some y ∧ P (Datatypes.S i) y) →
  ∃ y, for_loopM n body s = Some y ∧ P n y.
Proof.
  intros H0 Hstep. induction n as [|n IH]; [by exists s|].
  destruct IH as (y & Hy & HP).
  { intros i x Hi. apply Hstep. lia. }
  destruct (Hstep n y) as (z & Hz & HPz); [lia|done|].
  exists z. rewrite for_loopM_S, Hy. done.
Qed.

(** A loop in which only iteration [j] changes the state. *)
Lemma for_loopM_single n (body : nat → S → option S) s j s' :
  j < n →
  (∀ i, i < j → body i s = Some s) →
  body j s = Some s' →
  (∀ i, j < i < n → body i s' = Some s') →
  for_loopM n body s = Some s'.
Proof.
  intros Hj Hbefore Hat Hafter.
  destruct (for_loopM_inv
    (λ i x, (i ≤ j → x = s) ∧ (j < i → x = s')) n body s) as (y & Hy & HP).
  - split; [done|lia].
  - intros i x Hi [Hle Hgt]. destruct (decide (i < j)) as [Hlt|Hge].
    + exists s. rewrite Hle by lia. split; [by apply Hbefore|].
      split; [done|lia].
    + exists s'. destruct (decide (i = j)) as [->|Hne].
      * rewrite Hle by lia. split; [done|]. split; [lia|done].
      * rewrite Hgt by lia. split; [apply Hafter; lia|].
        split; [lia|done].
  - rewrite Hy. f_equal. apply HP. lia.
Qed.

(** A loop in which no iteration changes the state. *)
Lemma for_loopM_skip n (body : nat → S → option S) s :
  (∀ i, i < n → body i s = Some s) → for_loopM n body s = Some s.
Proof.
  intros Hbody.
  destruct (for_loopM_inv (λ _ x, x = s) n body s) as (y & Hy & ->);
    [done| |done].
  intros i x Hi ->. exists s. split; [by apply Hbody|done].
Qed.

(** Partial correctness: a property that every successful iteration
    preserves holds of the result of a successful loop. *)
Lemma for_loopM_preserves (P : S → Prop) n (body : nat → S → option S) s y :
  P s →
  (∀ i x z, i < n → P x → body i x = Some z → P z) →
  for_loopM n body s = Some y → P y.
Proof.
  intros H0 Hstep. revert y. induction n as [|n IH]; intros y.
  - by intros [= <-].
  - rewrite for_loopM_S. intros Hy.
    apply bind_Some in Hy as (x & Hx & Hy).
    apply (Hstep n x y); [lia| |done]. apply IH; [|done].
    intros i x' z Hi. apply Hstep. lia.
Qed.

End Loops.

(** ** Rows and row pointers *)
Section RowProperties.
Context `{RS : RowStore}.
Implicit Types (r row : graph_row) (mem : list graph_shard).

(** The commit loop over a row commits every modified field. *)
Lemma for_loop_commit_field row :
  for_loop (num_fields row) commit_field row =
  mk_graph_row (_is_vertex row)
    ((λ v, if get_modified v then post_commit_state v else v) <$> _data row).
Proof.
  set (commit := λ v : graph_value,
         if get_modified v then post_commit_state v else v).
  cut (∀ n, n ≤ num_fields row →
        for_loop n commit_field row =
        mk_graph_row (_is_vertex row)
          ((commit <$> take n (_data row)) ++ drop n (_data row))).
  { intros H. rewrite H by done. unfold num_fields.
    by rewrite firstn_all, drop_all, app_nil_r. }
  induction n as [|n IH]; intros Hn.
  - by destruct row.
  - rewrite for_loop_S, IH by lia. unfold num_fields in Hn.
    destruct (lookup_lt_is_Some_2 (_data row) n) as [v Hv]; [lia|].
    assert (Hlen : length (commit <$> take n (_data row)) = n).
    { rewrite length_fmap, length_take. lia. }
    assert (Hget : ((commit <$> take n (_data row)) ++ drop n (_data row))
                     !! n = Some v).
    { rewrite lookup_app_r by lia. rewrite Hlen, Nat.sub_diag.
      rewrite lookup_drop, Nat.add_0_r. done. }
    unfold commit_field, get_field; simpl. rewrite Hget.
    rewrite (take_S_r _ _ v), fmap_app by done. simpl.
    rewrite (drop_S _ v n) in * by done.
    rewrite <- app_assoc. simpl.
    assert (Hc : commit v =
              if get_modified v then post_commit_state v else v) by done.
    destruct (get_modified v) eqn:Hm; rewrite Hc; [|done].
    unfold set_field; simpl. f_equal.
    rewrite insert_app_r_alt by lia. rewrite Hlen, Nat.sub_diag. done.
Qed.

Lemma commit_unmodified row :
  (∀ v, v ∈ _data row → get_modified v = false) →
  for_loop (num_fields row) commit_field row = row.
Proof.
  intros Hrow. rewrite for_loop_commit_field. destruct row as [b l]; simpl in *.
  f_equal. induction l as [|v l IH]; [done|]. simpl.
  rewrite Hrow by apply list_elem_of_here. f_equal. apply IH.
  intros w Hw. apply Hrow. by apply list_elem_of_further.
Qed.

Lemma commit_clears row v :
  v ∈ _data (for_loop (num_fields row) commit_field row) →
  get_modified v = false.
Proof.
  rewrite for_loop_commit_field. simpl. intros Hv.
  apply list_elem_of_fmap in Hv as (w & -> & _).
  destruct (get_modified w) eqn:Hm; [apply post_commit_state_modified|done].
Qed.

Lemma load_store_vertex_row mem p r :
  is_Some (load_vertex_row mem p) →
  load_vertex_row (store_vertex_row mem p r) p = Some r.
Proof.
  unfold load_vertex_row, store_vertex_row, shard_vertex_data.
  intros [r0 Hr0]. destruct (mem !! p.1) as [s|] eqn:Hs; [|done].
  simpl in Hr0. rewrite list_lookup_alter_eq, Hs. simpl.
  apply list_lookup_insert_eq. by eapply lookup_lt_Some.
Qed.

Lemma store_load_vertex_row mem p r :
  load_vertex_row mem p = Some r → store_vertex_row mem p r = mem.
Proof.
  unfold load_vertex_row, store_vertex_row, shard_vertex_data.
  intros Hr. destruct (mem !! p.1) as [s|] eqn:Hs; [|done]. simpl in Hr.
  apply list_eq. intros k. destruct (decide (k = p.1)) as [->|Hne].
  - rewrite list_lookup_alter_eq, Hs. simpl. f_equal.
    rewrite list_insert_id by done. by destruct s as [[]].
  - by rewrite list_lookup_alter_ne.
Qed.

Lemma store_store_vertex_row mem p r r' :
  store_vertex_row (store_vertex_row mem p r) p r' = store_vertex_row mem p r'.
Proof.
  unfold store_vertex_row. rewrite list_alter_alter_eq.
  apply list_alter_ext; [|done]. intros s _. simpl.
  by rewrite list_insert_insert_eq.
Qed.

Lemma store_load_edge_row mem p r :
  load_edge_row mem p = Some r → store_edge_row mem p r = mem.
Proof.
  unfold load_edge_row, store_edge_row, shard_edge_data.
  intros Hr. destruct (mem !! p.1) as [s|] eqn:Hs; [|done]. simpl in Hr.
  apply list_eq. intros k. destruct (decide (k = p.1)) as [->|Hne].
  - rewrite list_lookup_alter_eq, Hs. simpl. f_equal.
    rewrite list_insert_id by done. by destruct s as [[]].
  - by rewrite list_lookup_alter_ne.
Qed.

Lemma load_store_edge_row mem p q r :
  is_Some (load_edge_row mem p) →
  load_edge_row (store_edge_row mem p r) q =
  if decide (p = q) then Some r else load_edge_row mem q.
Proof.
  unfold load_edge_row, store_edge_row, shard_edge_data.
  intros [r0 Hr0]. destruct (mem !! p.1) as [s|] eqn:Hs; [|done].
  simpl in Hr0. destruct p as [k i], q as [k' i']. simpl in *.
  destruct (decide (k = k')) as [<-|Hk].
  - rewrite list_lookup_alter_eq, Hs. simpl.
    destruct (decide (i = i')) as [<-|Hi].
    + rewrite decide_True by done.
      apply list_lookup_insert_eq. by eapply lookup_lt_Some.
    + rewrite decide_False by congruence.
      by rewrite list_lookup_insert_ne.
  - rewrite list_lookup_alter_ne by done.
    by rewrite decide_False by congruence.
Qed.

(** The loop over the fields of a local edge row without modified fields
    leaves both rows as they are. *)
Lemma commit_edge_fields_clean local origin :
  (∀ v, v ∈ _data local → get_modified v = false) →
  for_loopM (num_fields local) graph_database_sharedmem.commit_edge_field
    (local, origin) = Some (local, origin).
Proof.
  intros Hclean. apply for_loopM_skip. intros j Hj.
  unfold graph_database_sharedmem.commit_edge_field, get_field.
  destruct (lookup_lt_is_Some_2 (_data local) j Hj) as [v Hv].
  rewrite Hv. simpl. rewrite Hclean; [done|].
  by eapply list_elem_of_lookup_2.
Qed.

(** The loop over the fields of a local edge row whose only modified field
    is [j]. *)
Lemma commit_edge_fields_single local origin j val :
  get_field local j = Some val →
  get_modified val = true →
  (∀ j' v, get_field local j' = Some v → get_modified v = true → j' = j) →
  is_Some (get_field origin j) →
  for_loopM (num_fields local) graph_database_sharedmem.commit_edge_field
    (local, origin) =
  Some (set_field local j (post_commit_state val),
        set_field origin j (value_deepcopy (post_commit_state val))).
Proof.
  intros Hval Hmod Honly [o Ho].
  assert (Hclean : ∀ j' v, j' ≠ j → get_field local j' = Some v →
            get_modified v = false).
  { intros j' v Hne Hv. destruct (get_modified v) eqn:Hm; [|done].
    by destruct Hne; eapply Honly. }
  apply (for_loopM_single _ _ _ j).
  - by eapply lookup_lt_Some.
  - intros j' Hj'. unfold graph_database_sharedmem.commit_edge_field.
    destruct (lookup_lt_is_Some_2 (_data local) j') as [v Hv].
    { apply lookup_lt_Some in Hval. lia. }
    change (get_field local j' = Some v) in Hv. rewrite Hv. simpl.
    rewrite (Hclean j' v); [done|lia|done].
  - unfold graph_database_sharedmem.commit_edge_field.
    rewrite Hval. simpl. rewrite Hmod, Ho. done.
  - intros j' Hj'. unfold graph_database_sharedmem.commit_edge_field.
    unfold num_fields in Hj'.
    destruct (lookup_lt_is_Some_2 (_data local) j') as [v Hv]; [lia|].
    assert (Hv' : get_field (set_field local j (post_commit_state val)) j'
                  = Some v).
    { unfold get_field, set_field. simpl.
      by rewrite list_lookup_insert_ne by lia. }
    rewrite Hv'. simpl.
    rewrite (Hclean j' v); [done|lia|done].
Qed.

Lemma load_vertex_row_store_edge_row mem p q r :
  load_vertex_row (store_edge_row mem p r) q = load_vertex_row mem q.
Proof.
  unfold load_vertex_row, store_edge_row, shard_vertex_data.
  destruct (decide (p.1 = q.1)) as [Heq|Hne].
  - rewrite <- Heq, list_lookup_alter_eq. by destruct (mem !! p.1).
  - by rewrite list_lookup_alter_ne.
Qed.

(** *** Shard arrays that differ in row contents only *)

Lemma same_skeleton_refl mem : same_skeleton mem mem.
Proof. split; [done|]. intros k s Hs. by exists s. Qed.

Lemma same_skeleton_trans mem1 mem2 mem3 :
  same_skeleton mem1 mem2 → same_skeleton mem2 mem3 →
  same_skeleton mem1 mem3.
Proof.
  intros [Hlen12 H12] [Hlen23 H23]. split; [congruence|].
  intros k s1 Hs1. destruct (H12 k s1 Hs1) as (s2 & Hs2 & ? & ? & ? & ?).
  destruct (H23 k s2 Hs2) as (s3 & Hs3 & ? & ? & ? & ?).
  exists s3. split_and!; congruence.
Qed.

Lemma same_skeleton_alter mem k (f : graph_shard → graph_shard) :
  (∀ s, vertex (shard_impl (f s)) = vertex (shard_impl s) ∧
        edge (shard_impl (f s)) = edge (shard_impl s) ∧
        length (vertex_data (shard_impl (f s))) =
          length (vertex_data (shard_impl s)) ∧
        length (edge_data (shard_impl (f s))) =
          length (edge_data (shard_impl s))) →
  same_skeleton mem (alter f k mem).
Proof.
  intros Hf. split; [apply length_alter|]. intros k' s Hs.
  destruct (decide (k = k')) as [->|Hne].
  - exists (f s). rewrite list_lookup_alter_eq, Hs. split; [done|apply Hf].
  - exists s. by rewrite list_lookup_alter_ne.
Qed.

Lemma same_skeleton_store_vertex_row mem p r :
  same_skeleton mem (store_vertex_row mem p r).
Proof.
  apply same_skeleton_alter. intros s. simpl. by rewrite length_insert.
Qed.

Lemma same_skeleton_store_edge_row mem p r :
  same_skeleton mem (store_edge_row mem p r).
Proof.
  apply same_skeleton_alter. intros s. simpl. by rewrite length_insert.
Qed.

End RowProperties.

(** ** The handles *)
Section Handles.
Context `{RS : RowStore}.

(** C6: write_changes on a vertex handle is idempotent.  For a handle whose
    row pointer is live, the first call succeeds and leaves no field of the
    row marked modified, and a second call returns the same memory. *)
Theorem write_changes_idempotent (h : graph_vertex_sharedmem.t)
    (mem : list graph_shard) :
  is_Some (load_vertex_row mem (graph_vertex_sharedmem.data h)) →
  ∃ mem1 row,
    graph_vertex_sharedmem.write_changes h mem = Some mem1 ∧
    load_vertex_row mem1 (graph_vertex_sharedmem.data h) = Some row ∧
    (∀ v, v ∈ _data row → get_modified v = false) ∧
    graph_vertex_sharedmem.write_changes h mem1 = Some mem1.
Proof.
  unfold graph_vertex_sharedmem.data. intros [row0 Hrow0].
  set (row1 := for_loop (num_fields row0) commit_field row0).
  exists (store_vertex_row mem (graph_vertex_sharedmem.vdata h) row1), row1.
  assert (Hload : load_vertex_row
            (store_vertex_row mem (graph_vertex_sharedmem.vdata h) row1)
            (graph_vertex_sharedmem.vdata h) = Some row1).
  { apply load_store_vertex_row. by exists row0. }
  assert (Hclean : ∀ v, v ∈ _data row1 → get_modified v = false).
  { intros v. apply commit_clears. }
  split_and!; [|done|done|].
  - unfold graph_vertex_sharedmem.write_changes. by rewrite Hrow0.
  - unfold graph_vertex_sharedmem.write_changes. rewrite Hload. simpl.
    rewrite commit_unmodified by done.
    by rewrite store_store_vertex_row.
Qed.

End Handles.

(** ** The database *)
Section DatabaseProperties.
Context `{RS : RowStore}.
Context (vid_hash : graph_vid_t → nat).
Context (edge_hash : graph_vid_t * graph_vid_t → nat).
Context (npos : N).

Local Abbreviation database := graph_database_sharedmem.t.
Local Abbreviation shards := graph_database_sharedmem.shards.
Local Abbreviation vertex_store := graph_database_sharedmem.vertex_store.
Local Abbreviation vertex_index := graph_database_sharedmem.vertex_index.
Local Abbreviation edge_index := graph_database_sharedmem.edge_index.
Local Abbreviation vid2master := graph_database_sharedmem.vid2master.
Local Abbreviation vid2mirrors := graph_database_sharedmem.vid2mirrors.
Local Abbreviation _num_edges := graph_database_sharedmem._num_edges.
Local Abbreviation _num_shards := graph_database_sharedmem._num_shards.
Local Abbreviation num_shards := graph_database_sharedmem.num_shards.
Local Abbreviation num_edges := graph_database_sharedmem.num_edges.
Local Abbreviation num_vertices := graph_database_sharedmem.num_vertices.
Local Abbreviation create := graph_database_sharedmem.create.
Local Abbreviation is_vertex := graph_database_sharedmem.is_vertex.
Local Abbreviation master_of := graph_database_sharedmem.master_of.
Local Abbreviation mirrors_of := graph_database_sharedmem.mirrors_of.
Local Abbreviation adjacency := graph_database_sharedmem.adjacency.
Local Abbreviation wf := (graph_database_sharedmem.wf vid_hash).
Local Abbreviation add_vertex := (graph_database_sharedmem.add_vertex vid_hash).
Local Abbreviation add_mirror := graph_database_sharedmem.add_mirror.
Local Abbreviation add_edge :=
  (graph_database_sharedmem.add_edge vid_hash edge_hash).
Local Abbreviation get_master := graph_database_sharedmem.get_master.
Local Abbreviation get_vertex := (graph_database_sharedmem.get_vertex npos).
Local Abbreviation get_shard_contents_adj_to :=
  graph_database_sharedmem.get_shard_contents_adj_to.
Local Abbreviation commit_shard := graph_database_sharedmem.commit_shard.
Local Abbreviation step :=
  (graph_database_sharedmem.step vid_hash edge_hash npos).
Local Abbreviation run := (graph_database_sharedmem.run vid_hash edge_hash npos).
Local Abbreviation adds := graph_database_sharedmem.adds.
Local Abbreviation counters_agree := graph_database_sharedmem.counters_agree.

Implicit Types (db : database) (v : N) (k : nat).

(** *** Subscripts *)

Lemma subscript_fst {V} `{Inhabited V} (m : gmap N V) v :
  (subscript m v).1 = default inhabitant (m !! v).
Proof. unfold subscript. by destruct (m !! v). Qed.

Lemma subscript_snd_default {V} `{Inhabited V} (m : gmap N V) v w :
  default inhabitant ((subscript m v).2 !! w) = default inhabitant (m !! w).
Proof.
  unfold subscript. destruct (m !! v) eqn:Hv; [done|]. simpl.
  destruct (decide (v = w)) as [->|Hne].
  - by rewrite lookup_insert_eq, Hv.
  - by rewrite lookup_insert_ne.
Qed.

Lemma subscript_snd_Some {V} `{Inhabited V} (m : gmap N V) v w x :
  m !! w = Some x → (subscript m v).2 !! w = Some x.
Proof.
  intros Hw. unfold subscript. destruct (m !! v) eqn:Hv; [done|]. simpl.
  rewrite lookup_insert_ne; [done|]. intros ->. congruence.
Qed.

Lemma subscript_snd_eq {V} `{Inhabited V} (m : gmap N V) v :
  (subscript m v).2 !! v = Some (subscript m v).1.
Proof.
  unfold subscript. destruct (m !! v) eqn:Hv; [done|]. simpl.
  by rewrite lookup_insert_eq.
Qed.

(** *** The vertex index *)

Lemma is_vertex_lookup db v :
  is_vertex db v ↔
  is_Some (graph_vertex_index.index_map (vertex_index db) !! v).
Proof.
  unfold graph_database_sharedmem.is_vertex, graph_vertex_index.has_vertex.
  by rewrite bool_decide_eq_true.
Qed.

Lemma not_is_vertex_lookup db v :
  ¬ is_vertex db v ↔
  graph_vertex_index.index_map (vertex_index db) !! v = None.
Proof. rewrite is_vertex_lookup. by rewrite eq_None_not_Some. Qed.

Lemma has_vertex_false db v :
  ¬ is_vertex db v →
  graph_vertex_index.has_vertex (vertex_index db) v = false.
Proof.
  unfold graph_database_sharedmem.is_vertex.
  by destruct (graph_vertex_index.has_vertex _ _).
Qed.

(** *** The constructor *)

Lemma create_shards vertex_fields edge_fields numshards :
  shards (create vertex_fields edge_fields numshards) =
  (λ i, mk_graph_shard (empty_shard_impl i)) <$> seq 0 numshards.
Proof.
  simpl. set (n := numshards).
  cut (∀ i, i ≤ n →
    for_loop i
      (λ i sh, alter (λ s,
         mk_graph_shard (impl_set_shard_id (shard_impl s) i)) i sh)
      (replicate n (mk_graph_shard (empty_shard_impl 0))) =
    ((λ i, mk_graph_shard (empty_shard_impl i)) <$> seq 0 i) ++
    replicate (n - i) (mk_graph_shard (empty_shard_impl 0))).
  { intros Hcut. rewrite Hcut by done. by rewrite Nat.sub_diag, app_nil_r. }
  induction i as [|i IH]; intros Hi.
  - by rewrite Nat.sub_0_r.
  - rewrite for_loop_S, IH by lia.
    rewrite seq_S, fmap_app. simpl. rewrite <- app_assoc. simpl.
    replace (n - i) with (S (n - S i)) by lia. simpl.
    rewrite alter_app_r_alt by (rewrite length_fmap, length_seq; lia).
    rewrite length_fmap, length_seq, Nat.sub_diag. done.
Qed.

Lemma wf_create vertex_fields edge_fields numshards :
  0 < numshards → wf (create vertex_fields edge_fields numshards).
Proof.
  intros Hn. split.
  - done.
  - by rewrite create_shards, length_fmap, length_seq.
  - simpl. by rewrite length_replicate.
  - intros k s. rewrite create_shards, list_lookup_fmap.
    destruct (seq 0 numshards !! k); [|done]. by intros [= <-].
  - intros v Hv. apply is_vertex_lookup in Hv. simpl in Hv.
    rewrite lookup_empty in Hv. by destruct Hv.
  - intros v i. simpl. by rewrite lookup_empty.
  - intros v k. unfold graph_database_sharedmem.mirrors_of. simpl.
    rewrite lookup_empty. simpl. set_solver.
  - intros k ei s v p Hei _. simpl in Hei.
    apply lookup_replicate in Hei as [-> _].
    unfold graph_database_sharedmem.adjacency,
      graph_edge_index.get_edge_index. simpl.
    rewrite lookup_empty. simpl. by intros ?%elem_of_nil.
Qed.

(** *** States that hold the same graph *)

Lemma quiet_refl db : graph_database_sharedmem.quiet db db.
Proof. split; try done. apply same_skeleton_refl. Qed.

Lemma quiet_trans db1 db2 db3 :
  graph_database_sharedmem.quiet db1 db2 →
  graph_database_sharedmem.quiet db2 db3 →
  graph_database_sharedmem.quiet db1 db3.
Proof.
  intros [] []. split; try congruence; eauto using same_skeleton_trans.
Qed.

Lemma quiet_set_shards db sh :
  same_skeleton (shards db) sh →
  graph_database_sharedmem.quiet db
    (graph_database_sharedmem.set_shards db sh).
Proof. intros Hsh. by split. Qed.

Lemma quiet_subscript_master db v :
  graph_database_sharedmem.quiet db
    (graph_database_sharedmem.set_vid2master db
       (subscript (vid2master db) v).2).
Proof.
  split; try done; simpl.
  - apply same_skeleton_refl.
  - intros w m. apply subscript_snd_Some.
  - intros w. unfold graph_database_sharedmem.master_of. simpl.
    exact (subscript_snd_default (vid2master db) v w).
Qed.

Lemma quiet_subscript_mirrors db v :
  graph_database_sharedmem.quiet db
    (graph_database_sharedmem.set_vid2mirrors db
       (subscript (vid2mirrors db) v).2).
Proof.
  split; try done; simpl.
  - apply same_skeleton_refl.
  - intros w. unfold graph_database_sharedmem.mirrors_of. simpl.
    exact (subscript_snd_default (vid2mirrors db) v w).
Qed.

Lemma quiet_is_vertex db db' v :
  graph_database_sharedmem.quiet db db' → is_vertex db' v ↔ is_vertex db v.
Proof.
  intros Hq. unfold graph_database_sharedmem.is_vertex.
  by rewrite (graph_database_sharedmem.quiet_vertex_index _ _ Hq).
Qed.

Lemma wf_quiet db db' :
  wf db → graph_database_sharedmem.quiet db db' → wf db'.
Proof.
  intros Hwf Hq. destruct Hq as [[Hlen Hsk] Hstore Hindex Hei Hne Hns HmS Hm Hmi].
  destruct Hwf as [Hn Hsh Hel Hshape Hmaster Hst Hmirr Hpos].
  assert (Hback : ∀ k s', shards db' !! k = Some s' →
            ∃ s, shards db !! k = Some s ∧
              vertex (shard_impl s') = vertex (shard_impl s) ∧
              edge (shard_impl s') = edge (shard_impl s) ∧
              length (vertex_data (shard_impl s')) =
                length (vertex_data (shard_impl s)) ∧
              length (edge_data (shard_impl s')) =
                length (edge_data (shard_impl s))).
  { intros k s' Hs'. destruct (lookup_lt_is_Some_2 (shards db) k) as [s Hs].
    { rewrite <- Hlen. by eapply lookup_lt_Some. }
    destruct (Hsk k s Hs) as (s1 & Hs1 & ?). exists s.
    split; [done|]. congruence. }
  assert (Hv : ∀ v, is_vertex db' v → is_vertex db v).
  { intros v. unfold graph_database_sharedmem.is_vertex. by rewrite Hindex. }
  split.
  - by rewrite Hns.
  - by rewrite Hlen, Hns.
  - by rewrite Hei, Hns.
  - intros k s' Hs'. destruct (Hback k s' Hs') as (s & Hs & Hvx & He & Hvd & Hed).
    destruct (Hshape k s Hs). split; congruence.
  - intros v Hv'. rewrite Hns. apply HmS. apply Hmaster. by apply Hv.
  - intros v i. rewrite Hindex, Hns, Hstore. intros Hi.
    destruct (Hst v i Hi) as (p & s & Hp & Hs & Hvp).
    destruct (Hsk _ s Hs) as (s' & Hs' & Hvx & _).
    exists p, s'. split_and!; [done|done|]. by rewrite Hvx.
  - intros v k. rewrite Hmi, Hns. intros Hk.
    destruct (Hmirr v k Hk) as [Hvv Hne']. split; [|done].
    unfold graph_database_sharedmem.is_vertex. by rewrite Hindex.
  - intros k ei s' v p. rewrite Hei. intros Hk Hs' Hp.
    destruct (Hback k s' Hs') as (s & Hs & _ & He & _).
    rewrite He. by eapply Hpos.
Qed.

(** *** add_vertex *)

Lemma add_vertex_known db v data :
  is_vertex db v → add_vertex db v data = Some (false, db).
Proof.
  unfold graph_database_sharedmem.is_vertex,
    graph_database_sharedmem.add_vertex. by intros ->.
Qed.

(** The state after the insertion of a new vertex, field by field. *)
Lemma add_vertex_new db v data :
  wf db → ¬ is_vertex db v →
  let master := vid_hash v mod _num_shards db in
  let row := set_is_vertex true
               (default (new_graph_row
                  (graph_database_sharedmem.vertex_fields db)) data) in
  ∃ s, shards db !! master = Some s ∧
    add_vertex db v data = Some (true,
      graph_database_sharedmem.mk
        (graph_database_sharedmem.vertex_fields db)
        (graph_database_sharedmem.edge_fields db)
        (<[master := mk_graph_shard
                       (impl_add_vertex (shard_impl s) v row).2]> (shards db))
        (vertex_store db ++ [(master, length (vertex (shard_impl s)))])
        (graph_vertex_index.add_vertex (vertex_index db) v row
           (length (vertex_store db)))
        (edge_index db)
        (<[v := master]> (vid2master db))
        (vid2mirrors db)
        (_num_edges db) (_num_shards db)).
Proof.
  intros Hwf Hv master row.
  pose proof (graph_database_sharedmem.wf_num_shards _ _ Hwf) as Hn.
  destruct (lookup_lt_is_Some_2 (shards db) master) as [s Hs].
  { rewrite (graph_database_sharedmem.wf_shards _ _ Hwf).
    apply Nat.mod_upper_bound. lia. }
  exists s. split; [done|].
  unfold graph_database_sharedmem.add_vertex.
  rewrite has_vertex_false by done.
  unfold graph_database_sharedmem.num_shards.
  rewrite bool_decide_eq_false_2 by lia.
  fold master. rewrite Hs. simpl.
  unfold graph_database_sharedmem.set_vertex_index,
    graph_database_sharedmem.set_vertex_store,
    graph_database_sharedmem.set_vid2master,
    graph_database_sharedmem.set_shards. simpl.
  do 4 f_equal. rewrite length_app. simpl. lia.
Qed.

Lemma wf_add_vertex db v data b db' :
  wf db → add_vertex db v data = Some (b, db') → wf db'.
Proof.
  intros Hwf Hadd. destruct (decide (is_vertex db v)) as [Hv|Hv].
  { rewrite add_vertex_known in Hadd by done. by injection Hadd as <- <-. }
  destruct (add_vertex_new db v data Hwf Hv) as (s & Hs & Heq).
  rewrite Heq in Hadd. injection Hadd as <- <-. clear Heq.
  set (master := vid_hash v mod _num_shards db) in *.
  destruct Hwf as [Hn Hsh Hel Hshape Hmaster Hst Hmirr Hpos].
  assert (Hiv : ∀ w db2,
    graph_vertex_index.index_map (vertex_index db2) =
      <[v := length (vertex_store db)]>
        (graph_vertex_index.index_map (vertex_index db)) →
    is_vertex db2 w → w = v ∨ is_vertex db w).
  { intros w db2 Hidx. rewrite !is_vertex_lookup, Hidx.
    destruct (decide (v = w)) as [->|Hne]; [by left|].
    rewrite lookup_insert_ne by done. by right. }
  split; simpl.
  - done.
  - by rewrite length_insert.
  - done.
  - intros k s'. destruct (decide (master = k)) as [<-|Hne].
    + rewrite list_lookup_insert_eq by (by eapply lookup_lt_Some).
      intros [= <-]. simpl. destruct (Hshape _ _ Hs) as [Hvd Hed].
      rewrite !length_app, Hvd. simpl. done.
    + rewrite list_lookup_insert_ne by done. apply Hshape.
  - intros w Hw. apply Hiv in Hw; [|done]. destruct Hw as [->|Hw].
    + by rewrite lookup_insert_eq.
    + rewrite lookup_insert_ne; [by apply Hmaster|]. by intros ->.
  - intros w i. destruct (decide (v = w)) as [<-|Hne].
    + rewrite lookup_insert_eq. intros [= <-].
      eexists _, _. split_and!.
      * rewrite lookup_app_r by done. by rewrite Nat.sub_diag.
      * apply list_lookup_insert_eq. by eapply lookup_lt_Some.
      * simpl. rewrite lookup_app_r by done. by rewrite Nat.sub_diag.
    + rewrite lookup_insert_ne by done. intros Hi.
      destruct (Hst w i Hi) as (p & s0 & Hp & Hs0 & Hvp).
      destruct (decide (master = vid_hash w mod _num_shards db)) as [Heq|Hneq].
      * rewrite <- Heq in *. eexists p, _. split_and!.
        -- by apply lookup_app_l_Some.
        -- apply list_lookup_insert_eq. by eapply lookup_lt_Some.
        -- simpl. apply lookup_app_l_Some. congruence.
      * exists p, s0. split_and!; [by apply lookup_app_l_Some| |done].
        by rewrite list_lookup_insert_ne.
  - intros w k Hk. destruct (Hmirr w k Hk) as [Hw Hne]. split; [|done].
    apply is_vertex_lookup. simpl. apply is_vertex_lookup in Hw.
    destruct (decide (v = w)) as [->|Hvw].
    + rewrite lookup_insert_eq. by eexists.
    + by rewrite lookup_insert_ne.
  - intros k ei s' w p Hei Hs' Hp.
    destruct (decide (master = k)) as [<-|Hne].
    + rewrite list_lookup_insert_eq in Hs' by (by eapply lookup_lt_Some).
      injection Hs' as <-. simpl. by eapply Hpos.
    + rewrite list_lookup_insert_ne in Hs' by done. by eapply Hpos.
Qed.

Lemma add_vertex_effect db v data b db' :
  add_vertex db v data = Some (b, db') →
  (∀ w, is_vertex db' w ↔ is_vertex db w ∨ (w = v ∧ b = true)) ∧
  (b = true ↔ ¬ is_vertex db v) ∧
  (∀ w, mirrors_of db' w = mirrors_of db w) ∧
  (∀ w, is_vertex db w → master_of db' w = master_of db w) ∧
  (b = true → master_of db' v = vid_hash v mod _num_shards db) ∧
  _num_edges db' = _num_edges db ∧
  _num_shards db' = _num_shards db ∧
  edge_index db' = edge_index db ∧
  length (vertex_store db') = length (vertex_store db) + (if b then 1 else 0) ∧
  length (shards db') = length (shards db) ∧
  (∀ k s, shards db !! k = Some s →
     ∃ s', shards db' !! k = Some s' ∧
       edge (shard_impl s') = edge (shard_impl s) ∧
       edge_data (shard_impl s') = edge_data (shard_impl s)).
Proof.
  intros Hadd. destruct (decide (is_vertex db v)) as [Hv|Hv].
  { rewrite add_vertex_known in Hadd by done. injection Hadd as <- <-.
    split_and!; try done; try naive_solver; lia. }
  unfold graph_database_sharedmem.add_vertex in Hadd.
  rewrite has_vertex_false in Hadd by done.
  case_bool_decide; [done|].
  set (master := vid_hash v mod _num_shards db) in *.
  unfold graph_database_sharedmem.num_shards in Hadd. fold master in Hadd.
  destruct (shards db !! master) as [s|] eqn:Hs; [|done].
  simpl in Hadd. injection Hadd as <- <-.
  split_and!; simpl; try done.
  - intros w. rewrite !is_vertex_lookup. simpl.
    destruct (decide (v = w)) as [->|Hne].
    + rewrite lookup_insert_eq. split; [by right|by eexists].
    + rewrite lookup_insert_ne by done. naive_solver.
  - intros w Hw. unfold graph_database_sharedmem.master_of. simpl.
    rewrite lookup_insert_ne; [done|]. by intros ->.
  - intros _. unfold graph_database_sharedmem.master_of. simpl.
    by rewrite lookup_insert_eq.
  - rewrite length_app. simpl. lia.
  - by rewrite length_insert.
  - intros k s0 Hs0. destruct (decide (master = k)) as [<-|Hne].
    + eexists. rewrite list_lookup_insert_eq by (by eapply lookup_lt_Some).
      split; [done|]. simpl. assert (s0 = s) as -> by congruence. done.
    + exists s0. by rewrite list_lookup_insert_ne.
Qed.

(** *** add_edge, part by part *)

Lemma ensure_vertex_effect db v db' :
  graph_database_sharedmem.ensure_vertex vid_hash db v = Some db' →
  is_vertex db' v ∧
  (∀ w, is_vertex db' w ↔ is_vertex db w ∨ w = v) ∧
  (∀ w, mirrors_of db' w = mirrors_of db w) ∧
  (∀ w, is_vertex db w → master_of db' w = master_of db w) ∧
  (¬ is_vertex db v → master_of db' v = vid_hash v mod _num_shards db) ∧
  _num_edges db' = _num_edges db ∧
  _num_shards db' = _num_shards db ∧
  edge_index db' = edge_index db ∧
  length (shards db') = length (shards db) ∧
  (∀ k s, shards db !! k = Some s →
     ∃ s', shards db' !! k = Some s' ∧
       edge (shard_impl s') = edge (shard_impl s) ∧
       edge_data (shard_impl s') = edge_data (shard_impl s)).
Proof.
  unfold graph_database_sharedmem.ensure_vertex.
  destruct (graph_vertex_index.has_vertex (vertex_index db) v) eqn:Hv.
  - intros [= <-]. split_and!; try done; try naive_solver.
  - intros Hadd. apply fmap_Some in Hadd as ([b db2] & Hadd & ->). simpl.
    apply add_vertex_effect in Hadd
      as (Hiv & Hb & Hmi & Hma & Hmv & Hne & Hns & Hei & _ & Hlen & Hsh).
    assert (b = true) as ->.
    { apply Hb. unfold graph_database_sharedmem.is_vertex. by rewrite Hv. }
    split_and!; try done.
    + apply Hiv. by right.
    + intros w. rewrite Hiv. naive_solver.
    + auto.
Qed.

Lemma wf_ensure_vertex db v db' :
  wf db → graph_database_sharedmem.ensure_vertex vid_hash db v = Some db' →
  wf db'.
Proof.
  unfold graph_database_sharedmem.ensure_vertex. intros Hwf.
  destruct (graph_vertex_index.has_vertex (vertex_index db) v).
  - by intros [= <-].
  - intros Hadd. apply fmap_Some in Hadd as ([b db2] & Hadd & ->).
    by eapply wf_add_vertex.
Qed.

Lemma ensure_vertex_total db v :
  wf db →
  ∃ db', graph_database_sharedmem.ensure_vertex vid_hash db v = Some db'.
Proof.
  intros Hwf. unfold graph_database_sharedmem.ensure_vertex.
  destruct (graph_vertex_index.has_vertex (vertex_index db) v) eqn:Hv;
    [by eexists|].
  destruct (add_vertex_new db v None Hwf) as (s & _ & ->); [|by eexists].
  unfold graph_database_sharedmem.is_vertex. by rewrite Hv.
Qed.

Lemma add_mirror_effect db v k :
  let db' := add_mirror db v k in
  shards db' = shards db ∧
  vertex_store db' = vertex_store db ∧
  vertex_index db' = vertex_index db ∧
  edge_index db' = edge_index db ∧
  _num_edges db' = _num_edges db ∧
  _num_shards db' = _num_shards db ∧
  (∀ w m, vid2master db !! w = Some m → vid2master db' !! w = Some m) ∧
  (∀ w, master_of db' w = master_of db w) ∧
  (∀ w, mirrors_of db' w =
        if bool_decide (w = v ∧ master_of db v ≠ k)
        then mirrors_of db w ∪ {[k]} else mirrors_of db w).
Proof.
  unfold graph_database_sharedmem.add_mirror.
  destruct (subscript (vid2master db) v) as [m m1] eqn:Hsub.
  assert (Hm : m = master_of db v).
  { change m with (m, m1).1. rewrite <- Hsub.
    exact (subscript_fst (vid2master db) v). }
  assert (Hm1 : m1 = (subscript (vid2master db) v).2) by by rewrite Hsub.
  pose proof (quiet_subscript_master db v) as Hq1. rewrite <- Hm1 in Hq1.
  destruct Hq1 as [_ _ _ _ _ _ HmS Hmo _]. simpl in HmS.
  assert (Hmo' : ∀ w, default 0 (m1 !! w) = master_of db w) by apply Hmo.
  case_bool_decide as Hmk; simpl.
  2:{ split_and!; try done. intros w. rewrite bool_decide_eq_false_2; [done|].
      intros [_ ?]. congruence. }
  destruct (subscript (vid2mirrors db) v) as [ms ms1] eqn:Hsub2.
  assert (Hms : ms = mirrors_of db v).
  { change ms with (ms, ms1).1. rewrite <- Hsub2.
    exact (subscript_fst (vid2mirrors db) v). }
  assert (Hms1 : ∀ w, default ∅ (ms1 !! w) = mirrors_of db w).
  { intros w. change ms1 with (ms, ms1).2. rewrite <- Hsub2.
    exact (subscript_snd_default (vid2mirrors db) v w). }
  case_bool_decide as Hin; simpl; (split_and!; try done).
  - intros w. unfold graph_database_sharedmem.mirrors_of at 1. simpl.
    destruct (decide (v = w)) as [<-|Hne].
    + rewrite lookup_insert_eq. simpl. rewrite bool_decide_eq_true_2; [by subst|].
      split; [done|congruence].
    + rewrite lookup_insert_ne by done. rewrite Hms1.
      rewrite bool_decide_eq_false_2; [done|]. by intros [-> _].
  - intros w. unfold graph_database_sharedmem.mirrors_of at 1. simpl.
    rewrite Hms1. case_bool_decide as Hw; [|done].
    destruct Hw as [-> _]. set_solver.
Qed.

Lemma wf_add_mirror db v k :
  wf db → is_vertex db v → wf (add_mirror db v k).
Proof.
  intros Hwf Hv.
  destruct (add_mirror_effect db v k)
    as (Hsh & Hst & Hidx & Hei & Hne & Hns & HmS & Hmo & Hmi).
  destruct Hwf as [Hn Hshl Hel Hshape Hmaster Hstore Hmirr Hpos].
  assert (Hiv : ∀ w, is_vertex (add_mirror db v k) w ↔ is_vertex db w).
  { intros w. unfold graph_database_sharedmem.is_vertex. by rewrite Hidx. }
  split.
  - by rewrite Hns.
  - by rewrite Hsh, Hns.
  - by rewrite Hei, Hns.
  - rewrite Hsh. apply Hshape.
  - intros w Hw. rewrite Hns. apply HmS, Hmaster. by apply Hiv.
  - rewrite Hidx, Hst, Hsh, Hns. apply Hstore.
  - intros w k'. rewrite Hmi, Hiv, Hns. case_bool_decide as Hw.
    + destruct Hw as [Hwv Hmk]. subst w.
      rewrite elem_of_union, elem_of_singleton.
      intros [Hk'| ->]; [by apply Hmirr|]. split; [done|].
      unfold graph_database_sharedmem.master_of in Hmk.
      by rewrite (Hmaster v Hv) in Hmk.
    + apply Hmirr.
  - rewrite Hei, Hsh. apply Hpos.
Qed.

Lemma get_edge_index_add_edge ei source target pos v :
  graph_edge_index.get_edge_index
    (graph_edge_index.add_edge ei source target pos) true true v =
  ((graph_edge_index.get_edge_index ei true true v).1 ++
     (if decide (v = target) then [pos] else []),
   (graph_edge_index.get_edge_index ei true true v).2 ++
     (if decide (v = source) then [pos] else [])).
Proof.
  unfold graph_edge_index.get_edge_index, graph_edge_index.add_edge,
    graph_edge_index.add_in, graph_edge_index.add_out. simpl.
  destruct (decide (v = target)) as [Ht|Ht];
    destruct (decide (v = source)) as [Hs|Hs]; subst;
    rewrite ?lookup_insert_eq, ?lookup_insert_ne by done; simpl;
    rewrite ?lookup_insert_eq, ?lookup_insert_ne by done; simpl;
    by rewrite ?app_nil_r.
Qed.

Lemma adjacency_add_edge ei source target pos v p :
  p ∈ adjacency (graph_edge_index.add_edge ei source target pos) v →
  p ∈ adjacency ei v ∨ p = pos.
Proof.
  unfold graph_database_sharedmem.adjacency.
  rewrite get_edge_index_add_edge. simpl.
  rewrite !elem_of_app. repeat case_decide; set_solver.
Qed.

(** The state after the first part of add_edge, field by field. *)
Lemma store_edge_total db k source target row :
  wf db → k < _num_shards db →
  ∃ s ei, shards db !! k = Some s ∧ edge_index db !! k = Some ei ∧
    graph_database_sharedmem.store_edge db k source target row = Some
      (graph_database_sharedmem.mk
        (graph_database_sharedmem.vertex_fields db)
        (graph_database_sharedmem.edge_fields db)
        (<[k := mk_graph_shard
                  (impl_add_edge (shard_impl s) source target row).2]>
           (shards db))
        (vertex_store db) (vertex_index db)
        (<[k := graph_edge_index.add_edge ei source target
                  (length (edge (shard_impl s)))]> (edge_index db))
        (vid2master db) (vid2mirrors db)
        ((_num_edges db + 1) mod SIZE_MOD)%N (_num_shards db)).
Proof.
  intros Hwf Hk.
  destruct (lookup_lt_is_Some_2 (shards db) k) as [s Hs].
  { by rewrite (graph_database_sharedmem.wf_shards _ _ Hwf). }
  destruct (lookup_lt_is_Some_2 (edge_index db) k) as [ei Hei].
  { by rewrite (graph_database_sharedmem.wf_edge_index _ _ Hwf). }
  exists s, ei. split_and!; [done|done|].
  unfold graph_database_sharedmem.store_edge. rewrite Hs. simpl.
  by rewrite Hei.
Qed.

Lemma wf_store_edge db k source target row db' :
  wf db → k < _num_shards db →
  graph_database_sharedmem.store_edge db k source target row = Some db' →
  wf db'.
Proof.
  intros Hwf Hk Hstore.
  destruct (store_edge_total db k source target row Hwf Hk)
    as (s & ei & Hs & Hei & Heq).
  rewrite Heq in Hstore. injection Hstore as <-. clear Heq.
  destruct Hwf as [Hn Hsh Hel Hshape Hmaster Hst Hmirr Hpos].
  assert (Hks : k < length (shards db)) by (by eapply lookup_lt_Some).
  split; simpl.
  - done.
  - by rewrite length_insert.
  - by rewrite length_insert.
  - intros k' s'. destruct (decide (k = k')) as [<-|Hne].
    + rewrite list_lookup_insert_eq by done. intros [= <-]. simpl.
      destruct (Hshape _ _ Hs) as [Hvd Hed].
      by rewrite !length_app, Hed.
    + rewrite list_lookup_insert_ne by done. apply Hshape.
  - apply Hmaster.
  - intros v i Hi. destruct (Hst v i Hi) as (p & s0 & Hp & Hs0 & Hvp).
    destruct (decide (k = vid_hash v mod _num_shards db)) as [Heq|Hne].
    + rewrite <- Heq in *. eexists p, _. split_and!; [done| |].
      * by apply list_lookup_insert_eq.
      * simpl. congruence.
    + exists p, s0. by rewrite list_lookup_insert_ne.
  - apply Hmirr.
  - intros k' ei' s' v p. destruct (decide (k = k')) as [<-|Hne].
    + rewrite !list_lookup_insert_eq
        by (done || by eapply lookup_lt_Some).
      intros [= <-] [= <-] Hp. simpl. rewrite length_app. simpl.
      apply adjacency_add_edge in Hp as [Hp| ->]; [|lia].
      specialize (Hpos k ei s v p Hei Hs Hp). lia.
    + rewrite !list_lookup_insert_ne by done. apply Hpos.
Qed.

Lemma store_edge_effect db k source target row db' :
  graph_database_sharedmem.store_edge db k source target row = Some db' →
  vertex_store db' = vertex_store db ∧
  vertex_index db' = vertex_index db ∧
  vid2master db' = vid2master db ∧
  vid2mirrors db' = vid2mirrors db ∧
  _num_shards db' = _num_shards db.
Proof.
  unfold graph_database_sharedmem.store_edge. intros Hst.
  apply bind_Some in Hst as (s & Hs & Hst). simpl in Hst.
  apply bind_Some in Hst as (ei & Hei & Hst). by injection Hst as <-.
Qed.

Lemma add_edge_Some db source target data db' :
  add_edge db source target data = Some db' →
  let shardid := edge_hash (source, target) mod num_shards db in
  let row := set_is_vertex false
               (default (new_graph_row
                  (graph_database_sharedmem.edge_fields db)) data) in
  ∃ db1 db2 db3,
    graph_database_sharedmem.store_edge db shardid source target row
      = Some db1 ∧
    graph_database_sharedmem.ensure_vertex vid_hash db1 source = Some db2 ∧
    graph_database_sharedmem.ensure_vertex vid_hash db2 target = Some db3 ∧
    db' = add_mirror (add_mirror db3 source shardid) target shardid.
Proof.
  unfold graph_database_sharedmem.add_edge. case_bool_decide; [done|].
  intros Hadd. apply bind_Some in Hadd as (db1 & H1 & Hadd).
  apply bind_Some in Hadd as (db2 & H2 & Hadd).
  apply bind_Some in Hadd as (db3 & H3 & Hadd).
  injection Hadd as <-. by exists db1, db2, db3.
Qed.

Lemma add_edge_total db source target data :
  wf db → ∃ db', add_edge db source target data = Some db' ∧ wf db'.
Proof.
  intros Hwf.
  pose proof (graph_database_sharedmem.wf_num_shards _ _ Hwf) as Hn.
  set (k := edge_hash (source, target) mod num_shards db).
  assert (Hk : k < _num_shards db) by (apply Nat.mod_upper_bound; lia).
  set (row := set_is_vertex false
               (default (new_graph_row
                  (graph_database_sharedmem.edge_fields db)) data)).
  destruct (store_edge_total db k source target row Hwf Hk)
    as (s & ei & _ & _ & H1).
  remember (graph_database_sharedmem.mk _ _ _ _ _ _ _ _ _ _) as db1
    eqn:Hdb1 in H1. clear Hdb1.
  pose proof (wf_store_edge _ _ _ _ _ _ Hwf Hk H1) as Hwf1.
  destruct (ensure_vertex_total _ source Hwf1) as [db2 H2].
  pose proof (wf_ensure_vertex _ _ _ Hwf1 H2) as Hwf2.
  destruct (ensure_vertex_total _ target Hwf2) as [db3 H3].
  pose proof (wf_ensure_vertex _ _ _ Hwf2 H3) as Hwf3.
  destruct (ensure_vertex_effect _ _ _ H2) as (Hs2 & _).
  destruct (ensure_vertex_effect _ _ _ H3) as (Ht3 & Hiv3 & _).
  exists (add_mirror (add_mirror db3 source k) target k). split.
  - unfold graph_database_sharedmem.add_edge.
    rewrite bool_decide_eq_false_2
      by (unfold graph_database_sharedmem.num_shards; lia).
    fold k row. rewrite H1. simpl. rewrite H2. simpl. by rewrite H3.
  - apply wf_add_mirror.
    + apply wf_add_mirror; [done|]. apply Hiv3. by left.
    + destruct (add_mirror_effect db3 source k) as (_ & _ & Hidx & _).
      unfold graph_database_sharedmem.is_vertex. by rewrite Hidx.
Qed.

Lemma wf_add_edge db source target data db' :
  wf db → add_edge db source target data = Some db' → wf db'.
Proof.
  intros Hwf Hadd.
  destruct (add_edge_total db source target data Hwf) as (db2 & Heq & Hwf2).
  congruence.
Qed.

(** *** The calls that leave the graph as it is *)

Lemma quiet_get_master db v :
  graph_database_sharedmem.quiet db (get_master db v).2.
Proof.
  unfold graph_database_sharedmem.get_master.
  pose proof (quiet_subscript_master db v) as Hq.
  by destruct (subscript (vid2master db) v).
Qed.

Lemma quiet_get_vertex db v r db' :
  get_vertex db v = Some (r, db') → graph_database_sharedmem.quiet db db'.
Proof.
  unfold graph_database_sharedmem.get_vertex. case_match.
  { intros [= <- <-]. apply quiet_refl. }
  intros Hget. apply bind_Some in Hget as (row & _ & Hget).
  pose proof (quiet_subscript_master db v) as Hq1.
  destruct (subscript (vid2master db) v) as [m m1]. simpl in Hq1.
  pose proof (quiet_subscript_mirrors
                (graph_database_sharedmem.set_vid2master db m1) v) as Hq2.
  simpl in Hq2. destruct (subscript (vid2mirrors db) v) as [ms ms1].
  injection Hget as <- <-. by eapply quiet_trans.
Qed.

Lemma quiet_write_changes db h mem :
  graph_vertex_sharedmem.write_changes h (shards db) = Some mem →
  graph_database_sharedmem.quiet db
    (graph_database_sharedmem.set_shards db mem).
Proof.
  unfold graph_vertex_sharedmem.write_changes. intros Hw.
  apply bind_Some in Hw as (row & _ & [= <-]).
  apply quiet_set_shards, same_skeleton_store_vertex_row.
Qed.

Lemma quiet_commit_shard db shard db' shard' :
  commit_shard db shard = Some (db', shard') →
  graph_database_sharedmem.quiet db db'.
Proof.
  unfold graph_database_sharedmem.commit_shard. intros Hc.
  apply bind_Some in Hc as (shard1 & _ & Hc).
  eapply (for_loopM_preserves
            (λ st, graph_database_sharedmem.quiet db st.1)) in Hc;
    [done|apply quiet_refl|].
  intros i [dbi shi] [dbj shj] _ Hq Hrow. simpl in *.
  unfold graph_database_sharedmem.commit_edge_row in Hrow.
  apply bind_Some in Hrow as (local & _ & Hrow).
  apply bind_Some in Hrow as (pos & _ & Hrow).
  apply bind_Some in Hrow as (origin & _ & Hrow).
  apply bind_Some in Hrow as ([local' origin'] & _ & Hrow).
  injection Hrow as <- <-. eapply quiet_trans; [done|].
  apply quiet_set_shards, same_skeleton_store_edge_row.
Qed.

Lemma quiet_copy_adjacent a b vids i ret db ret' db' :
  graph_database_sharedmem.copy_adjacent a b vids i (ret, db)
    = Some (ret', db') →
  graph_database_sharedmem.quiet db db' ∧ shards db' = shards db.
Proof.
  unfold graph_database_sharedmem.copy_adjacent. intros Hc.
  apply bind_Some in Hc as (v & _ & Hc).
  assert (Hpass : ∀ pass db1,
    graph_database_sharedmem.quiet db db1 ∧ shards db1 = shards db →
    (if pass : bool
     then ei ← edge_index db1 !! b;
          let '(index_in, index_out) :=
            graph_edge_index.get_edge_index ei true true v in
          ret0 ← for_loopM (length index_in)
                   (graph_database_sharedmem.copy_edge db1 b index_in) ret;
          ret1 ← for_loopM (length index_out)
                   (graph_database_sharedmem.copy_edge db1 b index_out) ret0;
          Some (ret1, db1)
     else Some (ret, db1)) = Some (ret', db') →
    graph_database_sharedmem.quiet db db' ∧ shards db' = shards db).
  { intros [] db1 Hq Hif; [|by injection Hif as <- <-].
    apply bind_Some in Hif as (ei & _ & Hif).
    destruct (graph_edge_index.get_edge_index ei true true v)
      as [index_in index_out].
    apply bind_Some in Hif as (ret0 & _ & Hif).
    apply bind_Some in Hif as (ret1 & _ & Hif). by injection Hif as <- <-. }
  case_bool_decide.
  - apply (Hpass true db); [|exact Hc]. split; [apply quiet_refl|done].
  - pose proof (quiet_subscript_mirrors db v) as Hq.
    destruct (subscript (vid2mirrors db) v) as [ms ms1].
    apply (Hpass (bool_decide (b ∈ ms))
             (graph_database_sharedmem.set_vid2mirrors db ms1));
      [by split|exact Hc].
Qed.

Lemma quiet_get_shard_contents_adj_to db a b d db' :
  get_shard_contents_adj_to db a b = Some (d, db') →
  graph_database_sharedmem.quiet db db' ∧ shards db' = shards db.
Proof.
  unfold graph_database_sharedmem.get_shard_contents_adj_to. intros Hg.
  apply bind_Some in Hg as (src & _ & Hg).
  apply bind_Some in Hg as ([ret dbn] & Hloop & Hg). injection Hg as <- <-.
  eapply (for_loopM_preserves
    (λ st, graph_database_sharedmem.quiet db st.2 ∧
           shards st.2 = shards db)) in Hloop; [done| |].
  - split; [apply quiet_refl|done].
  - intros i [ri dbi] [rj dbj] _ [Hq Hsh] Hstep. simpl in *.
    apply quiet_copy_adjacent in Hstep as [Hq2 Hsh2].
    split; [by eapply quiet_trans|congruence].
Qed.

(** Every operation other than add_vertex and add_edge leaves the graph as
    it is. *)
Lemma step_quiet o db db' :
  step o db = Some db' →
  match o with
  | graph_database_sharedmem.Add_vertex _ _
  | graph_database_sharedmem.Add_edge _ _ _ => True
  | _ => graph_database_sharedmem.quiet db db'
  end.
Proof.
  destruct o; simpl; intros Hstep; try done.
  - injection Hstep as <-. apply quiet_get_master.
  - apply fmap_Some in Hstep as ([r db2] & Hget & ->).
    by eapply quiet_get_vertex.
  - apply fmap_Some in Hstep as ([d db2] & Hget & ->).
    by eapply quiet_get_shard_contents_adj_to.
  - apply fmap_Some in Hstep as ([db2 d] & Hc & ->).
    by eapply quiet_commit_shard.
  - apply fmap_Some in Hstep as (mem & Hw & ->).
    by eapply quiet_write_changes.
  - apply bind_Some in Hstep as (r0 & _ & [= <-]).
    apply quiet_set_shards, same_skeleton_store_vertex_row.
  - apply bind_Some in Hstep as (r0 & _ & [= <-]).
    apply quiet_set_shards, same_skeleton_store_edge_row.
Qed.

Lemma wf_step o db db' : wf db → step o db = Some db' → wf db'.
Proof.
  intros Hwf Hstep. pose proof (step_quiet o db db' Hstep) as Hq.
  destruct o; try (by eapply wf_quiet).
  - simpl in Hstep. apply fmap_Some in Hstep as ([b db2] & Hadd & ->).
    by eapply wf_add_vertex.
  - by eapply wf_add_edge.
Qed.

Lemma run_snoc ops o db :
  run (ops ++ [o]) db = run ops db ≫= step o.
Proof. unfold graph_database_sharedmem.run. by rewrite foldl_app. Qed.

Lemma wf_run ops db db' : wf db → run ops db = Some db' → wf db'.
Proof.
  intros Hwf. revert db'. induction ops as [|o ops IH] using rev_ind.
  - by intros db' [= <-].
  - intros db'. rewrite run_snoc. intros Hrun.
    apply bind_Some in Hrun as (db1 & Hrun & Hstep).
    eapply wf_step; [|done]. by apply IH.
Qed.

(** The invariant holds in every reachable state. *)
Lemma reachable_wf db :
  graph_database_sharedmem.reachable vid_hash edge_hash npos db → wf db.
Proof.
  intros (vf & ef & n & ops & Hn & Hrun).
  eapply wf_run; [|done]. by apply wf_create.
Qed.

(** *** Masters and mirrors along a run *)

Lemma grows_refl db : graph_database_sharedmem.grows db db.
Proof. intros v. split; [done|]. by intros Hv. Qed.

Lemma grows_trans db1 db2 db3 :
  graph_database_sharedmem.grows db1 db2 →
  graph_database_sharedmem.grows db2 db3 →
  graph_database_sharedmem.grows db1 db3.
Proof.
  intros H12 H23 v. destruct (H12 v) as [Hm12 Hv12].
  destruct (H23 v) as [Hm23 Hv23]. split; [set_solver|].
  intros Hv. destruct (Hv12 Hv) as [Hv2 Hma2].
  destruct (Hv23 Hv2) as [Hv3 Hma3]. split; [done|congruence].
Qed.

Lemma quiet_grows db db' :
  graph_database_sharedmem.quiet db db' →
  graph_database_sharedmem.grows db db'.
Proof.
  intros Hq v. pose proof (quiet_is_vertex db db' v Hq) as Hiv.
  destruct Hq as [_ _ _ _ _ _ _ Hmo Hmi].
  rewrite Hmi, Hmo. split; [done|]. intros Hv. split; [by apply Hiv|done].
Qed.

Lemma ensure_vertex_grows db v db' :
  graph_database_sharedmem.ensure_vertex vid_hash db v = Some db' →
  graph_database_sharedmem.grows db db'.
Proof.
  intros He w.
  destruct (ensure_vertex_effect _ _ _ He) as (_ & Hiv & Hmi & Hma & _).
  rewrite Hmi. split; [done|]. intros Hw. split; [|by apply Hma].
  apply Hiv. by left.
Qed.

Lemma add_mirror_grows db v k :
  graph_database_sharedmem.grows db (add_mirror db v k).
Proof.
  intros w.
  destruct (add_mirror_effect db v k) as (_ & _ & Hidx & _ & _ & _ & _ & Hmo & Hmi).
  rewrite Hmi, Hmo. unfold graph_database_sharedmem.is_vertex.
  rewrite Hidx. split; [case_bool_decide; set_solver|done].
Qed.

Lemma store_edge_grows db k source target row db' :
  graph_database_sharedmem.store_edge db k source target row = Some db' →
  graph_database_sharedmem.grows db db'.
Proof.
  intros Hst w.
  destruct (store_edge_effect _ _ _ _ _ _ Hst) as (_ & Hidx & Hma & Hmi & _).
  unfold graph_database_sharedmem.is_vertex,
    graph_database_sharedmem.mirrors_of, graph_database_sharedmem.master_of.
  by rewrite Hidx, Hma, Hmi.
Qed.

Lemma step_grows o db db' :
  step o db = Some db' → graph_database_sharedmem.grows db db'.
Proof.
  intros Hstep. pose proof (step_quiet o db db' Hstep) as Hq.
  destruct o; try (by apply quiet_grows).
  - simpl in Hstep. apply fmap_Some in Hstep as ([b db2] & Hadd & ->).
    intros w.
    destruct (add_vertex_effect _ _ _ _ _ Hadd) as (Hiv & _ & Hmi & Hma & _).
    simpl. rewrite Hmi. split; [done|]. intros Hw.
    split; [|by apply Hma]. apply Hiv. by left.
  - simpl in Hstep.
    apply add_edge_Some in Hstep as (db1 & db2 & db3 & H1 & H2 & H3 & ->).
    eapply grows_trans; [by eapply store_edge_grows|].
    eapply grows_trans; [by eapply ensure_vertex_grows|].
    eapply grows_trans; [by eapply ensure_vertex_grows|].
    eapply grows_trans; apply add_mirror_grows.
Qed.

Lemma run_grows ops db db' :
  run ops db = Some db' → graph_database_sharedmem.grows db db'.
Proof.
  revert db'. induction ops as [|o ops IH] using rev_ind; intros db'.
  - intros [= <-]. apply grows_refl.
  - rewrite run_snoc. intros Hrun.
    apply bind_Some in Hrun as (db1 & Hrun & Hstep).
    eapply grows_trans; [by apply IH|by eapply step_grows].
Qed.

(** C3: the mirror invariant.  After add_edge(source, target) has stored the
    edge in shard k, k is in the mirror set of every endpoint whose master is
    not k; and along any sequence of operations no mirror set loses an element
    and no vertex changes its master shard. *)
Theorem mirror_invariant :
  (∀ db source target data db',
     add_edge db source target data = Some db' →
     let k := edge_hash (source, target) mod num_shards db in
     (k ≠ master_of db' source → k ∈ mirrors_of db' source) ∧
     (k ≠ master_of db' target → k ∈ mirrors_of db' target)) ∧
  (∀ ops db db' v,
     run ops db = Some db' →
     mirrors_of db v ⊆ mirrors_of db' v ∧
     (is_vertex db v → is_vertex db' v ∧ master_of db' v = master_of db v)).
Proof.
  split; [|intros ops db db' v Hrun; by apply (run_grows ops)].
  intros db source target data db' Hadd k.
  apply add_edge_Some in Hadd as (db1 & db2 & db3 & _ & _ & _ & ->). fold k.
  set (db4 := add_mirror db3 source k).
  destruct (add_mirror_effect db3 source k)
    as (_ & _ & _ & _ & _ & _ & _ & Hmo4 & Hmi4). fold db4 in Hmo4, Hmi4.
  destruct (add_mirror_effect db4 target k)
    as (_ & _ & _ & _ & _ & _ & _ & Hmo5 & Hmi5).
  destruct (add_mirror_grows db4 target k source) as [Hsub _].
  split.
  - rewrite Hmo5, Hmo4. intros Hk. apply Hsub. rewrite Hmi4.
    rewrite bool_decide_eq_true_2 by done. set_solver.
  - rewrite Hmo5, Hmi5. intros Hk.
    rewrite bool_decide_eq_true_2 by done. set_solver.
Qed.

(** *** The modification API *)

Lemma wf_master_of db v :
  wf db → is_vertex db v → master_of db v = vid_hash v mod num_shards db.
Proof.
  intros Hwf Hv. unfold graph_database_sharedmem.master_of.
  by rewrite (graph_database_sharedmem.wf_master _ _ Hwf v Hv).
Qed.

(** C5: add_vertex on an indexed vid returns false and changes nothing; on a
    vid that is not indexed it succeeds, num_vertices grows by exactly one,
    and every later add_vertex of the vid returns false. *)
Theorem add_vertex_spec db v data :
  wf db →
  (is_vertex db v → add_vertex db v data = Some (false, db)) ∧
  (¬ is_vertex db v →
   ∃ db', add_vertex db v data = Some (true, db') ∧
     num_vertices db' = (num_vertices db + 1)%N ∧
     is_vertex db' v ∧
     ∀ data', add_vertex db' v data' = Some (false, db')).
Proof.
  intros Hwf. split; [apply add_vertex_known|]. intros Hv.
  destruct (add_vertex_new db v data Hwf Hv) as (s & _ & Hadd).
  eexists. split; [exact Hadd|].
  destruct (add_vertex_effect _ _ _ _ _ Hadd)
    as (Hiv & _ & _ & _ & _ & _ & _ & _ & Hlen & _).
  assert (Hv' : is_vertex
    (graph_database_sharedmem.mk _ _ _ _ _ _ _ _ _ _) v)
    by (apply Hiv; by right).
  split_and!; [|exact Hv'|intros data'; by apply add_vertex_known].
  unfold graph_database_sharedmem.num_vertices. rewrite Hlen. lia.
Qed.

(** C4: add_edge stores the row at the end of shard
    hash((source, target)) mod num_shards and in no other shard, the edge
    count grows by exactly one, and afterwards both endpoints are vertices
    whose master shard is hash(vid) mod num_shards. *)
Theorem add_edge_spec db source target data :
  wf db → (num_edges db + 1 < SIZE_MOD)%N →
  let k := edge_hash (source, target) mod num_shards db in
  let row := set_is_vertex false
               (default (new_graph_row
                  (graph_database_sharedmem.edge_fields db)) data) in
  ∃ db' s s',
    add_edge db source target data = Some db' ∧
    shards db !! k = Some s ∧ shards db' !! k = Some s' ∧
    edge (shard_impl s') = edge (shard_impl s) ++ [(source, target)] ∧
    edge_data (shard_impl s') = edge_data (shard_impl s) ++ [row_deepcopy row] ∧
    (∀ k' s0, k' ≠ k → shards db !! k' = Some s0 →
       ∃ s0', shards db' !! k' = Some s0' ∧
         edge (shard_impl s0') = edge (shard_impl s0) ∧
         edge_data (shard_impl s0') = edge_data (shard_impl s0)) ∧
    num_edges db' = (num_edges db + 1)%N ∧
    num_shards db' = num_shards db ∧
    is_vertex db' source ∧ is_vertex db' target ∧
    master_of db' source = vid_hash source mod num_shards db' ∧
    master_of db' target = vid_hash target mod num_shards db'.
Proof.
  intros Hwf Hcount k row.
  destruct (add_edge_total db source target data Hwf) as (db' & Hadd & Hwf').
  pose proof (graph_database_sharedmem.wf_num_shards _ _ Hwf) as Hn.
  assert (Hk : k < _num_shards db) by (apply Nat.mod_upper_bound; lia).
  destruct (add_edge_Some _ _ _ _ _ Hadd)
    as (db1 & db2 & db3 & H1 & H2 & H3 & Hdb'). fold k row in H1, Hdb'.
  destruct (store_edge_total db k source target row Hwf Hk)
    as (s & ei & Hs & _ & H1').
  rewrite H1 in H1'. injection H1' as Hdb1.
  destruct (ensure_vertex_effect _ _ _ H2)
    as (Hs2 & _ & _ & _ & _ & Hne2 & Hns2 & _ & _ & Hsh2).
  destruct (ensure_vertex_effect _ _ _ H3)
    as (Ht3 & Hiv3 & _ & _ & _ & Hne3 & Hns3 & _ & _ & Hsh3).
  destruct (add_mirror_effect db3 source k)
    as (Hsh4 & _ & Hidx4 & _ & Hne4 & Hns4 & _).
  destruct (add_mirror_effect (add_mirror db3 source k) target k)
    as (Hsh5 & _ & Hidx5 & _ & Hne5 & Hns5 & _).
  rewrite <- Hdb' in Hsh5, Hidx5, Hne5, Hns5.
  assert (Hedges : ∀ k' s1, shards db1 !! k' = Some s1 →
    ∃ s', shards db' !! k' = Some s' ∧
      edge (shard_impl s') = edge (shard_impl s1) ∧
      edge_data (shard_impl s') = edge_data (shard_impl s1)).
  { intros k' s1 Hs1. destruct (Hsh2 _ _ Hs1) as (s2 & Hs2' & He2 & Hd2).
    destruct (Hsh3 _ _ Hs2') as (s3 & Hs3' & He3 & Hd3).
    exists s3. rewrite Hsh5, Hsh4. split_and!; congruence. }
  assert (Hks : k < length (shards db)) by (by eapply lookup_lt_Some).
  destruct (Hedges k (mk_graph_shard
              (impl_add_edge (shard_impl s) source target row).2))
    as (s' & Hs' & He' & Hd').
  { rewrite Hdb1. simpl. by apply list_lookup_insert_eq. }
  assert (Hvs : is_vertex db' source ∧ is_vertex db' target).
  { unfold graph_database_sharedmem.is_vertex. rewrite Hidx5, Hidx4.
    split; [|done]. apply Hiv3. by left. }
  destruct Hvs as [Hvs Hvt].
  exists db', s, s'. split_and!; try done.
  - intros k' s0 Hne Hs0. apply Hedges. rewrite Hdb1. simpl.
    by rewrite list_lookup_insert_ne.
  - unfold graph_database_sharedmem.num_edges in *.
    rewrite Hne5, Hne4, Hne3, Hne2, Hdb1. simpl.
    apply N.mod_small. done.
  - unfold graph_database_sharedmem.num_shards.
    rewrite Hns5, Hns4, Hns3, Hns2, Hdb1. done.
  - by apply wf_master_of.
  - by apply wf_master_of.
Qed.

(** *** The vertices of a database and its history *)

Lemma step_is_vertex o db db' v :
  step o db = Some db' → is_vertex db' v ↔ is_vertex db v ∨ adds v o.
Proof.
  intros Hstep. pose proof (step_quiet o db db' Hstep) as Hq.
  destruct o; simpl;
    try (rewrite (quiet_is_vertex db db' v Hq); naive_solver).
  - simpl in Hstep. apply fmap_Some in Hstep as ([b db2] & Hadd & ->).
    destruct (add_vertex_effect _ _ _ _ _ Hadd) as (Hiv & Hb & _). simpl.
    rewrite Hiv. split; [naive_solver|]. intros [Hv| ->]; [by left|].
    destruct (decide (is_vertex db v)); [by left|right]. by rewrite Hb.
  - simpl in Hstep.
    apply add_edge_Some in Hstep as (db1 & db2 & db3 & H1 & H2 & H3 & ->).
    destruct (store_edge_effect _ _ _ _ _ _ H1) as (_ & Hidx1 & _).
    destruct (ensure_vertex_effect _ _ _ H2) as (_ & Hiv2 & _).
    destruct (ensure_vertex_effect _ _ _ H3) as (_ & Hiv3 & _).
    destruct (add_mirror_effect db3 source
                (edge_hash (source, target) mod num_shards db))
      as (_ & _ & Hidx4 & _).
    destruct (add_mirror_effect
                (add_mirror db3 source
                   (edge_hash (source, target) mod num_shards db)) target
                (edge_hash (source, target) mod num_shards db))
      as (_ & _ & Hidx5 & _).
    unfold graph_database_sharedmem.is_vertex at 1.
    rewrite Hidx5, Hidx4.
    change (is_vertex db3 v ↔ is_vertex db v ∨ source = v ∨ target = v).
    rewrite Hiv3, Hiv2. unfold graph_database_sharedmem.is_vertex.
    rewrite Hidx1. naive_solver.
Qed.

(** A vid is indexed exactly when some operation of the history added it. *)
Lemma run_is_vertex ops vertex_fields edge_fields numshards db v :
  run ops (create vertex_fields edge_fields numshards) = Some db →
  is_vertex db v ↔ Exists (adds v) ops.
Proof.
  revert db. induction ops as [|o ops IH] using rev_ind; intros db.
  - intros [= <-]. rewrite Exists_nil, is_vertex_lookup. simpl.
    rewrite lookup_empty. split; [by intros []|done].
  - rewrite run_snoc. intros Hrun.
    apply bind_Some in Hrun as (db1 & Hrun & Hstep).
    rewrite (step_is_vertex _ _ _ v Hstep), (IH db1 Hrun).
    rewrite Exists_app, Exists_cons, Exists_nil. naive_solver.
Qed.

(** *** get_vertex and the handles it returns *)

Lemma get_vertex_Some db v h db' :
  get_vertex db v = Some (Some h, db') →
  graph_vertex_sharedmem.vid h = v ∧
  graph_vertex_sharedmem.master h = master_of db v ∧
  graph_vertex_sharedmem.mirrors h = mirrors_of db v ∧
  vertex_store db !!
    N.to_nat (graph_vertex_index.get_index npos (vertex_index db) v) =
    Some (graph_vertex_sharedmem.vdata h).
Proof.
  unfold graph_database_sharedmem.get_vertex. case_match; [done|].
  intros Hget. apply bind_Some in Hget as (row & Hrow & Hget).
  pose proof (subscript_fst (vid2master db) v) as Hm.
  destruct (subscript (vid2master db) v) as [m m1].
  pose proof (subscript_fst (vid2mirrors db) v) as Hms.
  destruct (subscript (vid2mirrors db) v) as [ms ms1].
  injection Hget as <- <-. simpl in *. by subst.
Qed.

(** C7: get_vertex returns NULL, and leaves the database as it is, exactly
    for the vids that no operation of the history has added; for every other
    vid it returns a handle on the row that the master shard of the vertex
    stores for it. *)
Theorem get_vertex_spec vertex_fields edge_fields numshards ops db v :
  0 < numshards →
  run ops (create vertex_fields edge_fields numshards) = Some db →
  (num_vertices db ≤ npos)%N →
  (¬ Exists (adds v) ops → get_vertex db v = Some (None, db)) ∧
  (Exists (adds v) ops →
   ∃ h db' s row,
     get_vertex db v = Some (Some h, db') ∧
     shards db' = shards db ∧
     graph_vertex_sharedmem.get_id h = v ∧
     graph_vertex_sharedmem.master_shard h = vid_hash v mod num_shards db ∧
     graph_vertex_sharedmem.master_shard h = master_of db v ∧
     graph_vertex_sharedmem.mirrors h = mirrors_of db v ∧
     (graph_vertex_sharedmem.data h).1 = graph_vertex_sharedmem.master_shard h ∧
     shards db !! graph_vertex_sharedmem.master_shard h = Some s ∧
     vertex (shard_impl s) !! (graph_vertex_sharedmem.data h).2 = Some v ∧
     load_vertex_row (shards db') (graph_vertex_sharedmem.data h) = Some row).
Proof.
  intros Hn Hrun Hnpos.
  assert (Hwf : wf db) by (eapply wf_run; [by apply wf_create|done]).
  rewrite <- !(run_is_vertex ops vertex_fields edge_fields numshards db v)
    by done.
  unfold graph_database_sharedmem.num_vertices in Hnpos. split.
  - intros Hv. apply not_is_vertex_lookup in Hv.
    unfold graph_database_sharedmem.get_vertex,
      graph_vertex_index.get_index. rewrite Hv.
    by rewrite (proj2 (N.leb_le _ _) Hnpos).
  - intros Hv. pose proof Hv as Hv'.
    apply is_vertex_lookup in Hv' as [i Hi].
    destruct (graph_database_sharedmem.wf_store _ _ Hwf v i Hi)
      as (p & s & Hp & Hs & Hvp).
    destruct (graph_database_sharedmem.wf_shape _ _ Hwf _ _ Hs) as [Hvd _].
    destruct (lookup_lt_is_Some_2 (vertex_data (shard_impl s)) p)
      as [row Hrow].
    { rewrite Hvd. by eapply lookup_lt_Some. }
    assert (Hget : ∃ h db', get_vertex db v = Some (Some h, db')).
    { unfold graph_database_sharedmem.get_vertex,
        graph_vertex_index.get_index. rewrite Hi.
      rewrite (proj2 (N.leb_gt _ _)).
      2:{ apply lookup_lt_Some in Hp. lia. }
      rewrite Nat2N.id, Hp. simpl.
      destruct (subscript (vid2master db) v), (subscript (vid2mirrors db) v).
      by eexists _, _. }
    destruct Hget as (h & db' & Hget). exists h, db', s, row.
    destruct (get_vertex_Some _ _ _ _ Hget) as (Hid & Hma & Hmi & Hdata).
    unfold graph_vertex_index.get_index in Hdata.
    rewrite Hi, Nat2N.id, Hp in Hdata. injection Hdata as Hdata.
    destruct (quiet_get_vertex _ _ _ _ Hget) as [_ _ _ _ _ _ _ _ _].
    pose proof (wf_master_of db v Hwf Hv) as Hmaster.
    assert (Hsh : shards db' = shards db).
    { revert Hget. unfold graph_database_sharedmem.get_vertex.
      case_match; [done|]. intros Hget.
      apply bind_Some in Hget as (r & _ & Hget).
      destruct (subscript (vid2master db) v), (subscript (vid2mirrors db) v).
      by injection Hget as <- <-. }
    unfold graph_vertex_sharedmem.get_id, graph_vertex_sharedmem.master_shard,
      graph_vertex_sharedmem.data.
    rewrite <- Hdata, Hma, Hmaster. simpl.
    split_and!; try done.
    unfold load_vertex_row; simpl. unfold graph_database_sharedmem.num_shards.
    rewrite Hsh, Hs. done.
Qed.

(** C10: get_shard_list holds exactly the mirror shard ids, each once, so its
    length is get_num_shards minus one (get_num_shards counts the mirrors and
    the master); and the master shard of a handle that get_vertex returns is
    not in the list. *)
Theorem get_shard_list_mirrors_only (h : graph_vertex_sharedmem.t) :
  (length (graph_vertex_sharedmem.get_shard_list h) =
     graph_vertex_sharedmem.get_num_shards h - 1 ∧
   graph_vertex_sharedmem.get_num_shards h =
     size (graph_vertex_sharedmem.mirrors h) + 1 ∧
   NoDup (graph_vertex_sharedmem.get_shard_list h) ∧
   (∀ k, k ∈ graph_vertex_sharedmem.get_shard_list h ↔
         k ∈ graph_vertex_sharedmem.mirrors h)) ∧
  (∀ db v db',
     wf db → get_vertex db v = Some (Some h, db') →
     graph_vertex_sharedmem.master_shard h ∉
       graph_vertex_sharedmem.get_shard_list h).
Proof.
  unfold graph_vertex_sharedmem.get_shard_list,
    graph_vertex_sharedmem.get_num_shards,
    graph_vertex_sharedmem.master_shard.
  split; [split_and!|].
  - change (length (elements (graph_vertex_sharedmem.mirrors h)))
      with (size (graph_vertex_sharedmem.mirrors h)). lia.
  - done.
  - apply NoDup_elements.
  - intros k. apply elem_of_elements.
  - intros db v db' Hwf Hget. rewrite elem_of_elements.
    destruct (get_vertex_Some _ _ _ _ Hget) as (_ & Hma & Hmi & _).
    rewrite Hma, Hmi. intros Hin.
    destruct (graph_database_sharedmem.wf_mirrors _ _ Hwf _ _ Hin)
      as [Hv Hne].
    apply Hne. by apply wf_master_of.
Qed.

(** *** get_shard_contents_adj_to *)

Lemma copy_edge_slice db b origin index j pos ret :
  shards db !! b = Some origin →
  index !! j = Some pos →
  pos < length (edge (shard_impl origin)) →
  length (edge_data (shard_impl origin)) = length (edge (shard_impl origin)) →
  slice_of (shard_impl origin) ret →
  ∃ ret', graph_database_sharedmem.copy_edge db b index j ret = Some ret' ∧
    slice_of (shard_impl origin) ret' ∧
    shard_id ret' = shard_id ret ∧
    edgeid ret' = edgeid ret ++ [pos].
Proof.
  intros Hb Hpos Hlt Hlen (Hv & Hvd & Hle & Hld & Hall).
  destruct (lookup_lt_is_Some_2 (edge (shard_impl origin)) pos) as [e He];
    [done|].
  destruct (lookup_lt_is_Some_2 (edge_data (shard_impl origin)) pos)
    as [row Hrow]; [lia|].
  unfold graph_database_sharedmem.copy_edge, shard_edge, shard_edge_data.
  rewrite Hpos, Hb. simpl. rewrite He. simpl. rewrite Hrow. simpl.
  eexists. split; [done|]. simpl. split_and!; try done.
  split_and!; simpl; try done.
  - rewrite !length_app. simpl. lia.
  - rewrite !length_app. simpl. lia.
  - intros i p Hi. destruct (decide (i < length (edgeid ret))) as [Hlt'|Hge].
    + rewrite lookup_app_l in Hi by done.
      destruct (Hall i p Hi) as (e' & row' & ? & ? & ? & ?).
      exists e', row'. split_and!; try done; by apply lookup_app_l_Some.
    + rewrite lookup_app_r in Hi by lia.
      apply list_lookup_singleton_Some in Hi as [Hi0 <-].
      assert (i = length (edgeid ret)) as -> by lia.
      exists e, row. split_and!; try done.
      * rewrite lookup_app_r by lia. rewrite Hle, Nat.sub_diag.
        by destruct e.
      * rewrite lookup_app_r by lia. by rewrite Hld, Nat.sub_diag.
Qed.

Lemma copy_edges_slice db b origin index ret :
  shards db !! b = Some origin →
  (∀ pos, pos ∈ index → pos < length (edge (shard_impl origin))) →
  length (edge_data (shard_impl origin)) = length (edge (shard_impl origin)) →
  slice_of (shard_impl origin) ret →
  ∃ ret',
    for_loopM (length index) (graph_database_sharedmem.copy_edge db b index)
      ret = Some ret' ∧
    slice_of (shard_impl origin) ret' ∧
    shard_id ret' = shard_id ret ∧
    edgeid ret' = edgeid ret ++ index.
Proof.
  intros Hb Hvalid Hlen Hslice.
  destruct (for_loopM_inv
    (λ j r, slice_of (shard_impl origin) r ∧ shard_id r = shard_id ret ∧
            edgeid r = edgeid ret ++ take j index)
    (length index) (graph_database_sharedmem.copy_edge db b index) ret)
    as (ret' & Hloop & Hs' & Hid' & He').
  - by rewrite app_nil_r.
  - intros j r Hj (Hs & Hid & He).
    destruct (lookup_lt_is_Some_2 index j Hj) as [pos Hpos].
    destruct (copy_edge_slice db b origin index j pos r)
      as (r' & Hr' & Hs' & Hid' & He'); try done.
    { apply Hvalid. by eapply list_elem_of_lookup_2. }
    exists r'. split; [done|]. split_and!; [done|congruence|].
    rewrite He', He, (take_S_r _ _ pos) by done. by rewrite app_assoc.
  - exists ret'. by rewrite firstn_all in He'.
Qed.

Lemma copy_adjacent_slice db a b vids origin ei i v ret dbi :
  wf db →
  shards db !! b = Some origin → edge_index db !! b = Some ei →
  vids !! i = Some v →
  graph_database_sharedmem.quiet db dbi → shards dbi = shards db →
  slice_of (shard_impl origin) ret →
  ∃ ret' dbi',
    graph_database_sharedmem.copy_adjacent a b vids i (ret, dbi)
      = Some (ret', dbi') ∧
    slice_of (shard_impl origin) ret' ∧
    shard_id ret' = shard_id ret ∧
    edgeid ret' = edgeid ret ++
      (if graph_database_sharedmem.passes_filter db a b v
       then adjacency ei v else []) ∧
    graph_database_sharedmem.quiet db dbi' ∧ shards dbi' = shards db.
Proof.
  intros Hwf Hb Hei Hv Hq Hsh Hslice.
  destruct (graph_database_sharedmem.wf_shape _ _ Hwf _ _ Hb) as [_ Hlen].
  assert (Hvalid : ∀ p, p ∈ adjacency ei v →
            p < length (edge (shard_impl origin))).
  { intros p. by eapply (graph_database_sharedmem.wf_positions _ _ Hwf). }
  assert (Hpass : ∀ (pass : bool) db1,
    graph_database_sharedmem.quiet db db1 → shards db1 = shards db →
    pass = graph_database_sharedmem.passes_filter db a b v →
    ∃ ret' dbi',
      (if pass
       then ei ← edge_index db1 !! b;
            let '(index_in, index_out) :=
              graph_edge_index.get_edge_index ei true true v in
            ret0 ← for_loopM (length index_in)
                     (graph_database_sharedmem.copy_edge db1 b index_in) ret;
            ret1 ← for_loopM (length index_out)
                     (graph_database_sharedmem.copy_edge db1 b index_out)
                     ret0;
            Some (ret1, db1)
       else Some (ret, db1)) = Some (ret', dbi') ∧
      slice_of (shard_impl origin) ret' ∧
      shard_id ret' = shard_id ret ∧
      edgeid ret' = edgeid ret ++
        (if graph_database_sharedmem.passes_filter db a b v
         then adjacency ei v else []) ∧
      graph_database_sharedmem.quiet db dbi' ∧ shards dbi' = shards db).
  { intros pass db1 Hq1 Hsh1 <-. destruct pass.
    2:{ exists ret, db1. by rewrite app_nil_r. }
    rewrite (graph_database_sharedmem.quiet_edge_index _ _ Hq1), Hei.
    cbn [mbind option_bind].
    unfold graph_database_sharedmem.adjacency in *.
    destruct (graph_edge_index.get_edge_index ei true true v)
      as [index_in index_out]. simpl in *.
    destruct (copy_edges_slice db1 b origin index_in ret)
      as (ret0 & Hl0 & Hs0 & Hid0 & He0); try done.
    { by rewrite Hsh1. }
    { intros p Hp. apply Hvalid. set_solver. }
    destruct (copy_edges_slice db1 b origin index_out ret0)
      as (ret1 & Hl1 & Hs1 & Hid1 & He1); try done.
    { by rewrite Hsh1. }
    { intros p Hp. apply Hvalid. set_solver. }
    exists ret1, db1. rewrite Hl0. simpl. rewrite Hl1. simpl.
    split_and!; try done; [congruence|]. by rewrite He1, He0, app_assoc. }
  unfold graph_database_sharedmem.copy_adjacent. rewrite Hv. simpl.
  unfold graph_database_sharedmem.passes_filter in Hpass |- *.
  case_bool_decide as Hab.
  - by apply (Hpass true dbi).
  - pose proof (quiet_subscript_mirrors dbi v) as Hq2.
    pose proof (subscript_fst (vid2mirrors dbi) v) as Hms.
    destruct (subscript (vid2mirrors dbi) v) as [ms ms1]. simpl in *.
    apply (Hpass (bool_decide (b ∈ ms))
             (graph_database_sharedmem.set_vid2mirrors dbi ms1)).
    + by eapply quiet_trans.
    + done.
    + rewrite Hms.
      change (default ∅ (vid2mirrors dbi !! v)) with (mirrors_of dbi v).
      by rewrite (graph_database_sharedmem.quiet_mirrors_of _ _ Hq).
Qed.

(** The loop of get_shard_contents_adj_to, for shard ids in range: it ends,
    and the new shard is a slice of shard [b] at the positions
    [adjacent_positions db a b]. *)
Lemma get_shard_contents_adj_to_slice db a b :
  wf db → a < num_shards db → b < num_shards db →
  ∃ d db' src origin ei,
    get_shard_contents_adj_to db a b = Some (d, db') ∧
    shards db !! a = Some src ∧
    shards db !! b = Some origin ∧
    edge_index db !! b = Some ei ∧
    graph_shard_id d = b ∧
    slice_of (shard_impl origin) (shard_impl d) ∧
    edgeid (shard_impl d) =
      graph_database_sharedmem.adjacent_positions db a b ∧
    shards db' = shards db ∧
    graph_database_sharedmem.quiet db db'.
Proof.
  intros Hwf Ha Hb. unfold graph_database_sharedmem.num_shards in *.
  destruct (lookup_lt_is_Some_2 (shards db) a) as [src Hsrc].
  { by rewrite (graph_database_sharedmem.wf_shards _ _ Hwf). }
  destruct (lookup_lt_is_Some_2 (shards db) b) as [origin Horigin].
  { by rewrite (graph_database_sharedmem.wf_shards _ _ Hwf). }
  destruct (lookup_lt_is_Some_2 (edge_index db) b) as [ei Hei].
  { by rewrite (graph_database_sharedmem.wf_edge_index _ _ Hwf). }
  set (vids := vertex (shard_impl src)).
  set (f := λ v, if graph_database_sharedmem.passes_filter db a b v
                 then adjacency ei v else []).
  destruct (for_loopM_inv
    (λ i st, slice_of (shard_impl origin) st.1 ∧
             shard_id st.1 = b ∧
             edgeid st.1 = take i vids ≫= f ∧
             graph_database_sharedmem.quiet db st.2 ∧
             shards st.2 = shards db)
    (length vids)
    (graph_database_sharedmem.copy_adjacent a b vids)
    (impl_set_shard_id (empty_shard_impl 0) b, db))
    as ([ret db'] & Hloop & Hslice & Hid & Heid & Hq & Hsh).
  { split; [|split_and!; try done; apply quiet_refl].
    unfold slice_of. simpl. by split_and!. }
  { intros i [ret dbi] Hi (Hslice & Hid & Heid & Hq & Hsh). simpl in *.
    destruct (lookup_lt_is_Some_2 vids i Hi) as [v Hv].
    destruct (copy_adjacent_slice db a b vids origin ei i v ret dbi)
      as (ret' & dbi' & Hstep & Hslice' & Hid' & Heid' & Hq' & Hsh');
      try done.
    exists (ret', dbi'). split; [done|]. simpl.
    split_and!; try done; [congruence|].
    rewrite Heid', Heid, (take_S_r _ _ v), bind_app, bind_singleton by done.
    done. }
  simpl in *. rewrite firstn_all in Heid.
  exists (mk_graph_shard ret), db', src, origin, ei.
  split_and!; try done.
  - unfold graph_database_sharedmem.get_shard_contents_adj_to.
    rewrite Hsrc. simpl. fold vids. by rewrite Hloop.
  - unfold graph_database_sharedmem.adjacent_positions.
    by rewrite Hsrc, Hei.
Qed.

(** C1: for shard ids [a] (shard_id) and [b] (adjacent_to) in range,
    get_shard_contents_adj_to(a, b) returns a shard with the id [b] and no
    vertices, whose edgeid, edge and edge data sequences have the same length;
    edge [i] is the edge of shard [b] at position [edgeid[i]] with a deep copy
    of its row; the positions are those that the Edge Index of [b] lists,
    incoming then outgoing, for the vertices stored in shard [a] that pass the
    filter (a = b, or b in the mirror set of the vertex), in the order of the
    vertices; and for [a = b] every vertex of the shard passes.  The call
    leaves the shards of the database as they are. *)
Theorem get_shard_contents_adj_to_spec db a b :
  wf db → a < num_shards db → b < num_shards db →
  ∃ d db' src origin ei,
    get_shard_contents_adj_to db a b = Some (d, db') ∧
    shards db !! a = Some src ∧
    shards db !! b = Some origin ∧
    edge_index db !! b = Some ei ∧
    graph_shard_id d = b ∧
    shard_num_vertices d = 0 ∧
    vertex_data (shard_impl d) = [] ∧
    length (edgeid (shard_impl d)) = shard_num_edges d ∧
    length (edge_data (shard_impl d)) = shard_num_edges d ∧
    (∀ i p, edgeid (shard_impl d) !! i = Some p →
       ∃ e row,
         shard_edge origin p = Some e ∧
         shard_edge_data origin p = Some row ∧
         shard_edge d i = Some e ∧
         shard_edge_data d i = Some (row_deepcopy (row_deepcopy row))) ∧
    edgeid (shard_impl d) =
      graph_database_sharedmem.adjacent_positions db a b ∧
    (∀ p, p ∈ edgeid (shard_impl d) ↔
       ∃ v, v ∈ vertex (shard_impl src) ∧
         (a = b ∨ b ∈ mirrors_of db v) ∧
         (p ∈ (graph_edge_index.get_edge_index ei true true v).1 ∨
          p ∈ (graph_edge_index.get_edge_index ei true true v).2)) ∧
    (a = b →
       edgeid (shard_impl d) = vertex (shard_impl src) ≫= adjacency ei) ∧
    shards db' = shards db ∧
    graph_database_sharedmem.quiet db db'.
Proof.
  intros Hwf Ha Hb.
  destruct (get_shard_contents_adj_to_slice db a b Hwf Ha Hb)
    as (d & db' & src & origin & ei & Hget & Hsrc & Horigin & Hei & Hid &
        Hslice & Heid & Hsh & Hq).
  exists d, db', src, origin, ei.
  destruct Hslice as (Hv & Hvd & Hle & Hld & Hall).
  assert (Hpos : edgeid (shard_impl d) =
            vertex (shard_impl src) ≫=
              (λ v, if graph_database_sharedmem.passes_filter db a b v
                    then adjacency ei v else [])).
  { rewrite Heid. unfold graph_database_sharedmem.adjacent_positions.
    by rewrite Hsrc, Hei. }
  unfold shard_num_vertices, shard_num_edges, shard_edge, shard_edge_data.
  split_and!; try done.
  - by rewrite Hv.
  - congruence.
  - intros p. rewrite Hpos, list_elem_of_bind.
    unfold graph_database_sharedmem.passes_filter,
      graph_database_sharedmem.adjacency.
    split.
    + intros (v & Hp & Hvin). exists v. split; [done|].
      destruct (bool_decide (a = b)) eqn:Hab;
        destruct (bool_decide (b ∈ mirrors_of db v)) eqn:Hmi;
        simpl in Hp;
        try apply bool_decide_eq_true in Hab;
        try apply bool_decide_eq_true in Hmi;
        try (by apply elem_of_nil in Hp);
        apply elem_of_app in Hp; auto.
    + intros (v & Hvin & Hpass & Hp). exists v. split; [|done].
      assert (bool_decide (a = b)
              || bool_decide (b ∈ mirrors_of db v) = true) as ->.
      { apply orb_true_iff. rewrite !bool_decide_eq_true. done. }
      by apply elem_of_app.
  - intros Hab. rewrite Hpos. apply list_bind_ext; [|done].
    intros v. unfold graph_database_sharedmem.passes_filter.
    by rewrite bool_decide_eq_true_2.
Qed.

(** *** commit_shard *)

Lemma set_shards_id db :
  graph_database_sharedmem.set_shards db (shards db) = db.
Proof. by destruct db. Qed.

Lemma commit_edge_row_clean db sh id (derived : bool) i local pos origin :
  shard_edge_data sh i = Some local →
  (∀ x, x ∈ _data local → get_modified x = false) →
  (if derived then edgeid (shard_impl sh) !! i else Some i) = Some pos →
  load_edge_row (shards db) (id, pos) = Some origin →
  graph_database_sharedmem.commit_edge_row id derived i (db, sh)
    = Some (db, sh).
Proof.
  intros Hlocal Hclean Hpos Horigin.
  unfold graph_database_sharedmem.commit_edge_row.
  rewrite Hlocal. cbn [mbind option_bind]. rewrite Hpos.
  cbn [mbind option_bind]. rewrite Horigin. cbn [mbind option_bind].
  rewrite commit_edge_fields_clean by done. cbn [mbind option_bind].
  rewrite store_load_edge_row by done. rewrite set_shards_id.
  unfold shard_edge_data in Hlocal. rewrite list_insert_id by done.
  by destruct sh as [[]].
Qed.

Lemma commit_edge_row_single db sh id (derived : bool) i local j val
    pos origin :
  shard_edge_data sh i = Some local →
  get_field local j = Some val →
  get_modified val = true →
  (∀ j' x, get_field local j' = Some x → get_modified x = true → j' = j) →
  (if derived then edgeid (shard_impl sh) !! i else Some i) = Some pos →
  load_edge_row (shards db) (id, pos) = Some origin →
  is_Some (get_field origin j) →
  graph_database_sharedmem.commit_edge_row id derived i (db, sh) =
  Some (graph_database_sharedmem.set_shards db
          (store_edge_row (shards db) (id, pos)
             (set_field origin j (value_deepcopy (post_commit_state val)))),
        mk_graph_shard
          (impl_set_edge_data (shard_impl sh)
             (<[i := set_field local j (post_commit_state val)]>
                (edge_data (shard_impl sh))))).
Proof.
  intros Hlocal Hval Hmod Honly Hpos Horigin Hfield.
  unfold graph_database_sharedmem.commit_edge_row.
  rewrite Hlocal. cbn [mbind option_bind]. rewrite Hpos.
  cbn [mbind option_bind]. rewrite Horigin. cbn [mbind option_bind].
  by rewrite (commit_edge_fields_single local origin j val).
Qed.

(** C2: let [d] be the derived shard get_shard_contents_adj_to(a, b), with
    a non-empty edgeid, and let [d'] be [d] after a client has set values in
    its edge rows, such that field [j] of edge row [i] is the only field
    marked modified.  Then commit_shard(d') succeeds and stores the deep copy
    of the committed value in field [j] of the row at position [edgeid[i]]
    of the live shard [b]; the other fields of that row, every other edge
    row and every vertex row of the database are as before. *)
Theorem commit_shard_derived db a b d db1 d' i j val :
  wf db → a < num_shards db → b < num_shards db →
  get_shard_contents_adj_to db a b = Some (d, db1) →
  edgeid (shard_impl d) ≠ [] →
  same_shape (shard_impl d) (shard_impl d') →
  shard_edge_data d' i ≫= (λ r, get_field r j) = Some val →
  get_modified val = true →
  (∀ i' r j' x, shard_edge_data d' i' = Some r → get_field r j' = Some x →
                get_modified x = true → i' = i ∧ j' = j) →
  ∃ pos origin_shard origin db2 d2,
    edgeid (shard_impl d) !! i = Some pos ∧
    shards db1 !! b = Some origin_shard ∧
    shard_edge_data origin_shard pos = Some origin ∧
    commit_shard db1 d' = Some (db2, d2) ∧
    db2 = graph_database_sharedmem.set_shards db1
            (store_edge_row (shards db1) (b, pos)
               (set_field origin j
                  (value_deepcopy (post_commit_state val)))) ∧
    load_edge_row (shards db2) (b, pos) ≫= (λ r, get_field r j) =
      Some (value_deepcopy (post_commit_state val)) ∧
    (∀ j', j' ≠ j →
       load_edge_row (shards db2) (b, pos) ≫= (λ r, get_field r j') =
       get_field origin j') ∧
    (∀ q, q ≠ (b, pos) →
       load_edge_row (shards db2) q = load_edge_row (shards db1) q) ∧
    (∀ q, load_vertex_row (shards db2) q = load_vertex_row (shards db1) q).
Proof.
  intros Hwf Ha Hb Hget Hne Hshape Hval Hmod Honly.
  destruct (get_shard_contents_adj_to_slice db a b Hwf Ha Hb)
    as (d0 & db0 & src & origin_shard & ei & Hget0 & _ & Horigin & _ &
        Hid & Hslice & _ & Hsh & _).
  rewrite Hget in Hget0. injection Hget0 as <- <-.
  destruct Hslice as (Hv & Hvd & Hle & Hld & Hall).
  destruct Hshape as (Hid' & Hv' & Hvd' & He' & Heid' & Hrows).
  apply bind_Some in Hval as (local & Hlocal & Hval).
  unfold shard_edge_data in Hlocal.
  pose proof (Forall2_length _ _ _ Hrows) as Hlen.
  assert (Hi : i < length (edgeid (shard_impl d))).
  { apply lookup_lt_Some in Hlocal. lia. }
  destruct (lookup_lt_is_Some_2 _ _ Hi) as [pos Hpos].
  destruct (Hall i pos Hpos) as (e & origin & He & Hrow & Hei & Hdi).
  assert (Hfield : is_Some (get_field origin j)).
  { apply lookup_lt_is_Some_2.
    pose proof (Forall2_lookup_lr _ _ _ _ _ _ Hrows Hdi Hlocal) as Hnf.
    unfold num_fields in Hnf. simpl in Hnf. rewrite !length_fmap in Hnf.
    rewrite <- Hnf. by eapply lookup_lt_Some. }
  assert (Hloadb : ∀ mem p, mem !! b = Some origin_shard →
            load_edge_row mem (b, p) = shard_edge_data origin_shard p).
  { intros mem p Hm. unfold load_edge_row. simpl. by rewrite Hm. }
  rewrite <- Hsh in Horigin.
  set (neworigin := set_field origin j
                      (value_deepcopy (post_commit_state val))).
  set (db2 := graph_database_sharedmem.set_shards db1
                (store_edge_row (shards db1) (b, pos) neworigin)).
  set (d2 := mk_graph_shard
               (impl_set_edge_data (shard_impl d')
                  (<[i := set_field local j (post_commit_state val)]>
                     (edge_data (shard_impl d'))))).
  assert (Hloadpos : load_edge_row (shards db1) (b, pos) = Some origin).
  { by rewrite (Hloadb _ _ Horigin). }
  assert (Hclean : ∀ i' r, i' ≠ i → edge_data (shard_impl d') !! i' = Some r →
            ∀ x, x ∈ _data r → get_modified x = false).
  { intros i' r Hi' Hr x Hx. apply list_elem_of_lookup in Hx as [j' Hj'].
    destruct (get_modified x) eqn:Hm; [|done].
    destruct (Honly i' r j' x Hr Hj' Hm) as [? _]. done. }
  assert (Hlookups : ∀ i', i' < length (edgeid (shard_impl d)) →
            ∃ r p o, edge_data (shard_impl d') !! i' = Some r ∧
              edgeid (shard_impl d') !! i' = Some p ∧
              load_edge_row (shards db1) (b, p) = Some o).
  { intros i' Hi'.
    destruct (lookup_lt_is_Some_2 (edge_data (shard_impl d')) i') as [r Hr];
      [lia|].
    destruct (lookup_lt_is_Some_2 (edgeid (shard_impl d)) i' Hi') as [p Hp].
    destruct (Hall i' p Hp) as (_ & o & _ & Ho & _).
    exists r, p, o. rewrite Heid', (Hloadb _ _ Horigin). done. }
  assert (Hcommit : commit_shard db1 d' = Some (db2, d2)).
  { unfold graph_database_sharedmem.commit_shard.
    unfold shard_num_vertices, shard_num_edges, graph_shard_id.
    rewrite Hv', Hv. cbn [length]. rewrite for_loopM_0.
    cbn [mbind option_bind]. rewrite Heid', Hid', He', Hle.
    rewrite bool_decide_eq_true_2 by lia. change (shard_id (shard_impl d))
      with (graph_shard_id d). rewrite Hid.
    apply (for_loopM_single _ _ _ i); [done| | |].
    - intros i' Hi'. destruct (Hlookups i') as (r & p & o & Hr & Hp & Ho);
        [lia|].
      eapply commit_edge_row_clean; try done. apply (Hclean i'); [lia|done].
    - apply commit_edge_row_single; try done; [|by rewrite Heid'].
      intros j' x Hx Hm. by destruct (Honly i local j' x Hlocal Hx Hm).
    - intros i' Hi'. destruct (Hlookups i') as (r & p & o & Hr & Hp & Ho);
        [lia|].
      apply (commit_edge_row_clean _ _ _ true i' r p
               (if decide ((b, pos) = (b, p)) then neworigin else o)).
      + unfold shard_edge_data, d2. simpl.
        by rewrite list_lookup_insert_ne by lia.
      + apply (Hclean i'); [lia|done].
      + done.
      + unfold db2. simpl. rewrite load_store_edge_row by by eexists.
        by case_decide. }
  assert (Hload2 : load_edge_row (shards db2) (b, pos) = Some neworigin).
  { unfold db2. simpl. rewrite load_store_edge_row by by eexists.
    by rewrite decide_True. }
  exists pos, origin_shard, origin, db2, d2. split_and!; try done.
  - rewrite Hload2. simpl. unfold neworigin, get_field, set_field. simpl.
    apply list_lookup_insert_eq. by apply lookup_lt_is_Some_1.
  - intros j' Hj'. rewrite Hload2. simpl.
    unfold neworigin, get_field, set_field. simpl.
    by rewrite list_lookup_insert_ne.
  - intros q Hq. unfold db2. simpl.
    rewrite load_store_edge_row by by eexists. by rewrite decide_False.
  - intros q. unfold db2. simpl. apply load_vertex_row_store_edge_row.
Qed.

(** C8: both overloads of find_vertex end in a failed assertion, for every
    database, field position, value and output vector; no call returns a
    result set. *)
Theorem find_vertex_unsupported db fieldpos (ivalue : Z) (svalue : string)
    (out_vids : list N) :
  graph_database_sharedmem.find_vertex_int db fieldpos ivalue out_vids
    = graph_database_sharedmem.Assertion_failure ∧
  graph_database_sharedmem.find_vertex_string db fieldpos svalue out_vids
    = graph_database_sharedmem.Assertion_failure ∧
  (∀ r, graph_database_sharedmem.find_vertex_int db fieldpos ivalue out_vids
        ≠ graph_database_sharedmem.Returns r) ∧
  (∀ r, graph_database_sharedmem.find_vertex_string db fieldpos svalue
          out_vids
        ≠ graph_database_sharedmem.Returns r).
Proof. by split_and!. Qed.

(** C9: the four synchronisation methods of an edge handle return the
    database as it was; in particular every field of the row of the edge has
    the same value, the same modified flag and the same delta flag as
    before. *)
Theorem edge_write_ops_noop (e : graph_edge_sharedmem.t) db :
  let ops : list (database → database) :=
    [graph_edge_sharedmem.write_changes e;
     graph_edge_sharedmem.write_changes_async e;
     graph_edge_sharedmem.refresh e;
     graph_edge_sharedmem.write_and_refresh e] in
  ∀ f, f ∈ ops →
    f db = db ∧
    load_edge_row (shards (f db)) (graph_edge_sharedmem.data e) =
      load_edge_row (shards db) (graph_edge_sharedmem.data e) ∧
    ∀ j x,
      load_edge_row (shards db) (graph_edge_sharedmem.data e)
        ≫= (λ r, get_field r j) = Some x →
      ∃ x',
        load_edge_row (shards (f db)) (graph_edge_sharedmem.data e)
          ≫= (λ r, get_field r j) = Some x' ∧
        x' = x ∧
        get_modified x' = get_modified x ∧
        get_use_delta_commit x' = get_use_delta_commit x.
Proof.
  intros ops f Hf. unfold ops in Hf.
  assert (Hid : f db = db).
  { rewrite !elem_of_cons, elem_of_nil in Hf.
    by destruct Hf as [->|[->|[->|[->|[]]]]]. }
  rewrite Hid. split_and!; [done|done|].
  intros j x Hx. by exists x.
Qed.

(** ** Beyond the claims: the layout of the shards *)

Lemma shard_grows_refl (s : graph_shard_impl) : shard_grows s s.
Proof. by split_and!. Qed.

Lemma shard_grows_trans (s1 s2 s3 : graph_shard_impl) :
  shard_grows s1 s2 → shard_grows s2 s3 → shard_grows s1 s3.
Proof.
  intros (? & ? & ? & ?) (? & ? & ? & ?).
  split_and!; try congruence; by etrans.
Qed.

Lemma layout_grows_refl (mem : list graph_shard) : layout_grows mem mem.
Proof.
  split; [done|]. intros k s Hs. exists s. split; [done|].
  apply shard_grows_refl.
Qed.

Lemma layout_grows_trans (mem1 mem2 mem3 : list graph_shard) :
  layout_grows mem1 mem2 → layout_grows mem2 mem3 → layout_grows mem1 mem3.
Proof.
  intros [Hl12 H12] [Hl23 H23]. split; [congruence|]. intros k s1 Hs1.
  destruct (H12 k s1 Hs1) as (s2 & Hs2 & Hg12).
  destruct (H23 k s2 Hs2) as (s3 & Hs3 & Hg23).
  exists s3. split; [done|]. by eapply shard_grows_trans.
Qed.

Lemma layout_grows_alter (mem : list graph_shard) k
    (f : graph_shard → graph_shard) :
  (∀ s, shard_grows (shard_impl s) (shard_impl (f s))) →
  layout_grows mem (alter f k mem).
Proof.
  intros Hf. split; [apply length_alter|]. intros k' s Hs.
  destruct (decide (k = k')) as [->|Hne].
  - exists (f s). by rewrite list_lookup_alter_eq, Hs.
  - exists s. rewrite list_lookup_alter_ne by done.
    split; [done|apply shard_grows_refl].
Qed.

Lemma layout_grows_insert (mem : list graph_shard) k s s' :
  mem !! k = Some s →
  shard_grows (shard_impl s) (shard_impl s') →
  layout_grows mem (<[k := s']> mem).
Proof.
  intros Hs Hg. split; [apply length_insert|]. intros k' s0 Hs0.
  destruct (decide (k = k')) as [->|Hne].
  - exists s'. rewrite list_lookup_insert_eq by (by eapply lookup_lt_Some).
    split; [done|]. congruence.
  - exists s0. rewrite list_lookup_insert_ne by done.
    split; [done|apply shard_grows_refl].
Qed.

Lemma layout_grows_store_vertex_row (mem : list graph_shard) p r :
  layout_grows mem (store_vertex_row mem p r).
Proof. apply layout_grows_alter. intros s. by split_and!. Qed.

Lemma layout_grows_store_edge_row (mem : list graph_shard) p r :
  layout_grows mem (store_edge_row mem p r).
Proof. apply layout_grows_alter. intros s. by split_and!. Qed.

Lemma get_vertex_shards db v r db' :
  get_vertex db v = Some (r, db') → shards db' = shards db.
Proof.
  unfold graph_database_sharedmem.get_vertex. case_match.
  { by intros [= <- <-]. }
  intros Hget. apply bind_Some in Hget as (row & _ & Hget).
  destruct (subscript (vid2master db) v), (subscript (vid2mirrors db) v).
  by injection Hget as <- <-.
Qed.

Lemma layout_grows_commit_shard db shard db' shard' :
  commit_shard db shard = Some (db', shard') →
  layout_grows (shards db) (shards db').
Proof.
  unfold graph_database_sharedmem.commit_shard. intros Hc.
  apply bind_Some in Hc as (shard1 & _ & Hc).
  eapply (for_loopM_preserves
            (λ st, layout_grows (shards db) (shards st.1))) in Hc;
    [done|apply layout_grows_refl|].
  intros i [dbi shi] [dbj shj] _ Hl Hrow. simpl in *.
  unfold graph_database_sharedmem.commit_edge_row in Hrow.
  apply bind_Some in Hrow as (local & _ & Hrow).
  apply bind_Some in Hrow as (pos & _ & Hrow).
  apply bind_Some in Hrow as (origin & _ & Hrow).
  apply bind_Some in Hrow as ([local' origin'] & _ & Hrow).
  injection Hrow as <- <-. eapply layout_grows_trans; [done|].
  apply layout_grows_store_edge_row.
Qed.

Lemma layout_grows_add_vertex db v data b db' :
  add_vertex db v data = Some (b, db') →
  layout_grows (shards db) (shards db').
Proof.
  unfold graph_database_sharedmem.add_vertex. case_match.
  { intros [= <- <-]. apply layout_grows_refl. }
  case_bool_decide; [done|]. intros Hadd.
  apply bind_Some in Hadd as (s & Hs & Hadd). simpl in Hadd.
  injection Hadd as <- <-. simpl.
  eapply layout_grows_insert; [done|]. simpl.
  split_and!; try done. by apply prefix_app_r.
Qed.

Lemma layout_grows_store_edge db k source target row db' :
  graph_database_sharedmem.store_edge db k source target row = Some db' →
  layout_grows (shards db) (shards db').
Proof.
  unfold graph_database_sharedmem.store_edge. intros Hst.
  apply bind_Some in Hst as (s & Hs & Hst). simpl in Hst.
  apply bind_Some in Hst as (ei & Hei & Hst). injection Hst as <-. simpl.
  eapply layout_grows_insert; [done|]. simpl.
  split_and!; try done. by apply prefix_app_r.
Qed.

Lemma layout_grows_ensure_vertex db v db' :
  graph_database_sharedmem.ensure_vertex vid_hash db v = Some db' →
  layout_grows (shards db) (shards db').
Proof.
  unfold graph_database_sharedmem.ensure_vertex. case_match.
  { intros [= <-]. apply layout_grows_refl. }
  intros Hadd. apply fmap_Some in Hadd as ([b db2] & Hadd & ->).
  by eapply layout_grows_add_vertex.
Qed.

Lemma add_mirror_shards db v k : shards (add_mirror db v k) = shards db.
Proof. by destruct (add_mirror_effect db v k) as (? & _). Qed.

Lemma layout_grows_step o db db' :
  step o db = Some db' → layout_grows (shards db) (shards db').
Proof.
  destruct o; simpl; intros Hstep.
  - apply fmap_Some in Hstep as ([b db2] & Hadd & ->).
    by eapply layout_grows_add_vertex.
  - apply add_edge_Some in Hstep as (db1 & db2 & db3 & H1 & H2 & H3 & ->).
    rewrite !add_mirror_shards.
    eapply layout_grows_trans; [by eapply layout_grows_store_edge|].
    eapply layout_grows_trans; by eapply layout_grows_ensure_vertex.
  - injection Hstep as <-. unfold graph_database_sharedmem.get_master.
    destruct (subscript (vid2master db) v). apply layout_grows_refl.
  - apply fmap_Some in Hstep as ([r db2] & Hget & ->). simpl.
    rewrite (get_vertex_shards _ _ _ _ Hget). apply layout_grows_refl.
  - apply fmap_Some in Hstep as ([d db2] & Hget & ->). simpl.
    destruct (quiet_get_shard_contents_adj_to _ _ _ _ _ Hget) as [_ ->].
    apply layout_grows_refl.
  - apply fmap_Some in Hstep as ([db2 d] & Hc & ->).
    by eapply layout_grows_commit_shard.
  - apply fmap_Some in Hstep as (mem & Hw & ->). simpl.
    unfold graph_vertex_sharedmem.write_changes in Hw.
    apply bind_Some in Hw as (row & _ & [= <-]).
    apply layout_grows_store_vertex_row.
  - apply bind_Some in Hstep as (r0 & _ & [= <-]).
    apply layout_grows_store_vertex_row.
  - apply bind_Some in Hstep as (r0 & _ & [= <-]).
    apply layout_grows_store_edge_row.
Qed.

Lemma layout_grows_run ops db db' :
  run ops db = Some db' → layout_grows (shards db) (shards db').
Proof.
  revert db'. induction ops as [|o ops IH] using rev_ind; intros db'.
  - intros [= <-]. apply layout_grows_refl.
  - rewrite run_snoc. intros Hrun.
    apply bind_Some in Hrun as (db1 & Hrun & Hstep).
    eapply layout_grows_trans; [by apply IH|by eapply layout_grows_step].
Qed.

(** ** Beyond the claims: where the vertices are stored *)

Lemma quiet_entries db db' :
  graph_database_sharedmem.quiet db db' →
  Forall2 (λ s s', vertex (shard_impl s') = vertex (shard_impl s) ∧
                   edge (shard_impl s') = edge (shard_impl s))
    (shards db) (shards db').
Proof.
  intros [[Hlen Hsk] _ _ _ _ _ _ _ _].
  apply Forall2_same_length_lookup_2; [done|]. intros k s s' Hs Hs'.
  destruct (Hsk k s Hs) as (s1 & Hs1 & Hv & He & _).
  assert (s1 = s') as -> by congruence. done.
Qed.

Lemma vertices_placed_quiet db db' :
  graph_database_sharedmem.vertices_placed vid_hash db →
  graph_database_sharedmem.quiet db db' →
  graph_database_sharedmem.vertices_placed vid_hash db'.
Proof.
  intros Hp Hq k s' Hs'.
  destruct (Forall2_lookup_r _ _ _ _ _ (quiet_entries _ _ Hq) Hs')
    as (s & Hs & Hv & _).
  rewrite Hv, (graph_database_sharedmem.quiet_num_shards _ _ Hq).
  destruct (Hp k s Hs) as [Hnd Hin]. split; [done|]. intros v Hv'.
  rewrite (quiet_is_vertex _ _ v Hq). by apply Hin.
Qed.

Lemma vertices_placed_add_vertex db v data b db' :
  wf db →
  graph_database_sharedmem.vertices_placed vid_hash db →
  add_vertex db v data = Some (b, db') →
  graph_database_sharedmem.vertices_placed vid_hash db'.
Proof.
  intros Hwf Hp Hadd. destruct (decide (is_vertex db v)) as [Hv|Hv].
  { rewrite add_vertex_known in Hadd by done. by injection Hadd as <- <-. }
  destruct (add_vertex_effect _ _ _ _ _ Hadd) as (Hiv & _).
  destruct (add_vertex_new db v data Hwf Hv) as (s & Hs & Heq).
  rewrite Heq in Hadd. injection Hadd as <- <-.
  set (master := vid_hash v mod _num_shards db) in *.
  intros k s'. simpl. destruct (decide (master = k)) as [<-|Hne].
  - rewrite list_lookup_insert_eq by (by eapply lookup_lt_Some).
    intros [= <-]. simpl. destruct (Hp _ _ Hs) as [Hnd Hin]. split.
    + apply NoDup_app. split_and!; [done| |apply NoDup_singleton].
      intros w Hw ->%list_elem_of_singleton.
      by destruct (Hin _ Hw) as [? _].
    + intros w [Hw| ->%list_elem_of_singleton]%elem_of_app.
      * destruct (Hin _ Hw) as [Hvw Hk]. split; [|done].
        apply Hiv. by left.
      * split; [|done]. apply Hiv. by right.
  - rewrite list_lookup_insert_ne by done. intros Hs'.
    destruct (Hp _ _ Hs') as [Hnd Hin]. split; [done|]. intros w Hw.
    destruct (Hin _ Hw) as [Hvw Hk]. split; [|done]. apply Hiv. by left.
Qed.

Lemma vertices_placed_store_edge db k source target row db' :
  wf db → k < _num_shards db →
  graph_database_sharedmem.vertices_placed vid_hash db →
  graph_database_sharedmem.store_edge db k source target row = Some db' →
  graph_database_sharedmem.vertices_placed vid_hash db'.
Proof.
  intros Hwf Hk Hp Hst.
  destruct (store_edge_total db k source target row Hwf Hk)
    as (s & ei & Hs & _ & Heq).
  rewrite Heq in Hst. injection Hst as <-.
  intros k' s'. simpl. destruct (decide (k = k')) as [<-|Hne].
  - rewrite list_lookup_insert_eq by (by eapply lookup_lt_Some).
    intros [= <-]. simpl. apply (Hp _ _ Hs).
  - rewrite list_lookup_insert_ne by done. apply Hp.
Qed.

Lemma vertices_placed_add_mirror db v k :
  graph_database_sharedmem.vertices_placed vid_hash db →
  graph_database_sharedmem.vertices_placed vid_hash (add_mirror db v k).
Proof.
  intros Hp.
  destruct (add_mirror_effect db v k) as (Hsh & _ & Hidx & _ & _ & Hns & _).
  intros k' s'. rewrite Hsh, Hns.
  unfold graph_database_sharedmem.is_vertex. rewrite Hidx. apply Hp.
Qed.

Lemma vertices_placed_step o db db' :
  wf db →
  graph_database_sharedmem.vertices_placed vid_hash db →
  step o db = Some db' →
  graph_database_sharedmem.vertices_placed vid_hash db'.
Proof.
  intros Hwf Hp Hstep. pose proof (step_quiet o db db' Hstep) as Hq.
  destruct o; try (by eapply vertices_placed_quiet).
  - simpl in Hstep. apply fmap_Some in Hstep as ([b db2] & Hadd & ->).
    by eapply vertices_placed_add_vertex.
  - simpl in Hstep.
    apply add_edge_Some in Hstep as (db1 & db2 & db3 & H1 & H2 & H3 & ->).
    pose proof (graph_database_sharedmem.wf_num_shards _ _ Hwf) as Hn.
    assert (Hk : edge_hash (source, target) mod num_shards db
                 < _num_shards db) by (apply Nat.mod_upper_bound; lia).
    pose proof (wf_store_edge _ _ _ _ _ _ Hwf Hk H1) as Hwf1.
    pose proof (wf_ensure_vertex _ _ _ Hwf1 H2) as Hwf2.
    do 2 apply vertices_placed_add_mirror.
    unfold graph_database_sharedmem.ensure_vertex in H2, H3.
    assert (Hp1 : graph_database_sharedmem.vertices_placed vid_hash db1)
      by exact (vertices_placed_store_edge _ _ _ _ _ _ Hwf Hk Hp H1).
    assert (Hp2 : graph_database_sharedmem.vertices_placed vid_hash db2).
    { destruct (graph_vertex_index.has_vertex _ source);
        [by injection H2 as <-|].
      apply fmap_Some in H2 as ([b dbx] & Hadd & ->).
      exact (vertices_placed_add_vertex _ _ _ _ _ Hwf1 Hp1 Hadd). }
    destruct (graph_vertex_index.has_vertex _ target);
      [by injection H3 as <-|].
    apply fmap_Some in H3 as ([b dbx] & Hadd & ->).
    exact (vertices_placed_add_vertex _ _ _ _ _ Hwf2 Hp2 Hadd).
Qed.

(** An invariant of the steps that holds after the constructor holds in
    every reachable state. *)
Lemma reachable_ind (P : database → Prop) :
  (∀ vertex_fields edge_fields numshards,
     0 < numshards → P (create vertex_fields edge_fields numshards)) →
  (∀ o db db', wf db → P db → step o db = Some db' → P db') →
  ∀ db, graph_database_sharedmem.reachable vid_hash edge_hash npos db → P db.
Proof.
  intros Hinit Hstep db (vf & ef & n & ops & Hn & Hrun).
  revert db Hrun. induction ops as [|o ops IH] using rev_ind; intros db.
  - intros [= <-]. by apply Hinit.
  - rewrite run_snoc. intros Hrun.
    apply bind_Some in Hrun as (db1 & Hrun & Hst).
    eapply Hstep; [|by apply IH|done].
    eapply wf_run; [by apply wf_create|done].
Qed.

(** ** Beyond the claims: the edge entries and the edge index *)

Lemma add_vertex_edges db v data b db' :
  add_vertex db v data = Some (b, db') →
  Forall2 (λ s s', edge (shard_impl s') = edge (shard_impl s))
    (shards db) (shards db').
Proof.
  intros Hadd.
  destruct (add_vertex_effect _ _ _ _ _ Hadd)
    as (_ & _ & _ & _ & _ & _ & _ & _ & _ & Hlen & Hsh).
  apply Forall2_same_length_lookup_2; [done|]. intros k s s' Hs Hs'.
  destruct (Hsh k s Hs) as (s1 & Hs1 & He & _). congruence.
Qed.

Lemma ensure_vertex_edges db v db' :
  graph_database_sharedmem.ensure_vertex vid_hash db v = Some db' →
  Forall2 (λ s s', edge (shard_impl s') = edge (shard_impl s))
    (shards db) (shards db').
Proof.
  intros He.
  destruct (ensure_vertex_effect _ _ _ He)
    as (_ & _ & _ & _ & _ & _ & _ & _ & Hlen & Hsh).
  apply Forall2_same_length_lookup_2; [done|]. intros k s s' Hs Hs'.
  destruct (Hsh k s Hs) as (s1 & Hs1 & He1 & _). congruence.
Qed.

(** The edge entries and the edge index after add_edge: one more edge at the
    end of shard [k], listed for its two endpoints. *)
Lemma add_edge_entries db source target data db' :
  wf db → add_edge db source target data = Some db' →
  let k := edge_hash (source, target) mod num_shards db in
  ∃ sh ei,
    shards db !! k = Some sh ∧ edge_index db !! k = Some ei ∧
    edge_index db' =
      <[k := graph_edge_index.add_edge ei source target
               (length (edge (shard_impl sh)))]> (edge_index db) ∧
    length (shards db') = length (shards db) ∧
    ∀ k' x y, shards db !! k' = Some x → shards db' !! k' = Some y →
      edge (shard_impl y) =
      edge (shard_impl x) ++
        (if decide (k' = k) then [(source, target)] else []).
Proof.
  intros Hwf Hadd k.
  pose proof (graph_database_sharedmem.wf_num_shards _ _ Hwf) as Hn.
  assert (Hk : k < _num_shards db) by (apply Nat.mod_upper_bound; lia).
  destruct (add_edge_Some _ _ _ _ _ Hadd)
    as (db1 & db2 & db3 & H1 & H2 & H3 & ->). fold k in H1 |- *.
  set (row := set_is_vertex false
                (default (new_graph_row
                   (graph_database_sharedmem.edge_fields db)) data)) in *.
  destruct (store_edge_total db k source target row Hwf Hk)
    as (sh & ei & Hsh & Hei & H1').
  rewrite H1 in H1'. injection H1' as Hdb1.
  pose proof (ensure_vertex_edges _ _ _ H2) as He2.
  pose proof (ensure_vertex_edges _ _ _ H3) as He3.
  destruct (ensure_vertex_effect _ _ _ H2)
    as (_ & _ & _ & _ & _ & _ & _ & Hei2 & _).
  destruct (ensure_vertex_effect _ _ _ H3)
    as (_ & _ & _ & _ & _ & _ & _ & Hei3 & _).
  destruct (add_mirror_effect db3 source k) as (Hs4 & _ & _ & Hei4 & _).
  destruct (add_mirror_effect (add_mirror db3 source k) target k)
    as (Hs5 & _ & _ & Hei5 & _).
  assert (Hks : k < length (shards db)) by (by eapply lookup_lt_Some).
  exists sh, ei. split_and!; [done|done| | |].
  - rewrite Hei5, Hei4, Hei3, Hei2, Hdb1. done.
  - rewrite Hs5, Hs4, <- (Forall2_length _ _ _ He3),
      <- (Forall2_length _ _ _ He2), Hdb1. simpl. apply length_insert.
  - rewrite Hs5, Hs4. intros k' x y Hx Hy.
    destruct (Forall2_lookup_r _ _ _ _ _ He3 Hy) as (y2 & Hy2 & ->).
    destruct (Forall2_lookup_r _ _ _ _ _ He2 Hy2) as (y1 & Hy1 & ->).
    rewrite Hdb1 in Hy1. simpl in Hy1. case_decide as Hkk.
    + subst k'. rewrite list_lookup_insert_eq in Hy1 by done.
      injection Hy1 as <-. simpl. congruence.
    + rewrite list_lookup_insert_ne in Hy1 by done.
      rewrite app_nil_r. congruence.
Qed.

Lemma edge_index_exact_entries db db' :
  edge_index db' = edge_index db →
  Forall2 (λ s s', edge (shard_impl s') = edge (shard_impl s))
    (shards db) (shards db') →
  graph_database_sharedmem.edge_index_exact db →
  graph_database_sharedmem.edge_index_exact db'.
Proof.
  intros Hei Hedges Hex k s' ei Hs'. rewrite Hei. intros Hk.
  destruct (Forall2_lookup_r _ _ _ _ _ Hedges Hs') as (s & Hs & ->).
  by apply (Hex k s ei).
Qed.

Lemma edge_index_exact_add_edge db source target data db' :
  wf db → graph_database_sharedmem.edge_index_exact db →
  add_edge db source target data = Some db' →
  graph_database_sharedmem.edge_index_exact db'.
Proof.
  intros Hwf Hex Hadd.
  destruct (add_edge_entries _ _ _ _ _ Hwf Hadd)
    as (sh & ei & Hsh & Hei & Hidx & Hlen & Hedges).
  set (k := edge_hash (source, target) mod num_shards db) in *.
  intros k' s' ei' Hs' Hei'.
  destruct (lookup_lt_is_Some_2 (shards db) k') as [s Hs].
  { rewrite <- Hlen. by eapply lookup_lt_Some. }
  pose proof (Hedges k' s s' Hs Hs') as He. rewrite Hidx in Hei'.
  destruct (decide (k' = k)) as [->|Hne].
  2:{ rewrite list_lookup_insert_ne in Hei' by done.
      rewrite app_nil_r in He. rewrite He. by apply (Hex k' s ei'). }
  rewrite list_lookup_insert_eq in Hei' by (by eapply lookup_lt_Some).
  injection Hei' as <-. assert (s = sh) as -> by congruence.
  intros v. rewrite get_edge_index_add_edge, He. simpl.
  destruct (Hex k sh ei Hsh Hei v) as (Hnd1 & Hnd2 & Hp).
  set (pos := length (edge (shard_impl sh))).
  assert (Hfresh1 : pos ∉ (graph_edge_index.get_edge_index ei true true v).1).
  { intros Hin. apply (Hp pos) in Hin as [u Hu].
    apply lookup_lt_Some in Hu. unfold pos in Hu. lia. }
  assert (Hfresh2 : pos ∉ (graph_edge_index.get_edge_index ei true true v).2).
  { intros Hin. apply (Hp pos) in Hin as [u Hu].
    apply lookup_lt_Some in Hu. unfold pos in Hu. lia. }
  assert (Hlast : ∀ p e, (edge (shard_impl sh) ++ [(source, target)]) !! p
                         = Some e ↔
            edge (shard_impl sh) !! p = Some e ∨
            (p = pos ∧ e = (source, target))).
  { intros p e. rewrite lookup_app_Some, list_lookup_singleton_Some.
    unfold pos. split; [|intros [?|[-> ->]]; [by left|right]];
      [intros [?|(? & ? & ?)]; [by left|right; split; [lia|done]]|].
    split; [lia|]. split; [lia|done]. }
  split_and!.
  - case_decide; [|by rewrite app_nil_r].
    apply NoDup_app. split_and!; [done| |apply NoDup_singleton].
    by intros p Hin ->%list_elem_of_singleton.
  - case_decide; [|by rewrite app_nil_r].
    apply NoDup_app. split_and!; [done| |apply NoDup_singleton].
    by intros p Hin ->%list_elem_of_singleton.
  - intros p. destruct (Hp p) as [Hin Hout]. split.
    + rewrite elem_of_app, Hin. setoid_rewrite Hlast.
      case_decide; [rewrite list_elem_of_singleton|rewrite elem_of_nil];
        naive_solver.
    + rewrite elem_of_app, Hout. setoid_rewrite Hlast.
      case_decide; [rewrite list_elem_of_singleton|rewrite elem_of_nil];
        naive_solver.
Qed.

Lemma edge_index_exact_step o db db' :
  wf db → graph_database_sharedmem.edge_index_exact db →
  step o db = Some db' →
  graph_database_sharedmem.edge_index_exact db'.
Proof.
  intros Hwf Hex Hstep. pose proof (step_quiet o db db' Hstep) as Hq.
  destruct o;
    try (apply (edge_index_exact_entries db db');
         [apply (graph_database_sharedmem.quiet_edge_index _ _ Hq)
         |eapply Forall2_impl; [apply (quiet_entries _ _ Hq)|by intros ?? [_ ?]]
         |done]).
  - simpl in Hstep. apply fmap_Some in Hstep as ([b db2] & Hadd & ->).
    apply (edge_index_exact_entries db db2); [|by eapply add_vertex_edges|done].
    by destruct (add_vertex_effect _ _ _ _ _ Hadd)
      as (_ & _ & _ & _ & _ & _ & _ & ? & _).
  - by eapply edge_index_exact_add_edge.
Qed.

(** ** Beyond the claims: the mirror sets *)

Lemma touches_entries db db' k v :
  Forall2 (λ s s', edge (shard_impl s') = edge (shard_impl s))
    (shards db) (shards db') →
  graph_database_sharedmem.touches db' k v ↔
  graph_database_sharedmem.touches db k v.
Proof.
  intros Hedges. split.
  - intros (s' & p & e & Hs' & He & Hv).
    destruct (Forall2_lookup_r _ _ _ _ _ Hedges Hs') as (s & Hs & Heq).
    exists s, p, e. by rewrite <- Heq.
  - intros (s & p & e & Hs & He & Hv).
    destruct (Forall2_lookup_l _ _ _ _ _ Hedges Hs) as (s' & Hs' & Heq).
    exists s', p, e. by rewrite Heq.
Qed.

Lemma mirrors_exact_quiet db db' :
  graph_database_sharedmem.mirrors_exact db →
  graph_database_sharedmem.quiet db db' →
  graph_database_sharedmem.mirrors_exact db'.
Proof.
  intros [Hknown Hexact] Hq.
  assert (Hedges : Forall2
            (λ s s', edge (shard_impl s') = edge (shard_impl s))
            (shards db) (shards db')).
  { eapply Forall2_impl; [apply (quiet_entries _ _ Hq)|by intros ?? [_ ?]]. }
  split.
  - intros k v. rewrite (touches_entries _ _ _ _ Hedges),
      (quiet_is_vertex _ _ v Hq). apply Hknown.
  - intros k v. rewrite (touches_entries _ _ _ _ Hedges),
      (graph_database_sharedmem.quiet_mirrors_of _ _ Hq),
      (graph_database_sharedmem.quiet_master_of _ _ Hq). apply Hexact.
Qed.

Lemma mirrors_exact_add_vertex db v data b db' :
  graph_database_sharedmem.mirrors_exact db →
  add_vertex db v data = Some (b, db') →
  graph_database_sharedmem.mirrors_exact db'.
Proof.
  intros [Hknown Hexact] Hadd.
  pose proof (add_vertex_edges _ _ _ _ _ Hadd) as Hedges.
  destruct (add_vertex_effect _ _ _ _ _ Hadd)
    as (Hiv & Hb & Hmi & Hma & _).
  split.
  - intros k w. rewrite (touches_entries _ _ _ _ Hedges), Hiv.
    intros Ht. left. by eapply Hknown.
  - intros k w. rewrite (touches_entries _ _ _ _ Hedges), Hmi, Hexact.
    split; intros [Hne Ht]; (split; [|done]);
      pose proof (Hknown _ _ Ht) as Hw; by rewrite ?Hma in * by done.
Qed.

Lemma add_edge_mirrors db source target data db' :
  add_edge db source target data = Some db' →
  let k := edge_hash (source, target) mod num_shards db in
  ∀ w, mirrors_of db' w =
       mirrors_of db w ∪
       (if bool_decide ((w = source ∨ w = target) ∧ master_of db' w ≠ k)
        then {[k]} else ∅).
Proof.
  intros Hadd k w.
  destruct (add_edge_Some _ _ _ _ _ Hadd)
    as (db1 & db2 & db3 & H1 & H2 & H3 & ->). fold k.
  destruct (store_edge_effect _ _ _ _ _ _ H1) as (_ & _ & _ & Hmi1 & _).
  destruct (ensure_vertex_effect _ _ _ H2) as (_ & _ & Hmi2 & _).
  destruct (ensure_vertex_effect _ _ _ H3) as (_ & _ & Hmi3 & _).
  destruct (add_mirror_effect db3 source k)
    as (_ & _ & _ & _ & _ & _ & _ & Hmo4 & Hmi4).
  destruct (add_mirror_effect (add_mirror db3 source k) target k)
    as (_ & _ & _ & _ & _ & _ & _ & Hmo5 & Hmi5).
  assert (Hmi0 : mirrors_of db3 w = mirrors_of db w).
  { rewrite Hmi3, Hmi2. unfold graph_database_sharedmem.mirrors_of.
    by rewrite Hmi1. }
  rewrite Hmi5, Hmo5, !Hmo4, !Hmi4, Hmi0.
  repeat case_bool_decide; set_solver.
Qed.

Lemma mirrors_exact_add_edge db source target data db' :
  wf db → graph_database_sharedmem.mirrors_exact db →
  add_edge db source target data = Some db' →
  graph_database_sharedmem.mirrors_exact db'.
Proof.
  intros Hwf [Hknown Hexact] Hadd.
  destruct (add_edge_entries _ _ _ _ _ Hwf Hadd)
    as (sh & ei & Hsh & _ & _ & Hlen & Hedges).
  pose proof (add_edge_mirrors _ _ _ _ _ Hadd) as Hmi.
  set (k := edge_hash (source, target) mod num_shards db) in *.
  assert (Hiv : ∀ w, is_vertex db' w ↔
                     is_vertex db w ∨ source = w ∨ target = w).
  { intros w.
    apply (step_is_vertex
             (graph_database_sharedmem.Add_edge source target data)).
    done. }
  assert (Hma : ∀ w, is_vertex db w → master_of db' w = master_of db w).
  { intros w Hw.
    destruct (step_grows
                (graph_database_sharedmem.Add_edge source target data)
                db db' Hadd w) as [_ Hg]. by apply Hg. }
  assert (Htouch : ∀ k' w, graph_database_sharedmem.touches db' k' w ↔
            graph_database_sharedmem.touches db k' w ∨
            (k' = k ∧ (w = source ∨ w = target))).
  { intros k' w. split.
    - intros (y & p & e & Hy & He & Hw).
      destruct (lookup_lt_is_Some_2 (shards db) k') as [x Hx].
      { rewrite <- Hlen. by eapply lookup_lt_Some. }
      rewrite (Hedges k' x y Hx Hy) in He.
      apply lookup_app_Some in He as [He|[_ He]].
      { left. by exists x, p, e. }
      case_decide; [|by rewrite lookup_nil in He].
      apply list_lookup_singleton_Some in He as [_ <-]. right.
      simpl in Hw. naive_solver.
    - intros [(x & p & e & Hx & He & Hw)|[-> Hw]].
      + destruct (lookup_lt_is_Some_2 (shards db') k') as [y Hy].
        { rewrite Hlen. by eapply lookup_lt_Some. }
        exists y, p, e. rewrite (Hedges k' x y Hx Hy).
        split_and!; [done| |done]. by apply lookup_app_l_Some.
      + destruct (lookup_lt_is_Some_2 (shards db') k) as [y Hy].
        { rewrite Hlen. by eapply lookup_lt_Some. }
        exists y, (length (edge (shard_impl sh))), (source, target).
        rewrite (Hedges k sh y Hsh Hy), decide_True by done.
        split_and!; [done| |simpl; naive_solver].
        rewrite lookup_app_r by done. by rewrite Nat.sub_diag. }
  split.
  - intros k' w. rewrite Htouch, Hiv. intros [Ht|[_ [->| ->]]]; auto.
    left. by eapply Hknown.
  - intros k' w. rewrite Hmi, Htouch, elem_of_union, Hexact. split.
    + intros [[Hne Ht]|Hin].
      * split; [|by left]. rewrite Hma; [done|]. by eapply Hknown.
      * case_bool_decide as Hc; [|by apply not_elem_of_empty in Hin].
        apply elem_of_singleton in Hin as ->. destruct Hc as [Hw Hne].
        split; [by intros ?|by right].
    + intros [Hne [Ht|[-> Hw]]].
      * left. split; [|done]. rewrite <- Hma; [done|]. by eapply Hknown.
      * right. rewrite bool_decide_eq_true_2; [by apply elem_of_singleton|].
        split; [done|by intros ?].
Qed.

Lemma mirrors_exact_step o db db' :
  wf db → graph_database_sharedmem.mirrors_exact db →
  step o db = Some db' →
  graph_database_sharedmem.mirrors_exact db'.
Proof.
  intros Hwf Hex Hstep. pose proof (step_quiet o db db' Hstep) as Hq.
  destruct o; try (by eapply mirrors_exact_quiet).
  - simpl in Hstep. apply fmap_Some in Hstep as ([b db2] & Hadd & ->).
    by eapply mirrors_exact_add_vertex.
  - by eapply mirrors_exact_add_edge.
Qed.

(** ** Beyond the claims: the invariants of the stored graph *)

Lemma create_shard_lookup vertex_fields edge_fields numshards k s :
  shards (create vertex_fields edge_fields numshards) !! k = Some s →
  k < numshards ∧ s = mk_graph_shard (empty_shard_impl k).
Proof.
  rewrite create_shards, list_lookup_fmap. intros Hs.
  apply fmap_Some in Hs as (i & Hi & ->).
  apply lookup_seq in Hi as [-> Hlt]. done.
Qed.

Lemma create_not_touched vertex_fields edge_fields numshards k v :
  ¬ graph_database_sharedmem.touches
      (create vertex_fields edge_fields numshards) k v.
Proof.
  intros (s & p & e & Hs & He & _).
  apply create_shard_lookup in Hs as [_ ->]. by destruct p.
Qed.

Lemma reachable_run ops db db' :
  graph_database_sharedmem.reachable vid_hash edge_hash npos db →
  run ops db = Some db' →
  graph_database_sharedmem.reachable vid_hash edge_hash npos db'.
Proof.
  intros (vf & ef & n & ops0 & Hn & Hrun0) Hrun.
  exists vf, ef, n, (ops0 ++ ops). split; [done|].
  unfold graph_database_sharedmem.run in *.
  by rewrite foldl_app, Hrun0.
Qed.

Lemma reachable_primary db :
  graph_database_sharedmem.reachable vid_hash edge_hash npos db →
  graph_database_sharedmem.primary_shards db.
Proof.
  intros (vf & ef & n & ops & Hn & Hrun) k s' Hs'.
  destruct (layout_grows_run _ _ _ Hrun) as [Hlen Hgrow].
  destruct (lookup_lt_is_Some_2 (shards (create vf ef n)) k) as [s Hs].
  { rewrite <- Hlen. by eapply lookup_lt_Some. }
  destruct (Hgrow k s Hs) as (s1 & Hs1 & Hid & Heid & _).
  assert (s1 = s') as -> by congruence.
  apply create_shard_lookup in Hs as [_ ->].
  unfold graph_shard_id. by rewrite Hid, Heid.
Qed.

Lemma reachable_vertices_placed db :
  graph_database_sharedmem.reachable vid_hash edge_hash npos db →
  graph_database_sharedmem.vertices_placed vid_hash db.
Proof.
  apply (reachable_ind (graph_database_sharedmem.vertices_placed vid_hash)).
  - intros vf ef n Hn k s Hs. apply create_shard_lookup in Hs as [_ ->].
    simpl. split; [apply NoDup_nil_2|]. by intros v ?%elem_of_nil.
  - intros o db1 db2 Hwf Hp Hstep. by eapply vertices_placed_step.
Qed.

Lemma reachable_edge_index_exact db :
  graph_database_sharedmem.reachable vid_hash edge_hash npos db →
  graph_database_sharedmem.edge_index_exact db.
Proof.
  apply (reachable_ind graph_database_sharedmem.edge_index_exact).
  - intros vf ef n Hn k s ei Hs Hei v.
    apply create_shard_lookup in Hs as [_ ->]. simpl in Hei.
    apply lookup_replicate in Hei as [-> _].
    unfold graph_edge_index.get_edge_index. simpl.
    rewrite lookup_empty. simpl.
    split_and!; [apply NoDup_nil_2|apply NoDup_nil_2|].
    intros p. rewrite elem_of_nil, lookup_nil. naive_solver.
  - intros o db1 db2 Hwf Hp Hstep. by eapply edge_index_exact_step.
Qed.

Lemma reachable_mirrors_exact db :
  graph_database_sharedmem.reachable vid_hash edge_hash npos db →
  graph_database_sharedmem.mirrors_exact db.
Proof.
  apply (reachable_ind graph_database_sharedmem.mirrors_exact).
  - intros vf ef n Hn. split.
    + intros k v Ht. by apply create_not_touched in Ht.
    + intros k v. unfold graph_database_sharedmem.mirrors_of. simpl.
      rewrite lookup_empty. simpl. split; [by intros ?%not_elem_of_empty|].
      intros [_ Ht]. by apply create_not_touched in Ht.
  - intros o db1 db2 Hwf Hp Hstep. by eapply mirrors_exact_step.
Qed.

(** X1: in every reachable state, get_shard(k) for k below num_shards is the
    shard with the id k, and it is primary: its edgeid is empty. *)
Theorem shards_stay_primary db k :
  graph_database_sharedmem.reachable vid_hash edge_hash npos db →
  k < num_shards db →
  ∃ s, graph_database_sharedmem.get_shard db k = Some s ∧
       graph_shard_id s = k ∧ edgeid (shard_impl s) = [].
Proof.
  intros Hreach Hk. pose proof (reachable_wf _ Hreach) as Hwf.
  destruct (lookup_lt_is_Some_2 (shards db) k) as [s Hs].
  { by rewrite (graph_database_sharedmem.wf_shards _ _ Hwf). }
  exists s. split; [done|]. by apply (reachable_primary db Hreach).
Qed.

(** X2: no operation removes or moves an entry: after any sequence of
    operations every shard still has its id, and the vertex and the edge at
    a position of a shard are the ones that were there before. *)
Theorem entries_stay ops db db' k s :
  run ops db = Some db' →
  graph_database_sharedmem.get_shard db k = Some s →
  ∃ s', graph_database_sharedmem.get_shard db' k = Some s' ∧
    graph_shard_id s' = graph_shard_id s ∧
    shard_num_vertices s ≤ shard_num_vertices s' ∧
    shard_num_edges s ≤ shard_num_edges s' ∧
    (∀ p v, vertex (shard_impl s) !! p = Some v →
            vertex (shard_impl s') !! p = Some v) ∧
    (∀ p e, shard_edge s p = Some e → shard_edge s' p = Some e).
Proof.
  intros Hrun Hs. destruct (layout_grows_run _ _ _ Hrun) as [_ Hgrow].
  destruct (Hgrow k s Hs) as (s' & Hs' & Hid & _ & Hv & He).
  exists s'. unfold graph_shard_id, shard_num_vertices, shard_num_edges,
    shard_edge.
  split_and!; [done|done|by apply prefix_length|by apply prefix_length| |].
  - intros p v Hp. by eapply prefix_lookup_Some.
  - intros p e Hp. by eapply prefix_lookup_Some.
Qed.

(** X3: in every reachable state each vertex is stored exactly once, in its
    master shard hash(vid) mod num_shards; and every vid in the vertex
    entries of a shard is a vertex with that shard as its master. *)
Theorem vertex_stored_once db :
  graph_database_sharedmem.reachable vid_hash edge_hash npos db →
  (∀ v, is_vertex db v →
     ∃ s p, shards db !! (vid_hash v mod num_shards db) = Some s ∧
       vertex (shard_impl s) !! p = Some v ∧
       ∀ k' s' p', shards db !! k' = Some s' →
         vertex (shard_impl s') !! p' = Some v →
         k' = vid_hash v mod num_shards db ∧ p' = p) ∧
  (∀ k s p v, shards db !! k = Some s →
     vertex (shard_impl s) !! p = Some v →
     is_vertex db v ∧ master_of db v = k).
Proof.
  intros Hreach. pose proof (reachable_wf _ Hreach) as Hwf.
  pose proof (reachable_vertices_placed _ Hreach) as Hp.
  assert (Hin : ∀ k s p v, shards db !! k = Some s →
            vertex (shard_impl s) !! p = Some v →
            is_vertex db v ∧ k = vid_hash v mod num_shards db).
  { intros k s p v Hs Hv. destruct (Hp k s Hs) as [_ Hall].
    apply Hall. by eapply list_elem_of_lookup_2. }
  split.
  - intros v Hv. apply is_vertex_lookup in Hv as [i Hi].
    destruct (graph_database_sharedmem.wf_store _ _ Hwf v i Hi)
      as (p & s & _ & Hs & Hvp).
    exists s, p. split_and!; [done|done|]. intros k' s' p' Hs' Hvp'.
    destruct (Hin _ _ _ _ Hs' Hvp') as [_ ->]. split; [done|].
    assert (s' = s) as ->
      by (unfold graph_database_sharedmem.num_shards in *; congruence).
    destruct (Hp _ _ Hs) as [Hnd _]. by eapply NoDup_lookup.
  - intros k s p v Hs Hv. destruct (Hin _ _ _ _ Hs Hv) as [Hvv ->].
    split; [done|]. by apply wf_master_of.
Qed.

(** X4: in every reachable state the edge index of a shard is exact: the
    incoming list of v holds the positions of the edges of the shard with
    target v, the outgoing list those of the edges with source v, and no
    position is listed twice. *)
Theorem edge_index_is_exact db k s ei v :
  graph_database_sharedmem.reachable vid_hash edge_hash npos db →
  shards db !! k = Some s → edge_index db !! k = Some ei →
  let index := graph_edge_index.get_edge_index ei true true v in
  NoDup index.1 ∧ NoDup index.2 ∧
  (∀ p, p ∈ index.1 ↔ ∃ u, shard_edge s p = Some (u, v)) ∧
  (∀ p, p ∈ index.2 ↔ ∃ w, shard_edge s p = Some (v, w)).
Proof.
  intros Hreach Hs Hei index.
  destruct (reachable_edge_index_exact _ Hreach k s ei Hs Hei v)
    as (Hnd1 & Hnd2 & Hp).
  split_and!; [done|done| |]; intros p; by destruct (Hp p).
Qed.

(** X5: in every reachable state the endpoints of every stored edge are
    vertices, and the mirror set of a vertex holds exactly the shards other
    than its master that store an edge touching it. *)
Theorem mirrors_are_exact db :
  graph_database_sharedmem.reachable vid_hash edge_hash npos db →
  (∀ k s p e, shards db !! k = Some s → shard_edge s p = Some e →
     is_vertex db e.1 ∧ is_vertex db e.2) ∧
  (∀ k v, k ∈ mirrors_of db v ↔
     is_vertex db v ∧ k ≠ vid_hash v mod num_shards db ∧
     ∃ s p e, shards db !! k = Some s ∧ shard_edge s p = Some e ∧
              (e.1 = v ∨ e.2 = v)).
Proof.
  intros Hreach. pose proof (reachable_wf _ Hreach) as Hwf.
  destruct (reachable_mirrors_exact _ Hreach) as [Hknown Hexact].
  split.
  - intros k s p e Hs He.
    split; apply (Hknown k); exists s, p, e; auto.
  - intros k v. rewrite Hexact. split.
    + intros [Hne Ht]. pose proof (Hknown _ _ Ht) as Hv.
      rewrite (wf_master_of _ _ Hwf Hv) in Hne. done.
    + intros (Hv & Hne & Ht). rewrite (wf_master_of _ _ Hwf Hv). done.
Qed.

(** X6: in every reachable state the slice get_shard_contents_adj_to(a, b)
    holds exactly the edges of shard b that touch a vertex whose master
    shard is a: a position of shard b is in the edgeid of the slice iff one
    endpoint of the edge at that position has the master a. *)
Theorem slice_by_master db a b d db' :
  graph_database_sharedmem.reachable vid_hash edge_hash npos db →
  a < num_shards db → b < num_shards db →
  get_shard_contents_adj_to db a b = Some (d, db') →
  ∀ p, p ∈ edgeid (shard_impl d) ↔
    ∃ origin e v,
      graph_database_sharedmem.get_shard db b = Some origin ∧
      shard_edge origin p = Some e ∧
      (e.1 = v ∨ e.2 = v) ∧ master_of db v = a.
Proof.
  intros Hreach Ha Hb Hget p.
  pose proof (reachable_wf _ Hreach) as Hwf.
  pose proof (reachable_vertices_placed _ Hreach) as Hplaced.
  destruct (reachable_mirrors_exact _ Hreach) as [Hknown Hexact].
  destruct (get_shard_contents_adj_to_slice db a b Hwf Ha Hb)
    as (d0 & db0 & src & origin & ei & Hget0 & Hsrc & Horigin & Hei & _ &
        _ & Heid & _).
  rewrite Hget in Hget0. injection Hget0 as <- <-.
  pose proof (reachable_edge_index_exact _ Hreach b origin ei Horigin Hei)
    as Hindex.
  rewrite Heid. unfold graph_database_sharedmem.adjacent_positions.
  rewrite Hsrc, Hei, list_elem_of_bind.
  unfold graph_database_sharedmem.get_shard, shard_edge. split.
  - intros (v & Hp & Hv). destruct (Hplaced a src Hsrc) as [_ Hall].
    destruct (Hall v Hv) as [Hvv Hav].
    destruct (graph_database_sharedmem.passes_filter db a b v); [|
      by apply elem_of_nil in Hp].
    destruct (Hindex v) as (_ & _ & Hpos). destruct (Hpos p) as [Hin Hout].
    assert (Hm : master_of db v = a) by (rewrite Hav; by apply wf_master_of).
    apply elem_of_app in Hp as [Hp|Hp].
    + apply Hin in Hp as [u Hu]. exists origin, (u, v), v. auto.
    + apply Hout in Hp as [w Hw]. exists origin, (v, w), v. auto.
  - intros (origin' & e & v & Ho & He & Hv & Hm).
    assert (origin' = origin) as -> by congruence.
    assert (Ht : graph_database_sharedmem.touches db b v)
      by (by exists origin, p, e).
    pose proof (Hknown _ _ Ht) as Hvv.
    pose proof (wf_master_of _ _ Hwf Hvv) as Hmaster.
    apply is_vertex_lookup in Hvv as [i Hi].
    destruct (graph_database_sharedmem.wf_store _ _ Hwf v i Hi)
      as (q & s & _ & Hs & Hq).
    unfold graph_database_sharedmem.num_shards in Hmaster.
    rewrite <- Hmaster, Hm, Hsrc in Hs. injection Hs as <-.
    exists v. split; [|by eapply list_elem_of_lookup_2].
    assert (graph_database_sharedmem.passes_filter db a b v = true) as ->.
    { unfold graph_database_sharedmem.passes_filter.
      apply orb_true_iff. rewrite !bool_decide_eq_true.
      destruct (decide (a = b)) as [Hab|Hab]; [by left|right].
      apply Hexact. split; [congruence|done]. }
    destruct (Hindex v) as (_ & _ & Hpos). destruct (Hpos p) as [Hin Hout].
    apply elem_of_app. destruct e as [u w]. simpl in Hv.
    destruct Hv as [->| ->]; [right; apply Hout|left; apply Hin]; eauto.
Qed.

(** ** Beyond the claims: the constructor, the fine grained reads *)

(** X7: the constructor gives an empty database: the shard count is the
    argument, there are no vertices and no edges, shard k is the empty shard
    with the id k, no vid is a vertex, and get_vertex returns NULL for every
    vid and leaves the database as it is. *)
Theorem constructor_fresh (vertex_fields edge_fields : list graph_field)
    numshards :
  let db := create vertex_fields edge_fields numshards in
  num_shards db = numshards ∧
  num_vertices db = 0%N ∧
  num_edges db = 0%N ∧
  graph_database_sharedmem.get_vertex_fields db = vertex_fields ∧
  graph_database_sharedmem.get_edge_fields db = edge_fields ∧
  (∀ k, graph_database_sharedmem.get_shard db k =
        if decide (k < numshards)
        then Some (mk_graph_shard (empty_shard_impl k)) else None) ∧
  (∀ v, ¬ is_vertex db v) ∧
  (∀ v, get_vertex db v = Some (None, db)) ∧
  (∀ v, (get_master db v).1 = 0).
Proof.
  intros db. split_and!; try done.
  - intros k. unfold graph_database_sharedmem.get_shard, db.
    rewrite create_shards, list_lookup_fmap. case_decide as Hk.
    + by rewrite (lookup_seq_lt _ _ _ Hk).
    + rewrite lookup_seq_ge by lia. done.
  - intros v. unfold graph_database_sharedmem.get_vertex,
      graph_vertex_index.get_index. simpl. rewrite lookup_empty.
    assert ((N.of_nat 0 <=? npos)%N = true) as -> by (apply N.leb_le; lia).
    done.
Qed.

(** X8: add_vertex and then get_vertex.  A vid that is new is inserted
    without a change to the edge index, the edge counter or any mirror set,
    and get_vertex then returns a handle for it whose master is hash(vid) mod
    num_shards, whose shard list is empty, and whose row is the copy of the
    inserted row (the given one, or a row of null values) that the master
    shard stores. *)
Theorem add_vertex_then_get_vertex db v data :
  wf db → ¬ is_vertex db v →
  let row := set_is_vertex true
               (default (new_graph_row
                  (graph_database_sharedmem.vertex_fields db)) data) in
  ∃ db' h db'',
    add_vertex db v data = Some (true, db') ∧
    edge_index db' = edge_index db ∧
    num_edges db' = num_edges db ∧
    (∀ w, mirrors_of db' w = mirrors_of db w) ∧
    get_vertex db' v = Some (Some h, db'') ∧
    graph_vertex_sharedmem.get_id h = v ∧
    graph_vertex_sharedmem.master_shard h = vid_hash v mod num_shards db ∧
    graph_vertex_sharedmem.get_shard_list h = [] ∧
    graph_vertex_sharedmem.get_num_shards h = 1 ∧
    shards db'' = shards db' ∧
    load_vertex_row (shards db'') (graph_vertex_sharedmem.data h)
      = Some (row_deepcopy row).
Proof.
  intros Hwf Hnew row.
  destruct (add_vertex_new db v data Hwf Hnew) as (s & Hs & Hadd).
  set (master := vid_hash v mod _num_shards db) in *.
  fold row in Hadd.
  assert (Hms : mirrors_of db v = ∅).
  { apply set_eq. intros k. split; [|by intros ?%not_elem_of_empty].
    intros Hk. destruct Hnew.
    by destruct (graph_database_sharedmem.wf_mirrors _ _ Hwf v k Hk). }
  pose proof (subscript_fst (vid2mirrors db) v) as Hfst.
  destruct (subscript (vid2mirrors db) v) as [ms ms1] eqn:Hsub.
  simpl in Hfst.
  eexists _, _, _. split; [exact Hadd|].
  do 3 (split; [done|]).
  unfold graph_database_sharedmem.get_vertex,
    graph_vertex_index.get_index, graph_vertex_index.add_vertex. simpl.
  rewrite lookup_insert_eq.
  assert ((N.of_nat (length (vertex_store db ++ [(master,
             length (vertex (shard_impl s)))])) <=?
           N.of_nat (length (vertex_store db)))%N = false) as ->.
  { apply N.leb_gt. rewrite length_app. simpl. lia. }
  rewrite Nat2N.id, lookup_app_r, Nat.sub_diag by done. simpl.
  unfold subscript at 1. rewrite lookup_insert_eq, Hsub.
  split; [reflexivity|]. simpl.
  unfold graph_vertex_sharedmem.get_shard_list,
    graph_vertex_sharedmem.get_num_shards,
    graph_vertex_sharedmem.master_shard, graph_vertex_sharedmem.data. simpl.
  assert (ms = ∅) as -> by (rewrite Hfst; exact Hms).
  split_and!; try done.
  unfold load_vertex_row, shard_vertex_data. simpl.
  rewrite list_lookup_insert_eq by (by eapply lookup_lt_Some). simpl.
  destruct (graph_database_sharedmem.wf_shape _ _ Hwf _ _ Hs) as [Hlen _].
  rewrite lookup_app_r by lia. by rewrite Hlen, Nat.sub_diag.
Qed.

(** The master that is reported for a vid that is not a vertex is the
    default, shard 0. *)
Lemma reachable_unknown_master db :
  graph_database_sharedmem.reachable vid_hash edge_hash npos db →
  ∀ v, ¬ is_vertex db v → master_of db v = 0.
Proof.
  apply (reachable_ind (λ db, ∀ v, ¬ is_vertex db v → master_of db v = 0)).
  - intros vf ef n Hn v _. unfold graph_database_sharedmem.master_of.
    simpl. by rewrite lookup_empty.
  - intros o db1 db2 Hwf IH Hstep v Hv.
    pose proof (step_is_vertex _ _ _ v Hstep) as Hiff.
    assert (Hv1 : ¬ is_vertex db1 v) by (intros H; apply Hv, Hiff; auto).
    assert (Hadds : ¬ adds v o) by (intros H; apply Hv, Hiff; auto).
    rewrite <- (IH v Hv1).
    pose proof (step_quiet _ _ _ Hstep) as Hq.
    destruct o as [w data|source target data| | | | | | |]; simpl in *;
      try by apply (graph_database_sharedmem.quiet_master_of _ _ Hq).
    + apply fmap_Some in Hstep as ([b db'] & Hadd & ->). simpl.
      destruct (decide (is_vertex db1 w)) as [Hw|Hw].
      * rewrite add_vertex_known in Hadd by done. by injection Hadd as <- <-.
      * destruct (add_vertex_new db1 w data Hwf Hw) as (s & _ & Hadd').
        rewrite Hadd' in Hadd. injection Hadd as <- <-.
        unfold graph_database_sharedmem.master_of. simpl.
        by rewrite lookup_insert_ne.
    + apply add_edge_Some in Hstep as (d1 & d2 & d3 & H1 & H2 & H3 & ->).
      destruct (add_mirror_effect
        (add_mirror d3 source (edge_hash (source, target) mod num_shards db1))
        target (edge_hash (source, target) mod num_shards db1))
        as (_ & _ & _ & _ & _ & _ & _ & -> & _).
      destruct (add_mirror_effect d3 source
        (edge_hash (source, target) mod num_shards db1))
        as (_ & _ & _ & _ & _ & _ & _ & -> & _).
      destruct (store_edge_effect _ _ _ _ _ _ H1) as (_ & Hidx1 & Hm1 & _).
      assert (Hens : ∀ d d' w, w ≠ v →
                graph_database_sharedmem.ensure_vertex vid_hash d w = Some d' →
                wf d → master_of d' v = master_of d v).
      { intros d d' w Hne He Hwfd.
        unfold graph_database_sharedmem.ensure_vertex in He.
        case_match eqn:Hhas; [by injection He as <-|].
        apply fmap_Some in He as ([b dx] & Hadd & ->). simpl.
        assert (Hw : ¬ is_vertex d w).
        { unfold graph_database_sharedmem.is_vertex. by rewrite Hhas. }
        destruct (add_vertex_new d w None Hwfd Hw) as (s & _ & Hadd').
        rewrite Hadd' in Hadd. injection Hadd as <- <-.
        unfold graph_database_sharedmem.master_of. simpl.
        by rewrite lookup_insert_ne. }
      assert (Hwf1 : wf d1).
      { eapply wf_store_edge; [exact Hwf| |exact H1].
        apply Nat.mod_upper_bound.
        pose proof (graph_database_sharedmem.wf_num_shards _ _ Hwf).
        unfold graph_database_sharedmem.num_shards. lia. }
      assert (Hwf2 : wf d2) by (by eapply wf_ensure_vertex).
      rewrite (Hens d2 d3 target), (Hens d1 d2 source);
        [|naive_solver|done|done|naive_solver|done|done].
      unfold graph_database_sharedmem.master_of. by rewrite Hm1.
Qed.

(** X9: get_master in a reachable state.  For a vertex it returns hash(vid)
    mod num_shards and leaves the database as it is.  For any other vid it
    returns shard 0, whatever the hash; the vid is still not a vertex
    afterwards, and a second call returns the same and changes nothing. *)
Theorem get_master_spec db v :
  graph_database_sharedmem.reachable vid_hash edge_hash npos db →
  (is_vertex db v →
   get_master db v = (vid_hash v mod num_shards db, db)) ∧
  (¬ is_vertex db v →
   (get_master db v).1 = 0 ∧
   ¬ is_vertex (get_master db v).2 v ∧
   shards (get_master db v).2 = shards db ∧
   ((num_vertices db ≤ npos)%N →
    get_vertex (get_master db v).2 v = Some (None, (get_master db v).2))) ∧
  get_master (get_master db v).2 v = get_master db v.
Proof.
  intros Hreach. pose proof (reachable_wf _ Hreach) as Hwf.
  split_and!.
  - intros Hv. unfold graph_database_sharedmem.get_master, subscript.
    rewrite (graph_database_sharedmem.wf_master _ _ Hwf v Hv).
    by destruct db.
  - intros Hv. pose proof (quiet_get_master db v) as Hq.
    assert (Hv' : ¬ is_vertex (get_master db v).2 v)
      by (by rewrite (quiet_is_vertex _ _ v Hq)).
    split_and!; [| done | |].
    + unfold graph_database_sharedmem.get_master.
      pose proof (subscript_fst (vid2master db) v) as Hm.
      destruct (subscript (vid2master db) v) as [m m1]. simpl in *.
      rewrite Hm. by apply (reachable_unknown_master db Hreach).
    + unfold graph_database_sharedmem.get_master.
      by destruct (subscript (vid2master db) v).
    + intros Hge. unfold graph_database_sharedmem.get_vertex,
        graph_vertex_index.get_index.
      apply not_is_vertex_lookup in Hv'. rewrite Hv'.
      rewrite (graph_database_sharedmem.quiet_vertex_store _ _ Hq).
      assert ((N.of_nat (length (vertex_store db)) <=? npos)%N = true) as ->.
      { apply N.leb_le. unfold graph_database_sharedmem.num_vertices in Hge.
        lia. }
      done.
  - unfold graph_database_sharedmem.get_master.
    pose proof (subscript_snd_eq (vid2master db) v) as Heq.
    destruct (subscript (vid2master db) v) as [m m1]. simpl in *.
    unfold subscript. rewrite Heq. done.
Qed.

(** ** Beyond the claims: the counters *)

Lemma sum_list_fmap_insert {A} (f : A → nat) (l : list A) k x y :
  l !! k = Some x →
  sum_list (f <$> <[k := y]> l) + f x = sum_list (f <$> l) + f y.
Proof.
  revert k. induction l as [|a l IH]; intros [|k] Hk; simplify_eq/=.
  - lia.
  - specialize (IH k Hk). lia.
Qed.

Lemma sum_list_fmap_Forall2 {A} (f : A → nat) (l l' : list A) :
  Forall2 (λ x y, f y = f x) l l' →
  sum_list (f <$> l') = sum_list (f <$> l).
Proof.
  induction 1 as [|x y l l' Hxy _ IH]; csimpl; [done|]. by rewrite Hxy, IH.
Qed.

Lemma counters_agree_quiet db db' :
  counters_agree db → graph_database_sharedmem.quiet db db' →
  counters_agree db'.
Proof.
  intros (Hv & Hi & He) Hq. pose proof (quiet_entries _ _ Hq) as Hent.
  unfold counters_agree, graph_database_sharedmem.total_vertices,
    graph_database_sharedmem.total_edges in *.
  rewrite (graph_database_sharedmem.quiet_vertex_store _ _ Hq),
    (graph_database_sharedmem.quiet_vertex_index _ _ Hq),
    (graph_database_sharedmem.quiet_num_edges _ _ Hq).
  rewrite (sum_list_fmap_Forall2 shard_num_vertices (shards db) (shards db')),
    (sum_list_fmap_Forall2 shard_num_edges (shards db) (shards db')); [done| |].
  - eapply Forall2_impl; [exact Hent|]. intros s s' [_ Hedge].
    unfold shard_num_edges. by rewrite Hedge.
  - eapply Forall2_impl; [exact Hent|]. intros s s' [Hvertex _].
    unfold shard_num_vertices. by rewrite Hvertex.
Qed.

Lemma counters_agree_add_vertex db v data b db' :
  wf db → counters_agree db → add_vertex db v data = Some (b, db') →
  counters_agree db'.
Proof.
  intros Hwf (Hv & Hi & He) Hadd.
  destruct (decide (is_vertex db v)) as [Hknown|Hnew].
  { rewrite add_vertex_known in Hadd by done. by injection Hadd as <- <-. }
  destruct (add_vertex_new db v data Hwf Hnew) as (s & Hs & Hadd').
  rewrite Hadd' in Hadd. injection Hadd as <- <-.
  unfold counters_agree, graph_database_sharedmem.total_vertices,
    graph_database_sharedmem.total_edges in *. simpl.
  set (s' := mk_graph_shard _).
  pose proof (sum_list_fmap_insert shard_num_vertices _ _ _ s' Hs) as Hsv.
  pose proof (sum_list_fmap_insert shard_num_edges _ _ _ s' Hs) as Hse.
  assert (Hnv : shard_num_vertices s' = shard_num_vertices s + 1).
  { unfold shard_num_vertices. simpl. rewrite length_app. done. }
  assert (Hne : shard_num_edges s' = shard_num_edges s) by done.
  split_and!.
  - rewrite length_app. simpl. lia.
  - rewrite length_app. simpl.
    rewrite map_size_insert_None by (by apply not_is_vertex_lookup). lia.
  - rewrite He. do 2 f_equal. lia.
Qed.

Lemma counters_agree_ensure_vertex db v db' :
  wf db → counters_agree db →
  graph_database_sharedmem.ensure_vertex vid_hash db v = Some db' →
  counters_agree db'.
Proof.
  intros Hwf Hc He. unfold graph_database_sharedmem.ensure_vertex in He.
  case_match; [by injection He as <-|].
  apply fmap_Some in He as ([b dx] & Hadd & ->).
  by eapply counters_agree_add_vertex.
Qed.

Lemma counters_agree_add_mirror db v k :
  counters_agree db → counters_agree (add_mirror db v k).
Proof.
  destruct (add_mirror_effect db v k) as (Hs & Hst & Hi & _ & He & _).
  unfold counters_agree, graph_database_sharedmem.total_vertices,
    graph_database_sharedmem.total_edges. by rewrite Hs, Hst, Hi, He.
Qed.

Lemma counters_agree_store_edge db k source target row db' :
  wf db → k < _num_shards db → counters_agree db →
  graph_database_sharedmem.store_edge db k source target row = Some db' →
  counters_agree db'.
Proof.
  intros Hwf Hk (Hv & Hi & He) Hst.
  destruct (store_edge_total db k source target row Hwf Hk)
    as (s & ei & Hs & _ & Hst').
  rewrite Hst' in Hst. injection Hst as <-.
  unfold counters_agree, graph_database_sharedmem.total_vertices,
    graph_database_sharedmem.total_edges in *. simpl.
  set (s' := mk_graph_shard _).
  pose proof (sum_list_fmap_insert shard_num_vertices _ _ _ s' Hs) as Hsv.
  pose proof (sum_list_fmap_insert shard_num_edges _ _ _ s' Hs) as Hse.
  assert (Hnv : shard_num_vertices s' = shard_num_vertices s) by done.
  assert (Hne : shard_num_edges s' = shard_num_edges s + 1).
  { unfold shard_num_edges. simpl. rewrite length_app. done. }
  split_and!; [lia|done|].
  rewrite He.
  replace (sum_list (shard_num_edges <$> <[k:=s']> (shards db)))
    with (sum_list (shard_num_edges <$> shards db) + 1) by lia.
  rewrite Nat2N.inj_add. change (N.of_nat 1) with 1%N.
  rewrite N.Div0.add_mod_idemp_l. done.
Qed.

Lemma counters_agree_step o db db' :
  wf db → counters_agree db → step o db = Some db' → counters_agree db'.
Proof.
  intros Hwf Hc Hstep. pose proof (step_quiet _ _ _ Hstep) as Hq.
  destruct o as [v data|source target data| | | | | | |];
    try by eapply counters_agree_quiet.
  - simpl in Hstep. apply fmap_Some in Hstep as ([b dx] & Hadd & ->).
    by eapply counters_agree_add_vertex.
  - simpl in Hstep.
    apply add_edge_Some in Hstep as (d1 & d2 & d3 & H1 & H2 & H3 & ->).
    assert (Hk : edge_hash (source, target) mod num_shards db
                 < _num_shards db).
    { apply Nat.mod_upper_bound.
      pose proof (graph_database_sharedmem.wf_num_shards _ _ Hwf).
      unfold graph_database_sharedmem.num_shards. lia. }
    pose proof (wf_store_edge _ _ _ _ _ _ Hwf Hk H1) as Hwf1.
    pose proof (wf_ensure_vertex _ _ _ Hwf1 H2) as Hwf2.
    do 2 apply counters_agree_add_mirror.
    eapply counters_agree_ensure_vertex; [exact Hwf2| |exact H3].
    eapply counters_agree_ensure_vertex; [exact Hwf1| |exact H2].
    exact (counters_agree_store_edge _ _ _ _ _ _ Hwf Hk Hc H1).
Qed.

Lemma reachable_counters_agree db :
  graph_database_sharedmem.reachable vid_hash edge_hash npos db →
  counters_agree db.
Proof.
  apply (reachable_ind counters_agree).
  - intros vf ef n Hn.
    unfold counters_agree, graph_database_sharedmem.total_vertices,
      graph_database_sharedmem.total_edges.
    rewrite create_shards, <- !list_fmap_compose. simpl.
    assert (Hzero : ∀ l : list nat, sum_list ((λ _, 0) <$> l) = 0)
      by (induction l as [|x l IH]; csimpl; [done|exact IH]).
    split_and!; [|done|].
    + symmetry. apply Hzero.
    + unfold compose, shard_num_edges. simpl. by rewrite Hzero.
  - intros o db1 db2 Hwf Hp Hstep. by eapply counters_agree_step.
Qed.

(** X10: in every reachable state num_vertices() is the number of vertex
    entries that the shards store and the number of vids in the vertex
    index, and num_edges() is the number of edge entries that the shards
    store, modulo 2^64. *)
Theorem counters_exact db :
  graph_database_sharedmem.reachable vid_hash edge_hash npos db →
  num_vertices db =
    N.of_nat (sum_list (shard_num_vertices <$> shards db)) ∧
  num_vertices db =
    N.of_nat (size (graph_vertex_index.index_map (vertex_index db))) ∧
  num_edges db =
    (N.of_nat (sum_list (shard_num_edges <$> shards db)) mod SIZE_MOD)%N.
Proof.
  intros Hreach. destruct (reachable_counters_agree db Hreach) as (Hv & Hi & He).
  unfold graph_database_sharedmem.num_vertices,
    graph_database_sharedmem.num_edges.
  split_and!.
  - by rewrite Hv.
  - by rewrite Hi.
  - exact He.
Qed.

(** ** Beyond the claims: what a commit writes *)

Lemma row_eq (r r' : graph_row) :
  _is_vertex r = _is_vertex r' →
  (∀ j, get_field r j = get_field r' j) → r = r'.
Proof.
  destruct r as [b l], r' as [b' l']. unfold get_field. simpl.
  intros -> Hl. f_equal. by apply list_eq.
Qed.

Lemma get_field_set_field_eq (r : graph_row) i x :
  i < num_fields r → get_field (set_field r i x) i = Some x.
Proof.
  intros Hi. unfold get_field, set_field. simpl.
  by apply list_lookup_insert_eq.
Qed.

Lemma get_field_set_field_ne (r : graph_row) i j x :
  j ≠ i → get_field (set_field r i x) j = get_field r j.
Proof.
  intros Hne. unfold get_field, set_field. simpl.
  by apply list_lookup_insert_ne.
Qed.

Lemma commit_row_fields (r : graph_row) :
  for_loop (num_fields r) commit_field r = commit_row r.
Proof. apply for_loop_commit_field. Qed.

Lemma get_field_commit_row (r : graph_row) j :
  get_field (commit_row r) j = commit_value <$> get_field r j.
Proof. unfold get_field, commit_row. simpl. by rewrite list_lookup_fmap. Qed.

Lemma get_field_commit_into (local origin : graph_row) j :
  get_field (commit_into local origin) j =
  o ← get_field origin j;
  Some (match get_field local j with
        | Some x => if get_modified x
                    then value_deepcopy (post_commit_state x) else o
        | None => o
        end).
Proof.
  unfold get_field at 1, commit_into. simpl. rewrite list_lookup_imap.
  change (get_field origin j) with (_data origin !! j).
  by destruct (_data origin !! j).
Qed.

Lemma num_fields_commit_into (local origin : graph_row) :
  num_fields (commit_into local origin) = num_fields origin.
Proof. unfold num_fields, commit_into. simpl. apply length_imap. Qed.


(** The loop over the fields of a local edge row and its origin row. *)
Lemma commit_edge_fields (local origin : graph_row) :
  (∀ j x, get_field local j = Some x → get_modified x = true →
          j < num_fields origin) →
  for_loopM (num_fields local) graph_database_sharedmem.commit_edge_field
    (local, origin) = Some (commit_row local, commit_into local origin).
Proof.
  intros Hfields.
  set (P := λ n (st : graph_row * graph_row),
    (_is_vertex st.1 = _is_vertex local ∧
     ∀ j, get_field st.1 j =
          if decide (j < n) then commit_value <$> get_field local j
          else get_field local j) ∧
    (_is_vertex st.2 = _is_vertex origin ∧
     ∀ j, get_field st.2 j =
          if decide (j < n) then get_field (commit_into local origin) j
          else get_field origin j)).
  destruct (for_loopM_inv P (num_fields local)
              graph_database_sharedmem.commit_edge_field (local, origin))
    as ([l o] & Hloop & [[Hlb Hl] [Hob Ho]]).
  - split; (split; [done|]); intros j; by rewrite decide_False by lia.
  - intros n [l o] Hn [[Hlb Hl] [Hob Ho]]. simpl in *.
    destruct (lookup_lt_is_Some_2 (_data local) n Hn) as [x Hx].
    change (get_field local n = Some x) in Hx.
    assert (Hln : get_field l n = Some x)
      by (by rewrite Hl, decide_False by lia).
    unfold graph_database_sharedmem.commit_edge_field. rewrite Hln. simpl.
    destruct (get_modified x) eqn:Hmod.
    + pose proof (Hfields n x Hx Hmod) as Hlt.
      destruct (lookup_lt_is_Some_2 (_data origin) n Hlt) as [y Hy].
      change (get_field origin n = Some y) in Hy.
      assert (Hon : get_field o n = Some y)
        by (by rewrite Ho, decide_False by lia).
      rewrite Hon. simpl. eexists. split; [reflexivity|].
      assert (Hnl : n < num_fields l).
      { unfold num_fields. by eapply lookup_lt_Some. }
      assert (Hno : n < num_fields o).
      { unfold num_fields. by eapply lookup_lt_Some. }
      split; (split; [done|]); intros j; cbn [fst snd];
        destruct (decide (j = n)) as [->|Hne].
      * rewrite decide_True by lia.
        rewrite get_field_set_field_eq, Hx by done.
        cbn [fmap option_fmap option_map]. unfold commit_value.
        by rewrite Hmod.
      * rewrite get_field_set_field_ne, Hl by done.
        repeat case_decide; try lia; done.
      * rewrite decide_True by lia.
        rewrite get_field_set_field_eq by done.
        rewrite get_field_commit_into, Hy, Hx.
        cbn [mbind option_bind]. by rewrite Hmod.
      * rewrite get_field_set_field_ne, Ho by done.
        repeat case_decide; try lia; done.
    + eexists. split; [reflexivity|].
      split; (split; [done|]); intros j; cbn [fst snd];
        destruct (decide (j = n)) as [->|Hne].
      * rewrite decide_True by lia. rewrite Hln, Hx.
        cbn [fmap option_fmap option_map]. unfold commit_value.
        by rewrite Hmod.
      * rewrite Hl. repeat case_decide; try lia; done.
      * rewrite decide_True by lia. rewrite Ho, decide_False by lia.
        rewrite get_field_commit_into, Hx. rewrite Hmod.
        by destruct (get_field origin n).
      * rewrite Ho. repeat case_decide; try lia; done.
  - rewrite Hloop. simpl in *. f_equal. f_equal.
    + apply row_eq; [done|]. intros j. rewrite Hl, get_field_commit_row.
      case_decide as Hj; [done|].
      unfold get_field. rewrite lookup_ge_None_2; [done|].
      unfold num_fields in Hj. lia.
    + apply row_eq; [done|]. intros j. rewrite Ho.
      case_decide as Hj; [done|].
      rewrite get_field_commit_into.
      assert (get_field local j = None) as ->.
      { unfold get_field. apply lookup_ge_None_2.
        unfold num_fields in Hj. lia. }
      by destruct (get_field origin j).
Qed.

Lemma load_vertex_row_store_vertex_row (mem : list graph_shard) p q r :
  is_Some (load_vertex_row mem p) →
  load_vertex_row (store_vertex_row mem p r) q =
  if decide (p = q) then Some r else load_vertex_row mem q.
Proof.
  unfold load_vertex_row, store_vertex_row, shard_vertex_data.
  intros [r0 Hr0]. destruct (mem !! p.1) as [s|] eqn:Hs; [|done].
  simpl in Hr0. destruct p as [k i], q as [k' i']. simpl in *.
  destruct (decide (k = k')) as [<-|Hk].
  - rewrite list_lookup_alter_eq, Hs. simpl.
    destruct (decide (i = i')) as [<-|Hi].
    + rewrite decide_True by done.
      apply list_lookup_insert_eq. by eapply lookup_lt_Some.
    + rewrite decide_False by congruence.
      by rewrite list_lookup_insert_ne.
  - rewrite list_lookup_alter_ne by done.
    by rewrite decide_False by congruence.
Qed.

Lemma load_edge_row_store_vertex_row (mem : list graph_shard) p q r :
  load_edge_row (store_vertex_row mem p r) q = load_edge_row mem q.
Proof.
  unfold load_edge_row, store_vertex_row, shard_edge_data.
  destruct (decide (p.1 = q.1)) as [Heq|Hne].
  - rewrite <- Heq, list_lookup_alter_eq. by destruct (mem !! p.1).
  - by rewrite list_lookup_alter_ne.
Qed.

(** X11: write_changes through a vertex handle, for a handle whose row
    pointer is live.  The call commits the row of the handle: every modified
    field takes its post-commit state and the other fields stay, so that no
    field is modified afterwards; no other vertex row and no edge row
    changes, and the shards keep their ids, vertices and edges.
    write_changes_async and write_and_refresh do the same, and refresh does
    nothing. *)
Theorem write_changes_frame (h : graph_vertex_sharedmem.t)
    (mem : list graph_shard) (row : graph_row) :
  load_vertex_row mem (graph_vertex_sharedmem.data h) = Some row →
  ∃ mem1,
    graph_vertex_sharedmem.write_changes h mem = Some mem1 ∧
    graph_vertex_sharedmem.write_changes_async h mem = Some mem1 ∧
    graph_vertex_sharedmem.write_and_refresh h mem = Some mem1 ∧
    graph_vertex_sharedmem.refresh h mem = Some mem ∧
    load_vertex_row mem1 (graph_vertex_sharedmem.data h)
      = Some (commit_row row) ∧
    (∀ j, get_field (commit_row row) j =
          (λ x, if get_modified x then post_commit_state x else x)
            <$> get_field row j) ∧
    (∀ q, q ≠ graph_vertex_sharedmem.data h →
          load_vertex_row mem1 q = load_vertex_row mem q) ∧
    (∀ q, load_edge_row mem1 q = load_edge_row mem q) ∧
    layout_grows mem mem1 ∧ layout_grows mem1 mem.
Proof.
  unfold graph_vertex_sharedmem.data. intros Hrow.
  exists (store_vertex_row mem (graph_vertex_sharedmem.vdata h)
            (commit_row row)).
  assert (Hw : graph_vertex_sharedmem.write_changes h mem =
            Some (store_vertex_row mem (graph_vertex_sharedmem.vdata h)
                    (commit_row row))).
  { unfold graph_vertex_sharedmem.write_changes. rewrite Hrow. simpl.
    by rewrite commit_row_fields. }
  split_and!; try done.
  - rewrite load_vertex_row_store_vertex_row by (by exists row).
    by rewrite decide_True.
  - intros j. apply get_field_commit_row.
  - intros q Hq. rewrite load_vertex_row_store_vertex_row by (by exists row).
    by rewrite decide_False.
  - intros q. apply load_edge_row_store_vertex_row.
  - apply layout_grows_store_vertex_row.
  - split; [unfold store_vertex_row; by rewrite length_alter|].
    intros k s Hs. unfold store_vertex_row in Hs.
    destruct (decide (k = (graph_vertex_sharedmem.vdata h).1)) as [->|Hne].
    + rewrite list_lookup_alter_eq in Hs.
      destruct (mem !! (graph_vertex_sharedmem.vdata h).1) as [s0|] eqn:Hs0;
        [|done].
      injection Hs as <-. exists s0. split; [done|]. by split_and!.
    + rewrite list_lookup_alter_ne in Hs by done. exists s.
      split; [done|]. apply shard_grows_refl.
Qed.

Lemma edge_rows_only_refl id (mem : list graph_shard) :
  edge_rows_only id mem mem.
Proof. split; [done|]. intros k s Hs. exists s. by split_and!. Qed.

Lemma edge_rows_only_trans id (mem1 mem2 mem3 : list graph_shard) :
  edge_rows_only id mem1 mem2 → edge_rows_only id mem2 mem3 →
  edge_rows_only id mem1 mem3.
Proof.
  intros [Hl12 H12] [Hl23 H23]. split; [congruence|]. intros k s1 Hs1.
  destruct (H12 k s1 Hs1) as (s2 & Hs2 & ? & ? & ? & ? & ? & ? & Hne2).
  destruct (H23 k s2 Hs2) as (s3 & Hs3 & ? & ? & ? & ? & ? & ? & Hne3).
  exists s3. split_and!; try congruence.
  intros Hk. rewrite (Hne3 Hk). by apply Hne2.
Qed.

Lemma edge_rows_only_store_edge_row id (mem : list graph_shard) p r :
  edge_rows_only id mem (store_edge_row mem (id, p) r).
Proof.
  unfold store_edge_row. simpl. split; [apply length_alter|].
  intros k s Hs. destruct (decide (k = id)) as [->|Hne].
  - rewrite list_lookup_alter_eq, Hs. simpl. eexists. split; [done|].
    simpl. split_and!; try done. apply length_insert.
  - rewrite list_lookup_alter_ne by done. exists s. by split_and!.
Qed.

Lemma edge_rows_only_load_vertex_row id (mem mem' : list graph_shard) q :
  edge_rows_only id mem mem' →
  load_vertex_row mem' q = load_vertex_row mem q.
Proof.
  intros [Hlen Hrows]. unfold load_vertex_row, shard_vertex_data.
  destruct (mem !! q.1) as [s|] eqn:Hs.
  - destruct (Hrows _ _ Hs) as (s' & -> & _ & _ & Hvd & _). simpl.
    by rewrite Hvd.
  - apply lookup_ge_None in Hs. rewrite lookup_ge_None_2 by lia. done.
Qed.

Lemma edge_rows_only_load_edge_row id (mem mem' : list graph_shard) q :
  edge_rows_only id mem mem' → q.1 ≠ id →
  load_edge_row mem' q = load_edge_row mem q.
Proof.
  intros [Hlen Hrows] Hq. unfold load_edge_row.
  destruct (mem !! q.1) as [s|] eqn:Hs.
  - destruct (Hrows _ _ Hs) as (s' & -> & _ & _ & _ & _ & _ & _ & Heq).
    by rewrite (Heq Hq).
  - apply lookup_ge_None in Hs. rewrite lookup_ge_None_2 by lia. done.
Qed.

(** The loop of commit_shard over the vertex rows of the shard. *)
Lemma commit_vertex_rows (shard : graph_shard) :
  length (vertex_data (shard_impl shard)) = shard_num_vertices shard →
  for_loopM (shard_num_vertices shard)
    graph_database_sharedmem.commit_vertex_row shard =
  Some (mk_graph_shard
          (impl_set_vertex_data (shard_impl shard)
             (commit_row <$> vertex_data (shard_impl shard)))).
Proof.
  intros Hlen. set (vd := vertex_data (shard_impl shard)) in *.
  set (P := λ n (sh : graph_shard), ∃ l,
    sh = mk_graph_shard (impl_set_vertex_data (shard_impl shard) l) ∧
    length l = length vd ∧
    ∀ i, l !! i = if decide (i < n) then commit_row <$> vd !! i
                  else vd !! i).
  destruct (for_loopM_inv P (shard_num_vertices shard)
              graph_database_sharedmem.commit_vertex_row shard)
    as (sh & Hloop & l & -> & Hll & Hl).
  - exists vd. split; [by destruct shard as [[]]|]. split; [done|].
    intros i. by rewrite decide_False by lia.
  - intros n sh Hn (l & -> & Hll & Hl).
    destruct (lookup_lt_is_Some_2 vd n) as [row Hrow]; [lia|].
    unfold graph_database_sharedmem.commit_vertex_row, shard_vertex_data.
    simpl. rewrite Hl, decide_False, Hrow by lia. simpl.
    eexists. split; [reflexivity|].
    exists (<[n := commit_row row]> l). rewrite commit_row_fields.
    split; [done|]. split; [by rewrite length_insert|]. intros i.
    destruct (decide (i = n)) as [->|Hne].
    + rewrite list_lookup_insert_eq by lia.
      rewrite decide_True, Hrow by lia. done.
    + rewrite list_lookup_insert_ne, Hl by done.
      repeat case_decide; try lia; done.
  - rewrite Hloop. do 3 f_equal. apply list_eq. intros i.
    rewrite Hl, list_lookup_fmap. case_decide as Hi; [done|].
    rewrite lookup_ge_None_2; [done|lia].
Qed.

(** The loop of commit_shard over the edge rows of the shard: every local
    row is committed, and a field of a row of the database changes only by
    taking the committed value of a modified field of a local row with that
    position. *)
Lemma commit_edge_rows db (shard : graph_shard) :
  graph_database_sharedmem.committable db shard →
  ∃ mem',
    for_loopM (shard_num_edges shard)
      (graph_database_sharedmem.commit_edge_row (graph_shard_id shard)
         (bool_decide (0 < length (edgeid (shard_impl shard)))))
      (db, shard) =
    Some (graph_database_sharedmem.set_shards db mem',
          mk_graph_shard
            (impl_set_edge_data (shard_impl shard)
               (commit_row <$> edge_data (shard_impl shard)))) ∧
    edge_rows_only (graph_shard_id shard) (shards db) mem' ∧
    ∀ p r, load_edge_row (shards db) (graph_shard_id shard, p) = Some r →
      ∃ r', load_edge_row mem' (graph_shard_id shard, p) = Some r' ∧
        _is_vertex r' = _is_vertex r ∧
        num_fields r' = num_fields r ∧
        ∀ j,
          (get_field r' j = get_field r j ∧
           ∀ i x, ¬ graph_database_sharedmem.writes shard i p j x) ∨
          (∃ i x, graph_database_sharedmem.writes shard i p j x ∧
             get_field r' j = Some (value_deepcopy (post_commit_state x))).
Proof.
  intros (_ & Hlen & Hrows).
  set (id := graph_shard_id shard).
  set (ed := edge_data (shard_impl shard)) in *.
  set (derived := bool_decide (0 < length (edgeid (shard_impl shard)))).
  set (P := λ n (st : database * graph_shard), ∃ mem' l,
    st = (graph_database_sharedmem.set_shards db mem',
          mk_graph_shard (impl_set_edge_data (shard_impl shard) l)) ∧
    length l = length ed ∧
    (∀ i, l !! i = if decide (i < n) then commit_row <$> ed !! i
                   else ed !! i) ∧
    edge_rows_only id (shards db) mem' ∧
    ∀ p r, load_edge_row (shards db) (id, p) = Some r →
      ∃ r', load_edge_row mem' (id, p) = Some r' ∧
        _is_vertex r' = _is_vertex r ∧
        num_fields r' = num_fields r ∧
        ∀ j,
          (get_field r' j = get_field r j ∧
           ∀ i x, i < n →
             ¬ graph_database_sharedmem.writes shard i p j x) ∨
          (∃ i x, i < n ∧ graph_database_sharedmem.writes shard i p j x ∧
             get_field r' j = Some (value_deepcopy (post_commit_state x)))).
  destruct (for_loopM_inv P (shard_num_edges shard)
              (graph_database_sharedmem.commit_edge_row id derived)
              (db, shard))
    as (st & Hloop & mem' & l & -> & Hll & Hl & Honly & Hfields).
  - exists (shards db), ed. split_and!.
    + by destruct db, shard as [[]].
    + done.
    + intros i. by rewrite decide_False by lia.
    + apply edge_rows_only_refl.
    + intros p r Hr. exists r. split_and!; try done.
      intros j. left. split; [done|]. intros i x Hi. lia.
  - intros n st Hn (mem' & l & -> & Hll & Hl & Honly & Hfields).
    destruct (lookup_lt_is_Some_2 ed n) as [local Hlocal]; [lia|].
    destruct (Hrows n local Hlocal) as (pos & origin & Hpos & Horigin & Hj).
    destruct (Hfields pos origin Horigin)
      as (cur & Hcur & Hcurv & Hcurn & Hcurf).
    unfold graph_database_sharedmem.commit_edge_row, shard_edge_data.
    cbn [shard_impl impl_set_edge_data edge_data edgeid
         graph_database_sharedmem.shards
         graph_database_sharedmem.set_shards].
    rewrite Hl, decide_False, Hlocal by lia. cbn [mbind option_bind].
    change (if derived then edgeid (shard_impl shard) !! n else Some n)
      with (graph_database_sharedmem.origin_position shard n).
    rewrite Hpos. cbn [mbind option_bind]. fold id. rewrite Hcur.
    cbn [mbind option_bind].
    rewrite commit_edge_fields
      by (intros j x Hx Hm; rewrite Hcurn; by eapply Hj).
    cbn [mbind option_bind].
    eexists. split; [reflexivity|].
    exists (store_edge_row mem' (id, pos) (commit_into local cur)),
      (<[n := commit_row local]> l).
    split_and!.
    + done.
    + by rewrite length_insert.
    + intros i. destruct (decide (i = n)) as [->|Hne].
      * rewrite list_lookup_insert_eq by lia.
        rewrite decide_True, Hlocal by lia. done.
      * rewrite list_lookup_insert_ne, Hl by done.
        repeat case_decide; try lia; done.
    + eapply edge_rows_only_trans; [exact Honly|].
      apply edge_rows_only_store_edge_row.
    + intros p r Hr.
      rewrite load_store_edge_row by (by exists cur).
      destruct (Hfields p r Hr) as (r' & Hr' & Hv' & Hn' & Hf').
      case_decide as Hp.
      * injection Hp as <-.
        assert (r = origin) as -> by (unfold id in *; congruence).
        assert (r' = cur) as -> by (unfold id in *; congruence).
        eexists. split; [done|].
        split; [done|]. split; [by rewrite num_fields_commit_into|].
        intros j. rewrite get_field_commit_into.
        destruct (get_field local j) as [x|] eqn:Hx;
          [destruct (get_modified x) eqn:Hm|].
        -- right. exists n, x. split; [lia|].
           destruct (lookup_lt_is_Some_2 (_data cur) j) as [o Ho].
           { change (j < num_fields cur). rewrite Hcurn. by eapply Hj. }
           change (get_field cur j = Some o) in Ho. rewrite Ho.
           split; [|done]. split_and!; [done|done| |done].
           unfold shard_edge_data. fold ed. by rewrite Hlocal.
        -- assert (Hsame : get_field cur j ≫= (λ o, Some o)
                           = get_field cur j)
             by (by destruct (get_field cur j)).
           rewrite Hsame. destruct (Hf' j) as [[Heq Hnone]|(i & x' & Hi & Hw)].
           ++ left. split; [done|]. intros i x' Hi (Hlt & Hpos' & Hw & Hm').
              destruct (decide (i = n)) as [->|Hne].
              ** unfold shard_edge_data in Hw. fold ed in Hw.
                 rewrite Hlocal in Hw. simpl in Hw. congruence.
              ** eapply (Hnone i x'); [lia|]. by split_and!.
           ++ right. exists i, x'. split; [lia|done].
        -- assert (Hsame : get_field cur j ≫= (λ o, Some o)
                           = get_field cur j)
             by (by destruct (get_field cur j)).
           rewrite Hsame. destruct (Hf' j) as [[Heq Hnone]|(i & x' & Hi & Hw)].
           ++ left. split; [done|]. intros i x' Hi (Hlt & Hpos' & Hw & Hm').
              destruct (decide (i = n)) as [->|Hne].
              ** unfold shard_edge_data in Hw. fold ed in Hw.
                 rewrite Hlocal in Hw. simpl in Hw. congruence.
              ** eapply (Hnone i x'); [lia|]. by split_and!.
           ++ right. exists i, x'. split; [lia|done].
      * exists r'. split_and!; try done. intros j.
        destruct (Hf' j) as [[Heq Hnone]|(i & x' & Hi & Hw)].
        -- left. split; [done|]. intros i x' Hi Hw.
           destruct (decide (i = n)) as [->|Hne].
           ++ destruct Hw as (_ & Hpos' & _). rewrite Hpos in Hpos'.
              injection Hpos' as ->. done.
           ++ eapply (Hnone i x'); [lia|done].
        -- right. exists i, x'. split; [lia|done].
  - exists mem'. split_and!.
    + rewrite Hloop. do 4 f_equal. apply list_eq. intros i.
      rewrite Hl, list_lookup_fmap. case_decide as Hi; [done|].
      rewrite lookup_ge_None_2; [done|lia].
    + done.
    + intros p r Hr. destruct (Hfields p r Hr) as (r' & Hr' & Hv' & Hn' & Hf').
      exists r'. split_and!; try done. intros j.
      destruct (Hf' j) as [[Heq Hnone]|(i & x' & Hi & Hw)].
      * left. split; [done|]. intros i x Hw. eapply (Hnone i x); [|done].
        by destruct Hw.
      * right. by exists i, x'.
Qed.

(** commit_shard on a shard that it can take: the call returns, the rows of
    the shard are committed, and the database differs in edge rows of shard
    [id(shard)] only. *)
Lemma commit_shard_effect db (shard : graph_shard) :
  graph_database_sharedmem.committable db shard →
  ∃ mem',
    commit_shard db shard =
      Some (graph_database_sharedmem.set_shards db mem',
            mk_graph_shard
              (mk_graph_shard_impl
                 (shard_id (shard_impl shard))
                 (vertex (shard_impl shard))
                 (commit_row <$> vertex_data (shard_impl shard))
                 (edge (shard_impl shard))
                 (commit_row <$> edge_data (shard_impl shard))
                 (edgeid (shard_impl shard)))) ∧
    edge_rows_only (graph_shard_id shard) (shards db) mem' ∧
    ∀ p r, load_edge_row (shards db) (graph_shard_id shard, p) = Some r →
      ∃ r', load_edge_row mem' (graph_shard_id shard, p) = Some r' ∧
        _is_vertex r' = _is_vertex r ∧
        num_fields r' = num_fields r ∧
        ∀ j,
          (get_field r' j = get_field r j ∧
           ∀ i x, ¬ graph_database_sharedmem.writes shard i p j x) ∨
          (∃ i x, graph_database_sharedmem.writes shard i p j x ∧
             get_field r' j = Some (value_deepcopy (post_commit_state x))).
Proof.
  intros (Hlv & Hle & Hrows).
  unfold graph_database_sharedmem.commit_shard.
  rewrite commit_vertex_rows by done. cbn [mbind option_bind].
  set (shard1 := mk_graph_shard
         (impl_set_vertex_data (shard_impl shard)
            (commit_row <$> vertex_data (shard_impl shard)))).
  destruct (commit_edge_rows db shard1) as (mem' & Hloop & Honly & Hf).
  { split_and!; [|exact Hle|exact Hrows].
    unfold shard1, shard_num_vertices. simpl. by rewrite length_fmap. }
  exists mem'. split_and!; [exact Hloop|exact Honly|exact Hf].
Qed.


(** X13: commit_shard on an edited copy of a shard of the database
    (get_shard_copy).  In a reachable state the copy has the id of the shard
    and no edgeid; the call returns, and edge row i
    of shard k of the database takes, field by field, the committed values
    of the modified fields of edge row i of the copy and keeps its other
    fields; the other shards stay as they are.  The vertex rows of the
    database do not change, whatever the client has set in the vertex rows
    of the copy. *)
Theorem commit_shard_copy db k (c c' : graph_shard) :
  graph_database_sharedmem.reachable vid_hash edge_hash npos db →
  graph_database_sharedmem.get_shard_copy db k = Some c →
  edited (shard_impl c) (shard_impl c') →
  graph_shard_id c = k ∧ edgeid (shard_impl c) = [] ∧
  ∃ db' c'',
    commit_shard db c' = Some (db', c'') ∧
    vertex_data (shard_impl c'') = commit_row <$> vertex_data (shard_impl c') ∧
    edge_data (shard_impl c'') = commit_row <$> edge_data (shard_impl c') ∧
    (∀ i local, shard_edge_data c' i = Some local →
       ∃ origin,
         load_edge_row (shards db) (k, i) = Some origin ∧
         load_edge_row (shards db') (k, i) = Some (commit_into local origin)) ∧
    (∀ q, q.1 ≠ k →
          load_edge_row (shards db') q = load_edge_row (shards db) q) ∧
    (∀ q, load_vertex_row (shards db') q = load_vertex_row (shards db) q).
Proof.
  intros Hreach Hcopy (Hid & Hv & He & Heid & Hvd & Hed).
  pose proof (reachable_wf _ Hreach) as Hwf.
  unfold graph_database_sharedmem.get_shard_copy in Hcopy.
  apply bind_Some in Hcopy as (s & Hs & [= <-]). simpl in *.
  destruct (reachable_primary db Hreach k s Hs) as [Hprim Hnoid].
  destruct (graph_database_sharedmem.wf_shape _ _ Hwf k s Hs) as [Hsv Hse].
  unfold graph_shard_id in Hprim.
  assert (Hidc : graph_shard_id c' = k).
  { unfold graph_shard_id. congruence. }
  assert (Hpos : ∀ i, graph_database_sharedmem.origin_position c' i = Some i).
  { intros i. unfold graph_database_sharedmem.origin_position.
    by rewrite Heid, Hnoid. }
  assert (Hrow : ∀ i local, shard_edge_data c' i = Some local →
            ∃ origin, load_edge_row (shards db) (k, i) = Some origin ∧
                      num_fields local = num_fields origin).
  { intros i local Hlocal.
    destruct (Forall2_lookup_r _ _ _ _ _ Hed Hlocal) as (r0 & Hr0 & Hnum).
    rewrite list_lookup_fmap in Hr0.
    apply fmap_Some in Hr0 as (origin & Horigin & ->).
    exists origin. unfold load_edge_row, shard_edge_data. simpl.
    rewrite Hs. simpl. split; [done|].
    rewrite Hnum. unfold num_fields, row_deepcopy. simpl.
    by rewrite length_fmap. }
  assert (Hc : graph_database_sharedmem.committable db c').
  { split_and!.
    - unfold shard_num_vertices.
      rewrite <- (Forall2_length _ _ _ Hvd), length_fmap. congruence.
    - unfold shard_num_edges.
      rewrite <- (Forall2_length _ _ _ Hed), length_fmap. congruence.
    - intros i local Hlocal. destruct (Hrow i local Hlocal) as (o & Ho & Hn).
      exists i, o. rewrite Hidc. split_and!; [done|done|].
      intros j x Hx _. rewrite <- Hn. unfold num_fields.
      by eapply lookup_lt_Some. }
  destruct (commit_shard_effect db c' Hc) as (mem' & Hcommit & Honly & Hf).
  rewrite Hidc in Honly, Hf.
  split; [exact Hprim|]. split; [exact Hnoid|].
  eexists _, _. split; [exact Hcommit|]. simpl.
  split_and!; try done.
  - intros i local Hlocal. destruct (Hrow i local Hlocal) as (o & Ho & Hn).
    exists o. split; [done|].
    destruct (Hf i o Ho) as (r' & Hr' & Hisv & Hnum & Hj).
    rewrite Hr'. f_equal. apply row_eq; [done|]. intros j.
    assert (Hi : i < shard_num_edges c').
    { destruct Hc as (_ & <- & _). by eapply lookup_lt_Some. }
    rewrite get_field_commit_into.
    destruct (Hj j) as [[Heq Hnone]|(i' & x & Hw & Heq)].
    + rewrite Heq. destruct (get_field o j) as [y|] eqn:Hy; [|done].
      simpl. destruct (get_field local j) as [x|] eqn:Hx; [|done].
      destruct (get_modified x) eqn:Hm; [|done].
      destruct (Hnone i x). split_and!; [done|done| |done].
      by rewrite Hlocal.
    + rewrite Heq. destruct Hw as (Hi' & Hpi & Hx & Hm).
      rewrite Hpos in Hpi. injection Hpi as ->.
      rewrite Hlocal in Hx. simpl in Hx. rewrite Hx, Hm.
      destruct (lookup_lt_is_Some_2 (_data o) j) as [y Hy].
      { change (j < num_fields o). rewrite <- Hn. unfold num_fields.
        by eapply lookup_lt_Some. }
      change (get_field o j = Some y) in Hy. by rewrite Hy.
  - intros q Hq. by eapply edge_rows_only_load_edge_row.
  - intros q. by eapply edge_rows_only_load_vertex_row.
Qed.

(** ** Beyond the claims: parallel edges *)

(** X14: add_edge does not look for an existing edge.  In a reachable state
    two insertions of the same (source, target) both return and store the
    edge twice, at the end of the same shard; the second insertion adds no
    vertex, changes no master and no mirror set, and leaves num_vertices()
    as it is. *)
Theorem add_edge_twice db source target data1 data2 :
  graph_database_sharedmem.reachable vid_hash edge_hash npos db →
  let k := edge_hash (source, target) mod num_shards db in
  ∃ db1 db2 s s2,
    add_edge db source target data1 = Some db1 ∧
    add_edge db1 source target data2 = Some db2 ∧
    shards db !! k = Some s ∧ shards db2 !! k = Some s2 ∧
    edge (shard_impl s2) =
      edge (shard_impl s) ++ [(source, target); (source, target)] ∧
    (∀ w, is_vertex db2 w ↔ is_vertex db1 w) ∧
    num_vertices db2 = num_vertices db1 ∧
    (∀ w, master_of db2 w = master_of db1 w) ∧
    (∀ w, mirrors_of db2 w = mirrors_of db1 w).
Proof.
  intros Hreach k. pose proof (reachable_wf _ Hreach) as Hwf.
  destruct (add_edge_total db source target data1 Hwf)
    as (db1 & Hadd1 & Hwf1).
  destruct (add_edge_total db1 source target data2 Hwf1)
    as (db2 & Hadd2 & Hwf2).
  assert (Hreach1 : graph_database_sharedmem.reachable
                      vid_hash edge_hash npos db1).
  { apply (reachable_run
             [graph_database_sharedmem.Add_edge source target data1] db);
      [done|]. unfold graph_database_sharedmem.run. simpl. exact Hadd1. }
  assert (Hreach2 : graph_database_sharedmem.reachable
                      vid_hash edge_hash npos db2).
  { apply (reachable_run
             [graph_database_sharedmem.Add_edge source target data2] db1);
      [done|]. unfold graph_database_sharedmem.run. simpl. exact Hadd2. }
  destruct (add_edge_entries db source target data1 db1 Hwf Hadd1)
    as (s & ei & Hs & _ & _ & Hlen1 & Hedge1).
  destruct (add_edge_entries db1 source target data2 db2 Hwf1 Hadd2)
    as (s1 & ei1 & Hs1 & _ & _ & Hlen2 & Hedge2).
  assert (Hn : num_shards db1 = num_shards db).
  { unfold graph_database_sharedmem.num_shards.
    rewrite <- (graph_database_sharedmem.wf_shards _ _ Hwf1),
      <- (graph_database_sharedmem.wf_shards _ _ Hwf). done. }
  rewrite Hn in Hs1, Hedge2. fold k in Hs, Hs1, Hedge1, Hedge2.
  destruct (lookup_lt_is_Some_2 (shards db2) k) as [s2 Hs2].
  { rewrite Hlen2. by eapply lookup_lt_Some. }
  pose proof (Hedge1 k s s1 Hs Hs1) as He1.
  pose proof (Hedge2 k s1 s2 Hs1 Hs2) as He2.
  rewrite decide_True in He1, He2 by done.
  pose proof (step_is_vertex
    (graph_database_sharedmem.Add_edge source target data1) db db1) as Hv1.
  pose proof (step_is_vertex
    (graph_database_sharedmem.Add_edge source target data2) db1 db2) as Hv2.
  simpl in Hv1, Hv2.
  assert (Hsrc : is_vertex db1 source) by (apply Hv1; auto).
  assert (Htgt : is_vertex db1 target) by (apply Hv1; auto).
  assert (Hsame : ∀ w, is_vertex db2 w ↔ is_vertex db1 w).
  { intros w. rewrite (Hv2 w Hadd2). split; [|by left].
    intros [Hw|[<-|<-]]; done. }
  assert (Hmaster : ∀ w, master_of db2 w = master_of db1 w).
  { intros w. destruct (decide (is_vertex db1 w)) as [Hw|Hw].
    - destruct (step_grows
        (graph_database_sharedmem.Add_edge source target data2) db1 db2
        Hadd2 w) as [_ Hg].
      by destruct (Hg Hw).
    - rewrite (reachable_unknown_master db1 Hreach1 w Hw).
      apply (reachable_unknown_master db2 Hreach2). by rewrite Hsame. }
  exists db1, db2, s, s2. split_and!; try done.
  - rewrite He2, He1, <- app_assoc. done.
  - destruct (reachable_counters_agree db1 Hreach1) as (_ & Hi1 & _).
    destruct (reachable_counters_agree db2 Hreach2) as (_ & Hi2 & _).
    unfold graph_database_sharedmem.num_vertices.
    rewrite <- Hi1, <- Hi2, <- !size_dom. do 2 f_equal.
    apply set_eq. intros w. rewrite !elem_of_dom, <- !is_vertex_lookup.
    apply Hsame.
  - intros w.
    pose proof (add_edge_mirrors db source target data1 db1 Hadd1 w) as Hm1.
    pose proof (add_edge_mirrors db1 source target data2 db2 Hadd2 w) as Hm2.
    simpl in Hm1, Hm2. rewrite Hn in Hm2. fold k in Hm1, Hm2.
    rewrite Hmaster in Hm2. rewrite Hm2, Hm1.
    case_bool_decide; set_solver.
Qed.

End DatabaseProperties.

(** * The theorems on the example database *)
Module Witnesses.
Import graph_database_sharedmem.

Local Abbreviation vid_hash := Example.vid_hash.
Local Abbreviation edge_hash := Example.edge_hash.
Local Abbreviation npos := Example.npos.
Local Abbreviation db0 := Example.db0.
Local Abbreviation db1 := Example.db1.
Local Abbreviation db3 := Example.db3.

Lemma run_triangle : Example.run Example.triangle db0 = Some db3.
Proof. vm_compute. reflexivity. Qed.

Lemma wf_db3 : wf vid_hash db3.
Proof.
  eapply wf_run; [|exact run_triangle]. apply wf_create. lia.
Qed.

(** The scenario of the specification: four shards and the edges (1,2),
    (2,3), (3,1) give three edges and three vertices; vertex 3 has master 3
    and the mirrors 1 and 2, the shards of its two edges. *)
Lemma triangle_counts :
  num_edges db3 = 3%N ∧ num_vertices db3 = 3%N ∧
  master_of db3 3%N = 3 ∧ mirrors_of db3 3%N = {[1; 2]}.
Proof. vm_compute. by split_and!. Qed.

(** The positions of a slice are listed once per incidence: a self-loop is in
    the incoming and in the outgoing list of its vertex, and
    get_shard_contents_adj_to copies it twice. *)
Lemma self_loop_copied_twice :
  (db ← add_edge vid_hash edge_hash db0 1%N 1%N None;
   r ← get_shard_contents_adj_to db 1 0;
   Some (edgeid (shard_impl r.1), edge (shard_impl r.1)))
  = Some ([0; 0], [(1%N, 1%N); (1%N, 1%N)]).
Proof. vm_compute. reflexivity. Qed.

(** Vertex 7 is new in the example database: add_vertex inserts it once. *)
Lemma add_vertex_spec_witness :
  wf vid_hash db3 ∧
  ¬ is_vertex db3 7%N ∧
  ∃ db', add_vertex vid_hash db3 7%N None = Some (true, db') ∧
    num_vertices db' = (num_vertices db3 + 1)%N ∧
    is_vertex db' 7%N ∧
    ∀ data', add_vertex vid_hash db' 7%N data' = Some (false, db').
Proof.
  assert (Hnew : ¬ is_vertex db3 7%N).
  { intros H. vm_compute in H. discriminate H. }
  split; [exact wf_db3|]. split; [exact Hnew|].
  exact (proj2 (add_vertex_spec vid_hash db3 7%N None wf_db3) Hnew).
Defined.

(** A fourth edge (1,3) on the example database. *)
Lemma add_edge_spec_witness :
  wf vid_hash db3 ∧
  (num_edges db3 + 1 < SIZE_MOD)%N ∧
  ∃ db' s s',
    add_edge vid_hash edge_hash db3 1%N 3%N None = Some db' ∧
    shards db3 !! (edge_hash (1%N, 3%N) mod num_shards db3) = Some s ∧
    shards db' !! (edge_hash (1%N, 3%N) mod num_shards db3) = Some s' ∧
    edge (shard_impl s') = edge (shard_impl s) ++ [(1%N, 3%N)] ∧
    edge_data (shard_impl s') =
      edge_data (shard_impl s) ++
      [row_deepcopy
         (set_is_vertex false
            (default (new_graph_row (edge_fields db3)) None))] ∧
    (∀ k' s0, k' ≠ edge_hash (1%N, 3%N) mod num_shards db3 →
       shards db3 !! k' = Some s0 →
       ∃ s0', shards db' !! k' = Some s0' ∧
         edge (shard_impl s0') = edge (shard_impl s0) ∧
         edge_data (shard_impl s0') = edge_data (shard_impl s0)) ∧
    num_edges db' = (num_edges db3 + 1)%N ∧
    num_shards db' = num_shards db3 ∧
    is_vertex db' 1%N ∧ is_vertex db' 3%N ∧
    master_of db' 1%N = vid_hash 1%N mod num_shards db' ∧
    master_of db' 3%N = vid_hash 3%N mod num_shards db'.
Proof.
  assert (Hcount : (num_edges db3 + 1 < SIZE_MOD)%N).
  { vm_compute. reflexivity. }
  split; [exact wf_db3|]. split; [exact Hcount|].
  exact (add_edge_spec vid_hash edge_hash db3 1%N 3%N None wf_db3 Hcount).
Defined.

(** The first edge (1,2) lands in shard 1, the master of vertex 1 and not of
    vertex 2; the two later insertions keep the master and the mirrors of
    vertex 2. *)
Lemma mirror_invariant_witness :
  add_edge vid_hash edge_hash db0 1%N 2%N None = Some db1 ∧
  edge_hash (1%N, 2%N) mod num_shards db0 ≠ master_of db1 2%N ∧
  run vid_hash edge_hash npos Example.rest db1 = Some db3 ∧
  is_vertex db1 2%N ∧
  edge_hash (1%N, 2%N) mod num_shards db0 ∈ mirrors_of db1 2%N ∧
  mirrors_of db1 2%N ⊆ mirrors_of db3 2%N ∧
  is_vertex db3 2%N ∧
  master_of db3 2%N = master_of db1 2%N.
Proof.
  assert (Hadd : add_edge vid_hash edge_hash db0 1%N 2%N None = Some db1).
  { vm_compute. reflexivity. }
  assert (Hne : edge_hash (1%N, 2%N) mod num_shards db0 ≠ master_of db1 2%N).
  { vm_compute. discriminate. }
  assert (Hrun : run vid_hash edge_hash npos Example.rest db1 = Some db3).
  { vm_compute. reflexivity. }
  assert (Hv : is_vertex db1 2%N).
  { vm_compute. reflexivity. }
  pose proof (proj1 (mirror_invariant vid_hash edge_hash npos)
                db0 1%N 2%N None db1 Hadd) as [_ Hmirror].
  pose proof (proj2 (mirror_invariant vid_hash edge_hash npos)
                Example.rest db1 db3 2%N Hrun) as [Hsub Hmaster].
  split_and!; [exact Hadd|exact Hne|exact Hrun|exact Hv|exact (Hmirror Hne)|
               exact Hsub|exact (proj1 (Hmaster Hv))|exact (proj2 (Hmaster Hv))].
Defined.

(** The rank of vertex 3 has been set by a client: the first write_changes
    commits it, the second changes nothing. *)
Lemma write_changes_idempotent_witness :
  is_Some (load_vertex_row Example.mem3
             (graph_vertex_sharedmem.data Example.vertex3)) ∧
  ∃ mem1 row,
    graph_vertex_sharedmem.write_changes Example.vertex3 Example.mem3
      = Some mem1 ∧
    load_vertex_row mem1 (graph_vertex_sharedmem.data Example.vertex3)
      = Some row ∧
    (∀ v, v ∈ _data row → get_modified v = false) ∧
    graph_vertex_sharedmem.write_changes Example.vertex3 mem1 = Some mem1.
Proof.
  assert (Hlive : is_Some (load_vertex_row Example.mem3
                    (graph_vertex_sharedmem.data Example.vertex3))).
  { eexists. vm_compute. reflexivity. }
  split; [exact Hlive|].
  exact (write_changes_idempotent Example.vertex3 Example.mem3 Hlive).
Defined.

(** Vertex 2 is an endpoint of the first edge, vertex 7 of none. *)
Lemma get_vertex_spec_witness :
  0 < 4 ∧
  run vid_hash edge_hash npos Example.triangle
    (create Example.vertex_schema Example.edge_schema 4) = Some db3 ∧
  (num_vertices db3 ≤ npos)%N ∧
  ¬ Exists (adds 7%N) Example.triangle ∧
  get_vertex npos db3 7%N = Some (None, db3) ∧
  Exists (adds 2%N) Example.triangle ∧
  ∃ h db' s row,
    get_vertex npos db3 2%N = Some (Some h, db') ∧
    shards db' = shards db3 ∧
    graph_vertex_sharedmem.get_id h = 2%N ∧
    graph_vertex_sharedmem.master_shard h = vid_hash 2%N mod num_shards db3 ∧
    graph_vertex_sharedmem.master_shard h = master_of db3 2%N ∧
    graph_vertex_sharedmem.mirrors h = mirrors_of db3 2%N ∧
    (graph_vertex_sharedmem.data h).1 = graph_vertex_sharedmem.master_shard h ∧
    shards db3 !! graph_vertex_sharedmem.master_shard h = Some s ∧
    vertex (shard_impl s) !! (graph_vertex_sharedmem.data h).2 = Some 2%N ∧
    load_vertex_row (shards db') (graph_vertex_sharedmem.data h) = Some row.
Proof.
  assert (Hn : 0 < 4) by lia.
  assert (Hnpos : (num_vertices db3 ≤ npos)%N).
  { vm_compute. discriminate. }
  assert (Hnot : ¬ Exists (adds 7%N) Example.triangle).
  { unfold Example.triangle. rewrite !Exists_cons, Exists_nil. simpl.
    intros [[H|H]|[[H|H]|[[H|H]|[]]]]; discriminate H. }
  assert (Hadds : Exists (adds 2%N) Example.triangle).
  { apply Exists_cons_hd. simpl. right. reflexivity. }
  split_and!; [exact Hn|exact run_triangle|exact Hnpos|exact Hnot|
    |exact Hadds|].
  - exact (proj1 (get_vertex_spec vid_hash edge_hash npos
                    Example.vertex_schema Example.edge_schema 4
                    Example.triangle db3 7%N Hn run_triangle Hnpos) Hnot).
  - exact (proj2 (get_vertex_spec vid_hash edge_hash npos
                    Example.vertex_schema Example.edge_schema 4
                    Example.triangle db3 2%N Hn run_triangle Hnpos) Hadds).
Defined.

(** refresh on the handle of the edge (3,1). *)
Lemma edge_write_ops_noop_witness :
  (graph_edge_sharedmem.refresh Example.edge31
     : Example.database → Example.database) ∈
    [graph_edge_sharedmem.write_changes Example.edge31;
     graph_edge_sharedmem.write_changes_async Example.edge31;
     graph_edge_sharedmem.refresh Example.edge31;
     graph_edge_sharedmem.write_and_refresh Example.edge31] ∧
  graph_edge_sharedmem.refresh Example.edge31 db3 = db3 ∧
  load_edge_row (shards (graph_edge_sharedmem.refresh Example.edge31 db3))
    (graph_edge_sharedmem.data Example.edge31) =
  load_edge_row (shards db3) (graph_edge_sharedmem.data Example.edge31) ∧
  ∀ j x,
    load_edge_row (shards db3) (graph_edge_sharedmem.data Example.edge31)
      ≫= (λ r, get_field r j) = Some x →
    ∃ x',
      load_edge_row (shards (graph_edge_sharedmem.refresh Example.edge31 db3))
        (graph_edge_sharedmem.data Example.edge31)
        ≫= (λ r, get_field r j) = Some x' ∧
      x' = x ∧
      get_modified x' = get_modified x ∧
      get_use_delta_commit x' = get_use_delta_commit x.
Proof.
  assert (Hin : (graph_edge_sharedmem.refresh Example.edge31
                   : Example.database → Example.database) ∈
    [graph_edge_sharedmem.write_changes Example.edge31;
     graph_edge_sharedmem.write_changes_async Example.edge31;
     graph_edge_sharedmem.refresh Example.edge31;
     graph_edge_sharedmem.write_and_refresh Example.edge31]).
  { do 2 apply list_elem_of_further. apply list_elem_of_here. }
  split; [exact Hin|].
  exact (edge_write_ops_noop Example.edge31 db3 _ Hin).
Defined.

(** The handle of vertex 3: two mirrors, three shards, master 3 not listed. *)
Lemma get_shard_list_mirrors_only_witness :
  wf vid_hash db3 ∧
  get_vertex npos db3 3%N = Some (Some Example.vertex3, Example.db3') ∧
  (length (graph_vertex_sharedmem.get_shard_list Example.vertex3) =
     graph_vertex_sharedmem.get_num_shards Example.vertex3 - 1 ∧
   graph_vertex_sharedmem.get_num_shards Example.vertex3 =
     size (graph_vertex_sharedmem.mirrors Example.vertex3) + 1 ∧
   NoDup (graph_vertex_sharedmem.get_shard_list Example.vertex3) ∧
   (∀ k, k ∈ graph_vertex_sharedmem.get_shard_list Example.vertex3 ↔
         k ∈ graph_vertex_sharedmem.mirrors Example.vertex3)) ∧
  graph_vertex_sharedmem.master_shard Example.vertex3 ∉
    graph_vertex_sharedmem.get_shard_list Example.vertex3.
Proof.
  assert (Hget : get_vertex npos db3 3%N
                 = Some (Some Example.vertex3, Example.db3')).
  { vm_compute. reflexivity. }
  split; [exact wf_db3|]. split; [exact Hget|].
  pose proof (get_shard_list_mirrors_only (RS := Example.row_store)
                vid_hash npos Example.vertex3) as [Hlist Hmaster].
  split; [exact Hlist|]. exact (Hmaster db3 3%N Example.db3' wf_db3 Hget).
Defined.

(** The slice of shard 2 for shard 1: vertex 1 has shard 2 as a mirror, and
    its incoming edge (3,1) is at position 0 of shard 2. *)
Lemma get_shard_contents_adj_to_spec_witness :
  wf vid_hash db3 ∧ 1 < num_shards db3 ∧ 2 < num_shards db3 ∧
  ∃ d db' src origin ei,
    get_shard_contents_adj_to db3 1 2 = Some (d, db') ∧
    shards db3 !! 1 = Some src ∧
    shards db3 !! 2 = Some origin ∧
    edge_index db3 !! 2 = Some ei ∧
    graph_shard_id d = 2 ∧
    shard_num_vertices d = 0 ∧
    vertex_data (shard_impl d) = [] ∧
    length (edgeid (shard_impl d)) = shard_num_edges d ∧
    length (edge_data (shard_impl d)) = shard_num_edges d ∧
    (∀ i p, edgeid (shard_impl d) !! i = Some p →
       ∃ e row,
         shard_edge origin p = Some e ∧
         shard_edge_data origin p = Some row ∧
         shard_edge d i = Some e ∧
         shard_edge_data d i = Some (row_deepcopy (row_deepcopy row))) ∧
    edgeid (shard_impl d) = adjacent_positions db3 1 2 ∧
    (∀ p, p ∈ edgeid (shard_impl d) ↔
       ∃ v, v ∈ vertex (shard_impl src) ∧
         (1 = 2 ∨ 2 ∈ mirrors_of db3 v) ∧
         (p ∈ (graph_edge_index.get_edge_index ei true true v).1 ∨
          p ∈ (graph_edge_index.get_edge_index ei true true v).2)) ∧
    (1 = 2 →
       edgeid (shard_impl d) = vertex (shard_impl src) ≫= adjacency ei) ∧
    shards db' = shards db3 ∧
    quiet db3 db'.
Proof.
  assert (H1 : 1 < num_shards db3) by (vm_compute; lia).
  assert (H2 : 2 < num_shards db3) by (vm_compute; lia).
  split; [exact wf_db3|]. split; [exact H1|]. split; [exact H2|].
  exact (get_shard_contents_adj_to_spec vid_hash db3 1 2 wf_db3 H1 H2).
Defined.

(** The client sets the weight of edge 0 of the slice to 5 and commits the
    slice: the weight of the edge (3,1) in shard 2 becomes 5. *)
Lemma commit_shard_derived_witness :
  wf vid_hash db3 ∧ 1 < num_shards db3 ∧ 2 < num_shards db3 ∧
  get_shard_contents_adj_to db3 1 2
    = Some (Example.slice12.1, Example.slice12.2) ∧
  edgeid (shard_impl Example.slice12.1) ≠ [] ∧
  same_shape (shard_impl Example.slice12.1) (shard_impl Example.slice12') ∧
  shard_edge_data Example.slice12' 0 ≫= (λ r, get_field r 0)
    = Some Example.five ∧
  get_modified Example.five = true ∧
  (∀ i' r j' x, shard_edge_data Example.slice12' i' = Some r →
     get_field r j' = Some x → get_modified x = true → i' = 0 ∧ j' = 0) ∧
  ∃ pos origin_shard origin db2 d2,
    edgeid (shard_impl Example.slice12.1) !! 0 = Some pos ∧
    shards Example.slice12.2 !! 2 = Some origin_shard ∧
    shard_edge_data origin_shard pos = Some origin ∧
    commit_shard Example.slice12.2 Example.slice12' = Some (db2, d2) ∧
    db2 = set_shards Example.slice12.2
            (store_edge_row (shards Example.slice12.2) (2, pos)
               (set_field origin 0
                  (value_deepcopy
                     (post_commit_state
                        Example.five)))) ∧
    load_edge_row (shards db2) (2, pos) ≫= (λ r, get_field r 0) =
      Some (value_deepcopy
              (post_commit_state Example.five)) ∧
    (∀ j', j' ≠ 0 →
       load_edge_row (shards db2) (2, pos) ≫= (λ r, get_field r j') =
       get_field origin j') ∧
    (∀ q, q ≠ (2, pos) →
       load_edge_row (shards db2) q =
       load_edge_row (shards Example.slice12.2) q) ∧
    (∀ q, load_vertex_row (shards db2) q =
          load_vertex_row (shards Example.slice12.2) q).
Proof.
  assert (H1 : 1 < num_shards db3) by (vm_compute; lia).
  assert (H2 : 2 < num_shards db3) by (vm_compute; lia).
  assert (Hget : get_shard_contents_adj_to db3 1 2
                 = Some (Example.slice12.1, Example.slice12.2)).
  { vm_compute. reflexivity. }
  assert (Hne : edgeid (shard_impl Example.slice12.1) ≠ []).
  { vm_compute. discriminate. }
  assert (Hshape : same_shape (shard_impl Example.slice12.1)
                     (shard_impl Example.slice12')).
  { vm_compute. repeat split. repeat constructor. }
  assert (Hval : shard_edge_data Example.slice12' 0 ≫= (λ r, get_field r 0)
                 = Some Example.five).
  { vm_compute. reflexivity. }
  assert (Hmod : get_modified Example.five = true).
  { reflexivity. }
  assert (Honly : ∀ i' r j' x,
            shard_edge_data Example.slice12' i' = Some r →
            get_field r j' = Some x → get_modified x = true →
            i' = 0 ∧ j' = 0).
  { intros [|i'] r [|j'] x Hr Hx _; vm_compute in Hr;
      try discriminate Hr; injection Hr as <-; vm_compute in Hx;
      try discriminate Hx. split; reflexivity. }
  split_and!; [exact wf_db3|exact H1|exact H2|exact Hget|exact Hne|
    exact Hshape|exact Hval|exact Hmod|exact Honly|].
  exact (commit_shard_derived vid_hash db3 1 2
           Example.slice12.1 Example.slice12.2 Example.slice12' 0 0
           Example.five
           wf_db3 H1 H2 Hget Hne Hshape Hval Hmod Honly).
Defined.

(** The example database is a reachable state. *)
Lemma reachable_db3 : reachable vid_hash edge_hash npos db3.
Proof.
  exists Example.vertex_schema, Example.edge_schema, 4, Example.triangle.
  split; [lia|exact run_triangle].
Qed.

Lemma run_rest : run vid_hash edge_hash npos Example.rest db1 = Some db3.
Proof. vm_compute. reflexivity. Qed.

(** Shard 2 of the example database. *)
Lemma shards_stay_primary_witness :
  reachable vid_hash edge_hash npos db3 ∧ 2 < num_shards db3 ∧
  ∃ s, get_shard db3 2 = Some s ∧
       graph_shard_id s = 2 ∧ edgeid (shard_impl s) = [].
Proof.
  assert (Hk : 2 < num_shards db3) by (vm_compute; lia).
  split; [exact reachable_db3|]. split; [exact Hk|].
  exact (shards_stay_primary vid_hash edge_hash npos db3 2 reachable_db3 Hk).
Defined.

(** Shard 1 holds the edge (1,2) after the first insertion, and still holds
    it at position 0 after the two later ones. *)
Lemma entries_stay_witness :
  let s := default (mk_graph_shard (empty_shard_impl 0)) (get_shard db1 1) in
  run vid_hash edge_hash npos Example.rest db1 = Some db3 ∧
  get_shard db1 1 = Some s ∧
  shard_edge s 0 = Some (1%N, 2%N) ∧
  ∃ s', get_shard db3 1 = Some s' ∧
    graph_shard_id s' = graph_shard_id s ∧
    shard_num_vertices s ≤ shard_num_vertices s' ∧
    shard_num_edges s ≤ shard_num_edges s' ∧
    (∀ p v, vertex (shard_impl s) !! p = Some v →
            vertex (shard_impl s') !! p = Some v) ∧
    (∀ p e, shard_edge s p = Some e → shard_edge s' p = Some e).
Proof.
  intros s.
  assert (Hs : get_shard db1 1 = Some s) by (vm_compute; reflexivity).
  split; [exact run_rest|]. split; [exact Hs|].
  split; [vm_compute; reflexivity|].
  exact (entries_stay vid_hash edge_hash npos Example.rest db1 db3 1 s
           run_rest Hs).
Defined.

Lemma vertex_stored_once_witness :
  reachable vid_hash edge_hash npos db3 ∧
  (∀ v, is_vertex db3 v →
     ∃ s p, shards db3 !! (vid_hash v mod num_shards db3) = Some s ∧
       vertex (shard_impl s) !! p = Some v ∧
       ∀ k' s' p', shards db3 !! k' = Some s' →
         vertex (shard_impl s') !! p' = Some v →
         k' = vid_hash v mod num_shards db3 ∧ p' = p) ∧
  (∀ k s p v, shards db3 !! k = Some s →
     vertex (shard_impl s) !! p = Some v →
     is_vertex db3 v ∧ master_of db3 v = k).
Proof.
  split; [exact reachable_db3|].
  exact (vertex_stored_once vid_hash edge_hash npos db3 reachable_db3).
Defined.

(** Vertex 2 in shard 1 of the example database: the edge (1,2) at position 0
    comes in, the edge (2,3) at position 1 goes out. *)
Lemma edge_index_is_exact_witness :
  let s := default (mk_graph_shard (RS := Example.row_store)
                      (empty_shard_impl 0)) (shards db3 !! 1) in
  let ei := default graph_edge_index.empty (edge_index db3 !! 1) in
  let index := graph_edge_index.get_edge_index ei true true 2%N in
  reachable vid_hash edge_hash npos db3 ∧
  shards db3 !! 1 = Some s ∧ edge_index db3 !! 1 = Some ei ∧
  index = ([0], [1]) ∧
  NoDup index.1 ∧ NoDup index.2 ∧
  (∀ p, p ∈ index.1 ↔ ∃ u, shard_edge s p = Some (u, 2%N)) ∧
  (∀ p, p ∈ index.2 ↔ ∃ w, shard_edge s p = Some (2%N, w)).
Proof.
  intros s ei index.
  assert (Hs : shards db3 !! 1 = Some s) by (vm_compute; reflexivity).
  assert (Hei : edge_index db3 !! 1 = Some ei) by (vm_compute; reflexivity).
  split; [exact reachable_db3|]. split; [exact Hs|]. split; [exact Hei|].
  split; [vm_compute; reflexivity|].
  exact (edge_index_is_exact vid_hash edge_hash npos db3 1 s ei 2%N
           reachable_db3 Hs Hei).
Defined.

Lemma mirrors_are_exact_witness :
  reachable vid_hash edge_hash npos db3 ∧
  (∀ k s p e, shards db3 !! k = Some s → shard_edge s p = Some e →
     is_vertex db3 e.1 ∧ is_vertex db3 e.2) ∧
  (∀ k v, k ∈ mirrors_of db3 v ↔
     is_vertex db3 v ∧ k ≠ vid_hash v mod num_shards db3 ∧
     ∃ s p e, shards db3 !! k = Some s ∧ shard_edge s p = Some e ∧
              (e.1 = v ∨ e.2 = v)).
Proof.
  split; [exact reachable_db3|].
  exact (mirrors_are_exact vid_hash edge_hash npos db3 reachable_db3).
Defined.

(** The slice of shard 2 adjacent to shard 1 in the example database. *)
Lemma slice_by_master_witness :
  reachable vid_hash edge_hash npos db3 ∧
  1 < num_shards db3 ∧ 2 < num_shards db3 ∧
  get_shard_contents_adj_to db3 1 2
    = Some (Example.slice12.1, Example.slice12.2) ∧
  ∀ p, p ∈ edgeid (shard_impl Example.slice12.1) ↔
    ∃ origin e v,
      get_shard db3 2 = Some origin ∧
      shard_edge origin p = Some e ∧
      (e.1 = v ∨ e.2 = v) ∧ master_of db3 v = 1.
Proof.
  assert (H1 : 1 < num_shards db3) by (vm_compute; lia).
  assert (H2 : 2 < num_shards db3) by (vm_compute; lia).
  assert (Hget : get_shard_contents_adj_to db3 1 2
            = Some (Example.slice12.1, Example.slice12.2))
    by (vm_compute; reflexivity).
  split; [exact reachable_db3|]. split; [exact H1|]. split; [exact H2|].
  split; [exact Hget|].
  exact (slice_by_master vid_hash edge_hash npos db3 1 2 _ _
           reachable_db3 H1 H2 Hget).
Defined.

(** Vertex 7 is new in the example database. *)
Lemma add_vertex_then_get_vertex_witness :
  wf vid_hash db3 ∧ ¬ is_vertex db3 7%N ∧
  ∃ db' h db'',
    add_vertex vid_hash db3 7%N None = Some (true, db') ∧
    edge_index db' = edge_index db3 ∧
    num_edges db' = num_edges db3 ∧
    (∀ w, mirrors_of db' w = mirrors_of db3 w) ∧
    get_vertex npos db' 7%N = Some (Some h, db'') ∧
    graph_vertex_sharedmem.get_id h = 7%N ∧
    graph_vertex_sharedmem.master_shard h = vid_hash 7%N mod num_shards db3 ∧
    graph_vertex_sharedmem.get_shard_list h = [] ∧
    graph_vertex_sharedmem.get_num_shards h = 1 ∧
    shards db'' = shards db' ∧
    load_vertex_row (shards db'') (graph_vertex_sharedmem.data h)
      = Some (row_deepcopy
                (set_is_vertex true
                   (default (new_graph_row (vertex_fields db3)) None))).
Proof.
  assert (Hnew : ¬ is_vertex db3 7%N).
  { intros H. vm_compute in H. discriminate H. }
  split; [exact wf_db3|]. split; [exact Hnew|].
  exact (add_vertex_then_get_vertex vid_hash npos db3 7%N None wf_db3 Hnew).
Defined.

(** Vertex 3 and the unknown vid 7 in the example database. *)
Lemma get_master_spec_witness :
  reachable vid_hash edge_hash npos db3 ∧
  is_vertex db3 3%N ∧ ¬ is_vertex db3 7%N ∧
  (is_vertex db3 3%N →
   get_master db3 3%N = (vid_hash 3%N mod num_shards db3, db3)) ∧
  (¬ is_vertex db3 7%N →
   (get_master db3 7%N).1 = 0 ∧
   ¬ is_vertex (get_master db3 7%N).2 7%N ∧
   shards (get_master db3 7%N).2 = shards db3 ∧
   ((num_vertices db3 ≤ npos)%N →
    get_vertex npos (get_master db3 7%N).2 7%N
      = Some (None, (get_master db3 7%N).2))).
Proof.
  assert (H3 : is_vertex db3 3%N) by (vm_compute; reflexivity).
  assert (H7 : ¬ is_vertex db3 7%N).
  { intros H. vm_compute in H. discriminate H. }
  split; [exact reachable_db3|]. split; [exact H3|]. split; [exact H7|].
  split.
  - exact (proj1 (get_master_spec vid_hash edge_hash npos db3 3%N
                    reachable_db3)).
  - exact (proj1 (proj2 (get_master_spec vid_hash edge_hash npos db3 7%N
                           reachable_db3))).
Defined.

Lemma counters_exact_witness :
  reachable vid_hash edge_hash npos db3 ∧
  num_vertices db3 =
    N.of_nat (sum_list (shard_num_vertices <$> shards db3)) ∧
  num_vertices db3 =
    N.of_nat (size (graph_vertex_index.index_map (vertex_index db3))) ∧
  num_edges db3 =
    (N.of_nat (sum_list (shard_num_edges <$> shards db3)) mod SIZE_MOD)%N.
Proof.
  split; [exact reachable_db3|].
  exact (counters_exact vid_hash edge_hash npos db3 reachable_db3).
Defined.

(** The handle of vertex 3 after the client has set its rank to 7. *)
Lemma write_changes_frame_witness :
  let row := default (new_graph_row (RS := Example.row_store) [])
               (load_vertex_row Example.mem3 (3, 0)) in
  load_vertex_row Example.mem3 (graph_vertex_sharedmem.data Example.vertex3)
    = Some row ∧
  get_field row 0 = Some (Example.mk_value 7 0 true false) ∧
  ∃ mem1,
    graph_vertex_sharedmem.write_changes Example.vertex3 Example.mem3
      = Some mem1 ∧
    graph_vertex_sharedmem.write_changes_async Example.vertex3 Example.mem3
      = Some mem1 ∧
    graph_vertex_sharedmem.write_and_refresh Example.vertex3 Example.mem3
      = Some mem1 ∧
    graph_vertex_sharedmem.refresh Example.vertex3 Example.mem3
      = Some Example.mem3 ∧
    load_vertex_row mem1 (graph_vertex_sharedmem.data Example.vertex3)
      = Some (commit_row row) ∧
    (∀ j, get_field (commit_row row) j =
          (λ x, if get_modified x then post_commit_state x else x)
            <$> get_field row j) ∧
    (∀ q, q ≠ graph_vertex_sharedmem.data Example.vertex3 →
          load_vertex_row mem1 q = load_vertex_row Example.mem3 q) ∧
    (∀ q, load_edge_row mem1 q = load_edge_row Example.mem3 q) ∧
    layout_grows Example.mem3 mem1 ∧ layout_grows mem1 Example.mem3.
Proof.
  intros row.
  assert (Hrow : load_vertex_row Example.mem3
                   (graph_vertex_sharedmem.data Example.vertex3) = Some row)
    by (vm_compute; reflexivity).
  split; [exact Hrow|]. split; [vm_compute; reflexivity|].
  exact (write_changes_frame Example.vertex3 Example.mem3 row Hrow).
Defined.


(** The copy of shard 1 of the example database, with the rank of its
    vertices set to 9 and the weight of its edges set to 5. *)
Lemma commit_shard_copy_witness :
  reachable vid_hash edge_hash npos db3 ∧
  get_shard_copy db3 1 = Some Example.copy1 ∧
  edited (shard_impl Example.copy1) (shard_impl Example.copy1') ∧
  shard_num_vertices Example.copy1' = 1 ∧
  shard_num_edges Example.copy1' = 2 ∧
  graph_shard_id Example.copy1 = 1 ∧ edgeid (shard_impl Example.copy1) = [] ∧
  ∃ db' c'',
    commit_shard db3 Example.copy1' = Some (db', c'') ∧
    vertex_data (shard_impl c'') =
      commit_row <$> vertex_data (shard_impl Example.copy1') ∧
    edge_data (shard_impl c'') =
      commit_row <$> edge_data (shard_impl Example.copy1') ∧
    (∀ i local, shard_edge_data Example.copy1' i = Some local →
       ∃ origin,
         load_edge_row (shards db3) (1, i) = Some origin ∧
         load_edge_row (shards db') (1, i) = Some (commit_into local origin)) ∧
    (∀ q, q.1 ≠ 1 →
          load_edge_row (shards db') q = load_edge_row (shards db3) q) ∧
    (∀ q, load_vertex_row (shards db') q = load_vertex_row (shards db3) q).
Proof.
  assert (Hcopy : get_shard_copy db3 1 = Some Example.copy1)
    by (vm_compute; reflexivity).
  assert (Hedit : edited (shard_impl Example.copy1)
                    (shard_impl Example.copy1')).
  { vm_compute. repeat split; repeat constructor. }
  split; [exact reachable_db3|]. split; [exact Hcopy|].
  split; [exact Hedit|].
  split; [vm_compute; reflexivity|]. split; [vm_compute; reflexivity|].
  exact (commit_shard_copy vid_hash edge_hash npos db3 1
           Example.copy1 Example.copy1' reachable_db3 Hcopy Hedit).
Defined.

(** The edge (1,2) of the example database, inserted two more times. *)
Lemma add_edge_twice_witness :
  reachable vid_hash edge_hash npos db3 ∧
  ∃ db1 db2 s s2,
    add_edge vid_hash edge_hash db3 1%N 2%N None = Some db1 ∧
    add_edge vid_hash edge_hash db1 1%N 2%N None = Some db2 ∧
    shards db3 !! (edge_hash (1%N, 2%N) mod num_shards db3) = Some s ∧
    shards db2 !! (edge_hash (1%N, 2%N) mod num_shards db3) = Some s2 ∧
    edge (shard_impl s2) =
      edge (shard_impl s) ++ [(1%N, 2%N); (1%N, 2%N)] ∧
    (∀ w, is_vertex db2 w ↔ is_vertex db1 w) ∧
    num_vertices db2 = num_vertices db1 ∧
    (∀ w, master_of db2 w = master_of db1 w) ∧
    (∀ w, mirrors_of db2 w = mirrors_of db1 w).
Proof.
  split; [exact reachable_db3|].
  exact (add_edge_twice vid_hash edge_hash npos db3 1%N 2%N None None
           reachable_db3).
Defined.

End Witnesses.
